(** * GeoPy: the staleness-aware output controller of the averaging workers

    A shallow embedding of the two worker scripts of the repository,

    - [processing/shpavg.py]: [performExtraction] and the exit status of
      the batch driver,
    - [datasets/wrfavg.py]: [computeClimatology],
    - [datasets/CESM.py]: the loaders [loadCESM] and [loadCESM_TS],

    as programs of a small exception-and-filesystem monad that records every
    effect together with the filesystem it leaves behind. *)

From Stdlib Require Import ZArith List Lia Bool Ascii String.
From stdpp Require Import base tactics option list strings pretty gmap.

Local Open Scope string_scope.
Local Open Scope Z_scope.

(** ** Python values and exceptions *)

(** The exception classes the workers and their collaborators raise.
    [UnboundLocalError] is Python's error for reading a local variable that
    no branch has assigned; [ExternalError] stands for a failure inside the
    processing engine, which is not part of these scripts. *)
Inductive exn :=
| TypeError | IOError | OSError | KeyError | IndexError | ValueError
| AttributeError | AssertionError | ImportError | NotImplementedError
| UnboundLocalError | DateError | DatasetError | ExternalError.

#[global] Instance exn_eq_dec : EqDecision exn.
Proof. solve_decision. Defined.

Inductive res (A : Type) :=
| Ok (a : A)
| Raise (e : exn).
Arguments Ok {A} a.
Arguments Raise {A} e.

(** *** Strings *)

Definition is_lower (c : ascii) : bool :=
  let n := N_of_ascii c in ((97 <=? n) && (n <=? 122))%N.

Definition upper_ascii (c : ascii) : ascii :=
  if is_lower c then ascii_of_N (N_of_ascii c - 32) else c.

(** [str.upper()] on a byte string. *)
Fixpoint upper (s : string) : string :=
  match s with
  | EmptyString => EmptyString
  | String c s' => String (upper_ascii c) (upper s')
  end.

(** [s[1:]] *)
Definition drop1 (s : string) : string :=
  match s with
  | EmptyString => EmptyString
  | String _ s' => s'
  end.

(** [s[0:4]] *)
Definition take4 (s : string) : string := substring 0 4 s.

(** [s.split('-')[0]]: everything before the first dash. *)
Fixpoint before_dash (s : string) : string :=
  match s with
  | EmptyString => EmptyString
  | String c s' => if Ascii.eqb c "-" then EmptyString else String c (before_dash s')
  end.

Definition is_space (c : ascii) : bool :=
  let n := N_of_ascii c in ((n =? 32) || ((9 <=? n) && (n <=? 13)))%N.

Fixpoint lstrip (s : string) : string :=
  match s with
  | String c s' => if is_space c then lstrip s' else s
  | EmptyString => EmptyString
  end.

Definition digit_of (c : ascii) : option Z :=
  let n := N_of_ascii c in
  if ((48 <=? n) && (n <=? 57))%N then Some (Z.of_N n - 48) else None.

(** Digits, then optional trailing white space; [seen] says whether a digit
    has been read. *)
Fixpoint digits (acc : Z) (seen : bool) (s : string) : option Z :=
  match s with
  | EmptyString => if seen then Some acc else None
  | String c s' =>
      match digit_of c with
      | Some d => digits (10 * acc + d) true s'
      | None =>
          if seen && (match lstrip s with EmptyString => true | _ => false end)
          then Some acc else None
      end
  end.

(** [int(s)] for a string: white space is stripped, a sign is allowed, at
    least one decimal digit is required; [ValueError] otherwise. *)
Definition py_int (s : string) : res Z :=
  let r :=
    match lstrip s with
    | String "-" s' => Z.opp <$> digits 0 false s'
    | String "+" s' => digits 0 false s'
    | s' => digits 0 false s'
    end in
  match r with
  | Some z => Ok z
  | None => Raise ValueError
  end.

Fixpoint spaces (n : nat) : string :=
  match n with
  | O => EmptyString
  | S n' => String " " (spaces n')
  end.

(** ['{:4d}'.format(z)]: decimal, right aligned in a field of four. *)
Definition fmt4d (z : Z) : string :=
  let s := pretty z in spaces (4 - String.length s)%nat +:+ s.

(** ['{0:4d}-{1:4d}'.format(b, e)] *)
Definition fmt_period (b e : Z) : string := fmt4d b +:+ "-" +:+ fmt4d e.

(** ** The batch driver's exit status ([shpavg.py], last line) *)

(** The ceiling of [a / b] for [0 < b].  The script computes
    [np.ceil(10.*ec/len(args))] in double precision, which agrees with the
    exact ceiling as long as the number of jobs stays below [2^49]. *)
Definition ceil_div (a b : Z) : Z := - ((- a) / b).

(** [int(10+np.ceil(10.*ec/len(args))) if ec > 0 else 0] *)
Definition exit_code (ec n : Z) : Z :=
  if 0 <? ec then 10 + ceil_div (10 * ec) n else 0.

(** ** The world of a job: files, and the effects a job has on them *)

(** What a path holds.  [Partial] is a file that is being written, or was
    left behind by a writer that never closed it; [Complete] is a file whose
    writer synced and closed it. *)
Inductive kind := Directory | Partial | Complete.

#[global] Instance kind_eq_dec : EqDecision kind.
Proof. solve_decision. Defined.

Record node := Node { n_mtime : Z; n_size : Z; n_kind : kind }.

#[global] Instance node_eq_dec : EqDecision node.
Proof. solve_decision. Defined.

(** The filesystem, by path. *)
Abbreviation fs := (gmap string node).

(** Operations of the processing engine ([processing.process], not part of
    these scripts). *)
Inductive cpu_op :=
| CPUInit
| ShapeAverage
| Climatology (period offset : Z)
| Regrid
| CPUSync.

(** The messages handed to [logger.info]; their layout is not modelled. *)
Inductive message :=
| MsgBanner
| MsgSource
| MsgSkip (filename : string)
| MsgSink
| MsgWrite (filename : string)
| MsgInvalidPeriod (enddate : Z)
| MsgComputing (periodstr grid : string).

(** Every effect of a job, in the order it happens. *)
Inductive event :=
| EvGetLogger (name : option string)
| EvAddHandler
| EvLog (m : message)
| EvImport (module : string)
| EvLoad (loader : string)
| EvExists (p : string)
| EvGetmtime (p : string)
| EvGetsize (p : string)
| EvRemove (p : string)
| EvRename (p q : string)
| EvCreate (p : string) (atts : gmap string string)
| EvDataset (atts : gmap string string)
| EvCPU (op : cpu_op)
| EvSinkOp (what : string)
| EvSetAtt (att value : string)
| EvSinkSync
| EvSinkClose (p : string)
| EvUnload.

#[global] Instance cpu_op_eq_dec : EqDecision cpu_op.
Proof. solve_decision. Defined.
#[global] Instance message_eq_dec : EqDecision message.
Proof. solve_decision. Defined.
#[global] Instance event_eq_dec : EqDecision event.
Proof. solve_decision. Defined.

(** What the clock and the engine decide during one job. *)
Record oracle := Oracle {
  today : Z;                          (* [datetime.today()] *)
  opened : string -> Z * Z;           (* time and size of a file just created for writing *)
  closed : string -> Z * Z;           (* time and size of that file once synced and closed *)
  cpu_outcome : cpu_op -> option exn  (* [None]: the engine call returns *)
}.

(** The result of running a program: what it returned or raised, the
    filesystem at the end, and each effect paired with the filesystem right
    after it, which is what an interruption at that point leaves on disk. *)
Record run (A : Type) := Run {
  out : res A;
  final : fs;
  steps : list (event * fs)
}.
Arguments Run {A} out final steps.
Arguments out {A} r.
Arguments final {A} r.
Arguments steps {A} r.

Definition M (A : Type) : Type := fs -> run A.

Definition ret {A} (a : A) : M A := fun s => Run (Ok a) s [].

Definition raise {A} (e : exn) : M A := fun s => Run (Raise e) s [].

Definition bind {A B} (c : M A) (k : A -> M B) : M B := fun s =>
  let r := c s in
  match out r with
  | Ok a => let r' := k a (final r) in Run (out r') (final r') (steps r ++ steps r')
  | Raise e => Run (Raise e) (final r) (steps r)
  end.

#[global] Instance M_ret : MRet M := @ret.
#[global] Instance M_bind : MBind M := fun A B k c => bind c k.

Definition lift {A} (r : res A) : M A :=
  match r with
  | Ok a => ret a
  | Raise e => raise e
  end.

(** An effect that leaves the files alone. *)
Definition emit (e : event) : M unit := fun s => Run (Ok tt) s [(e, s)].

(** [d[k]] on a dictionary of keyword arguments. *)
Definition key {A} (v : option A) : M A :=
  match v with
  | Some a => ret a
  | None => raise KeyError
  end.

(** Reading a local variable that only some branches assign. *)
Definition local {A} (v : option A) : M A :=
  match v with
  | Some a => ret a
  | None => raise UnboundLocalError
  end.

(** [l[0]] *)
Definition index0 {A} (l : list A) : M A :=
  match l with
  | a :: _ => ret a
  | [] => raise IndexError
  end.

Definition info (m : message) : M unit := emit (EvLog m).

(** *** [os] and [os.path] *)

Definition os_path_exists (p : string) : M bool := fun s =>
  Run (Ok (match s !! p with Some _ => true | None => false end)) s [(EvExists p, s)].

Definition os_path_getmtime (p : string) : M Z := fun s =>
  Run (match s !! p with Some n => Ok (n_mtime n) | None => Raise OSError end)
      s [(EvGetmtime p, s)].

Definition os_path_getsize (p : string) : M Z := fun s =>
  Run (match s !! p with Some n => Ok (n_size n) | None => Raise OSError end)
      s [(EvGetsize p, s)].

Definition os_remove (p : string) : M unit := fun s =>
  match s !! p with
  | Some (Node _ _ Directory) | None => Run (Raise OSError) s [(EvRemove p, s)]
  | Some _ => Run (Ok tt) (delete p s) [(EvRemove p, delete p s)]
  end.

Definition os_rename (p q : string) : M unit := fun s =>
  match s !! p, s !! q with
  | None, _ | Some _, Some (Node _ _ Directory) =>
      Run (Raise OSError) s [(EvRename p q, s)]
  | Some n, _ =>
      let s' := <[q := n]> (delete p s) in Run (Ok tt) s' [(EvRename p q, s')]
  end.

(** *** The sink and the engine *)

(** [DatasetNetCDF(folder=.., filelist=[name], atts=.., mode='w')]: the file
    is created, or truncated, at once. *)
Definition DatasetNetCDF_w (o : oracle) (p : string) (atts : gmap string string) : M unit :=
  fun s =>
    match s !! p with
    | Some (Node _ _ Directory) => Run (Raise IOError) s [(EvCreate p atts, s)]
    | _ =>
        let s' := <[p := Node (opened o p).1 (opened o p).2 Partial]> s in
        Run (Ok tt) s' [(EvCreate p atts, s')]
    end.

(** [sink.close()] after the final [sink.sync()]: the file is complete. *)
Definition sink_close (o : oracle) (p : string) : M unit := fun s =>
  let s' := <[p := Node (closed o p).1 (closed o p).2 Complete]> s in
  Run (Ok tt) s' [(EvSinkClose p, s')].

Definition cpu (o : oracle) (op : cpu_op) : M unit :=
  emit (EvCPU op);;
  match cpu_outcome o op with
  | None => ret tt
  | Some e => raise e
  end.

(** A loader of the dataset modules: it reads files and returns a dataset,
    or raises. *)
Definition load {A} (name : string) (f : fs -> res A) : M A := fun s =>
  Run (f s) s [(EvLoad name, s)].

(** ** Datasets and job arguments *)

(** A loaded source dataset, as far as the workers look at it: the attribute
    mapping, the backing files and the names of the variables. *)
Record source := Source {
  src_atts : gmap string string;
  src_filelist : list string;
  src_vars : list string
}.

(** An entry of an experiment registry. *)
Record experiment := Exp {
  exp_name : string;
  exp_begindate : string
}.

(** The [period] of a job: [None], a number of years, or a sequence of
    years. *)
Inductive period_arg :=
| PerNone
| PerInt (n : Z)
| PerSeq (l : list Z).

(** The [domain] of a WRF job: a number, or a list or tuple of numbers. *)
Inductive domain_arg :=
| DomInt (d : Z)
| DomSeq (l : list Z).

(** The dataset-specific keyword bundle; [None] is a key that is absent. *)
Record dataargs := DataArgs {
  da_experiment : option experiment;
  da_domain : option domain_arg;
  da_period : option period_arg;
  da_filetypes : option (list string);
  da_resolution : option string;
  da_load3D : option bool
}.

(** The [logger] keyword: [None], the name of a logger, a logger, or
    anything else. *)
Inductive logger_arg :=
| LNone
| LName (name : string)
| LHandle
| LOther.

(** The arguments of [performExtraction].  [dataset] is a string,
    [dataargs] a dictionary and [shape_dict] an ordered dictionary, so the
    three [isinstance] tests that open the function pass; the shapes
    themselves only travel on to the engine. *)
Record args := Args {
  dataset : string;
  mode : string;
  shape_name : string;
  a_dataargs : dataargs;
  loverwrite : bool;
  varlist : option (list string);
  lwrite : bool;
  lreturn : bool;
  ldebug : bool;
  lparallel : bool;
  pidstr : string;
  logger : logger_arg
}.

(** What a worker hands back. *)
Inductive retval :=
| RNone
| RInt (z : Z)
| RSink (file : option string) (atts : gmap string string).

(** A module of an observational dataset ([datasets.<NAME>]). *)
Record obs_module := ObsModule {
  om_dataset_name : string;
  om_avgfolder : string;
  om_loadClimatology :
    string -> option (list Z) -> string -> option (list string) -> fs -> res source;
  om_loadTimeSeries : string -> string -> option (list string) -> fs -> res source
}.

(** A file class of [datasets.WRF.fileclasses]. *)
Record fileclass := FileClass {
  fc_tsfile : Z -> string;                      (* [tsfile.format(domain)] *)
  fc_climfile : Z -> string -> string -> string (* [climfile.format(domain, grid, period)] *)
}.

(** A grid definition ([geodata.gdal.GridDefinition]).  Its name is a
    Python string object: [gd_name] is its value, and [gd_name_interned]
    says whether it is the interned object, the one that a literal of the
    same value denotes; the worker compares the name with a literal by
    identity ([is]).  [gd_geotansform] says whether the object has an
    attribute of that spelling. *)
Record griddef := GridDef {
  gd_name : string;
  gd_name_interned : bool;
  gd_geotansform : bool
}.

(** [griddef.name is lit], for a string literal [lit]: the two are the same
    object when the name is the interned string of that value. *)
Definition name_is (g : griddef) (lit : string) : bool :=
  gd_name_interned g && String.eqb (gd_name g) lit.

(** The collaborators that are not part of these scripts: [datasets.WRF],
    [datasets.common], the modules of the observational datasets, the
    NetCDF reader, and the module-level settings of [wrfavg.py]. *)
Record Env := {
  (* [datasets.WRF] *)
  loadWRF : string -> Z -> option (list Z) -> string -> option (list string) -> fs -> res source;
  loadWRF_TS : string -> Z -> string -> option (list string) -> fs -> res source;
  WRF_avgfolder : string;
  WRF_clim_file_pattern : string -> Z -> string -> string -> string;
  WRF_ts_file_pattern : string -> Z -> string -> string;
  WRF_fileclasses : string -> option fileclass;
  (* [datasets.common] *)
  data_root : string;
  getFileName : string -> option (list Z) -> string -> string -> res string;
  (* [import_module('datasets.<NAME>')] *)
  obs_modules : string -> option obs_module;
  (* [geodata.netcdf.DatasetNetCDF], reading *)
  DatasetNetCDF_r : string -> list string -> option (list string) -> fs -> res source;
  (* [geodata.gdal.addGDALtoDataset] *)
  addGDALtoDataset : source -> res source;
  (* globals of [wrfavg.py], set by its main block *)
  g_ldebug : bool;
  g_grid : string
}.

(** [geodata.misc.isInt] works elementwise; every entry of a sequence of
    integers passes. *)
Definition isInt (l : list Z) : list bool := map (fun _ => true) l.

Definition all (l : list bool) : bool := forallb id l.

(** ['{0:4d}-{1:4d}'.format( *period)] *)
Definition format_period (l : list Z) : res string :=
  match l with
  | b :: e :: _ => Ok (fmt_period b e)
  | _ => Raise IndexError
  end.

(** [mode.title()] *)
Fixpoint title_from (start : bool) (s : string) : string :=
  match s with
  | EmptyString => EmptyString
  | String c s' =>
      let n := N_of_ascii c in
      let alpha := (((97 <=? n) && (n <=? 122)) || ((65 <=? n) && (n <=? 90)))%N in
      let c' := if alpha
                then (if start then upper_ascii c
                      else if ((65 <=? n) && (n <=? 90))%N then ascii_of_N (n + 32) else c)
                else c in
      String c' (title_from (negb alpha) s')
  end.

Definition title (s : string) : string := title_from true s.

(** [s[1:-1]] *)
Fixpoint drop_last (s : string) : string :=
  match s with
  | EmptyString => EmptyString
  | String c EmptyString => EmptyString
  | String c s' => String c (drop_last s')
  end.

Definition slice_1_m1 (s : string) : string := drop_last (drop1 s).

(** Binding the keywords of a call: a keyword the function does not accept
    is a [TypeError], raised before its body runs. *)
Definition accepts (params passed : list string) : bool :=
  forallb (fun k => existsb (String.eqb k) params) passed.

Definition bind_keywords (params passed : list string) : M unit :=
  if accepts params passed then ret tt else raise TypeError.

(** ** [datasets/CESM.py] *)

Module CESM.

Record entry := Entry {
  shortname : string;
  name : string;
  begindate : string;
  enddate : string;
  grid : string
}.

(** The reference list of experiments. *)
Definition experiments : list entry :=
  [ Entry "Ctrl" "tb20trcn1x1" "1979-01-01" "1995-01-01" "cesm1x1";
    Entry "Ens-A" "hab20trcn1x1" "1979-01-01" "1989-01-01" "cesm1x1";
    Entry "Ens-B" "hbb20trcn1x1" "1979-01-01" "1989-01-01" "cesm1x1";
    Entry "Ens-C" "hcb20trcn1x1" "1979-01-01" "1989-01-01" "cesm1x1";
    Entry "Seaice-2050" "seaice-5r-hf" "2045-01-01" "2055-01-01" "cesm1x1";
    Entry "Ctrl-2050" "htbrcp85cn1x1" "2045-01-01" "2060-01-01" "cesm1x1";
    Entry "Ens-A-2050" "habrcp85cn1x1" "2045-01-01" "2060-01-01" "cesm1x1";
    Entry "Ens-B-2050" "hbbrcp85cn1x1" "2045-01-01" "2060-01-01" "cesm1x1";
    Entry "Ens-C-2050" "hcbrcp85cn1x1" "2045-01-01" "2060-01-01" "cesm1x1" ].

(** [exps]: every experiment under its name and under its short name. *)
Definition exps (k : string) : option entry :=
  List.find (fun e => String.eqb k (name e) || String.eqb k (shortname e)) experiments.

(** The [climfile] of a file class; [axes] has none. *)
Definition fileclasses (filetype : string) : option (option (string -> string -> string)) :=
  if String.eqb filetype "atm"
  then Some (Some (fun g p => "cesmatm" +:+ g +:+ "_clim" +:+ p +:+ ".nc"))
  else if String.eqb filetype "lnd"
  then Some (Some (fun g p => "cesmlnd" +:+ g +:+ "_clim" +:+ p +:+ ".nc"))
  else if String.eqb filetype "ice"
  then Some (Some (fun g p => "cesmice" +:+ g +:+ "_clim" +:+ p +:+ ".nc"))
  else if String.eqb filetype "axes" then Some None
  else None.

Section WithEnv.
Variable env : Env.

Definition root_folder : string := data_root env +:+ "CESM/".
Definition avgfolder : string := root_folder +:+ "cesmavg/".

(** [Exp.defaults['avgfolder']] *)
Definition exp_avgfolder (e : entry) : string :=
  avgfolder +:+ "/" +:+ name e +:+ "/".

(** [getFolderName(name=None, experiment=<a name>, folder=None)] *)
Definition getFolderName (experiment : string) : M (string * entry * string) :=
  e ← key (exps experiment);
  let folder := exp_avgfolder e in
  ex ← os_path_exists folder;
  if negb ex then raise IOError else ret (folder, e, name e).

(** The names of the climatology files of the file types. *)
Fixpoint climfiles (filetypes : list string) : M (list (string -> string -> string)) :=
  match filetypes with
  | [] => ret []
  | ft :: rest =>
      fc ← key (fileclasses ft);
      l ← climfiles rest;
      ret (match fc with Some f => f :: l | None => l end)
  end.

Definition loadCESM_params : list string :=
  ["experiment"; "name"; "grid"; "period"; "filetypes"; "varlist"; "varatts"].

(** [loadCESM], called with the keywords [passed], of which [grid] and
    [varatts] are [None], [period] is [None] or a sequence and
    [filetypes] is a list.  (What the function does to a missing
    [varlist] is left to the reader of the files.) *)
Definition loadCESM (passed : list string) (experiment : string)
    (period : option (list Z)) (filetypes : list string)
    (varlist : option (list string)) : M source :=
  bind_keywords loadCESM_params passed;;
  '(folder, e, nm) ← getFolderName experiment;
  match period with
  | None => raise DateError
  | Some l =>
      ps ← lift (format_period l);
      let periodstr := "_" +:+ ps in
      let filetypes :=
        if existsb (String.eqb "axes") filetypes then filetypes
        else (filetypes ++ ["axes"])%list in
      filelist ← climfiles filetypes;
      let gridstr := "" in
      let filenames := map (fun f => f gridstr periodstr) filelist in
      ds ← load "DatasetNetCDF" (DatasetNetCDF_r env folder filenames varlist);
      if Nat.eqb (List.length (src_vars ds)) 0 then raise DatasetError
      else lift (addGDALtoDataset env ds)
  end.

Definition loadCESM_TS_params : list string :=
  ["experiment"; "name"; "filetypes"; "varlist"; "varatts"].

Definition loadCESM_TS (passed : list string) : M source :=
  bind_keywords loadCESM_TS_params passed;;
  raise NotImplementedError.

End WithEnv.

End CESM.

(** ** [processing/shpavg.py]: the shape-average worker *)

Definition nonempty (s : string) : bool :=
  match s with
  | EmptyString => false
  | _ => true
  end.

Definition is_climatology (m : string) : bool := String.eqb m "climatology".
Definition is_time_series (m : string) : bool := String.eqb m "time-series".

(** What the worker knows once the source is loaded. *)
Record loaded := Loaded {
  ld_source : source;
  ld_dataset_name : string;
  ld_period : option (list Z);
  ld_periodstr : string;
  ld_filetype : option string;
  ld_domain : option Z;
  ld_grid_name : option string;
  ld_module : option obs_module
}.

(** What a WRF or CESM job knows before the period of the source is
    checked. *)
Record fetched := Fetched {
  ft_source : source;
  ft_dataset_name : string;
  ft_period : option (list Z);
  ft_filetype : string;
  ft_domain : option Z
}.

(** The file names of the output, once the folder is known to exist. *)
Record target := Target {
  tg_periodstr : string;
  tg_filename : option string;
  tg_avgfolder : string
}.

Record paths := Paths {
  filename : string;
  tmpfilename : string;
  filepath : string;
  tmpfilepath : string
}.

Section Shpavg.
Variable env : Env.
Variable o : oracle.

(** Input checking: parallel mode. *)
Definition check_input (a : args) : M unit :=
  if lparallel a then
    if negb (lwrite a) then raise IOError
    else if lreturn a then raise IOError
    else ret tt
  else ret tt.

(** Logging. *)
Definition setup_logger (a : args) : M unit :=
  match logger a with
  | LNone => emit (EvGetLogger None);; emit EvAddHandler
  | LName n => emit (EvGetLogger (Some n))
  | LHandle => ret tt
  | LOther => raise TypeError
  end.

(** Figure out the period of a WRF or CESM job. *)
Definition model_period (begindate : string) (p : period_arg) : M (option (list Z)) :=
  match p with
  | PerNone => ret None
  | PerInt n =>
      beginyear ← lift (py_int (take4 begindate));
      ret (Some [beginyear; beginyear + n])
  | PerSeq l =>
      if negb (Nat.eqb (List.length l) 2) && all (isInt l) then raise DateError
      else ret (Some l)
  end.

(** Figure out the period of an observational job. *)
Definition obs_period (p : period_arg) : M (option (list Z)) :=
  match p with
  | PerNone => ret None
  | PerInt n => ret (Some [1979; 1979 + n])
  | PerSeq l =>
      if negb (Nat.eqb (List.length l) 2) && negb (all (isInt l)) then raise DateError
      else ret (Some l)
  end.

Definition period_string (period : option (list Z)) : M string :=
  match period with
  | None => ret ""
  | Some l => lift (format_period l)
  end.

(** Check the period against the attribute of the NetCDF file. *)
Definition check_period (src : source) (periodstr : string) : M unit :=
  match src_atts src !! "period" with
  | Some p => if negb (String.eqb periodstr p) then raise DateError else ret tt
  | None => ret tt
  end.

(** WRF datasets: the arguments of the job and the source they name. *)
Definition fetch_WRF (a : args) : M fetched :=
  let da := a_dataargs a in
  emit (EvImport "datasets.WRF");;
  exp ← key (da_experiment da);
  let dataset_name := exp_name exp in
  domain ← key (da_domain da);
  period ← key (da_period da);
  period ← model_period (exp_begindate exp) period;
  filetypes ← key (da_filetypes da);
  if Nat.ltb 1 (List.length filetypes) then raise DatasetError else
  filetype ← index0 filetypes;
  domain ← match domain with DomSeq l => index0 l | DomInt d => ret d end;
  source ←
    (if is_climatology (mode a)
     then load "loadWRF" (loadWRF env dataset_name domain period filetype (varlist a))
     else if is_time_series (mode a)
     then load "loadWRF_TS" (loadWRF_TS env dataset_name domain filetype (varlist a))
     else raise NotImplementedError);
  ret (Fetched source dataset_name period filetype (Some domain)).

(** Check the period of the loaded source. *)
Definition check_loaded (x : fetched) : M loaded :=
  periodstr ← period_string (ft_period x);
  check_period (ft_source x) periodstr;;
  ret (Loaded (ft_source x) (ft_dataset_name x) (ft_period x) periodstr
              (Some (ft_filetype x)) (ft_domain x) None None).

Definition load_WRF (a : args) : M loaded :=
  x ← fetch_WRF a;
  check_loaded x.

(** The keywords the worker passes to the loaders of [datasets.CESM]. *)
Definition CESM_keywords : list string :=
  ["experiment"; "name"; "grid"; "period"; "filetypes"; "varlist"; "varatts";
   "load3D"; "translateVars"].
Definition CESM_TS_keywords : list string :=
  ["experiment"; "name"; "grid"; "filetypes"; "varlist"; "varatts";
   "load3D"; "translateVars"].

(** CESM datasets. *)
Definition fetch_CESM (a : args) : M fetched :=
  let da := a_dataargs a in
  emit (EvImport "datasets.CESM");;
  exp ← key (da_experiment da);
  let dataset_name := exp_name exp in
  period ← key (da_period da);
  period ← model_period (exp_begindate exp) period;
  filetypes ← key (da_filetypes da);
  if Nat.ltb 1 (List.length filetypes) then raise DatasetError else
  filetype ← index0 filetypes;
  source ←
    (if is_climatology (mode a)
     then CESM.loadCESM env CESM_keywords dataset_name period [filetype] (varlist a)
     else if is_time_series (mode a)
     then CESM.loadCESM_TS CESM_TS_keywords
     else raise NotImplementedError);
  ret (Fetched source dataset_name period filetype None).

Definition load_CESM (a : args) : M loaded :=
  x ← fetch_CESM a;
  check_loaded x.

Definition import_module (name : string) : M obs_module :=
  emit (EvImport ("datasets." +:+ name));;
  match obs_modules env name with
  | Some m => ret m
  | None => raise ImportError
  end.

Definition load_obs (a : args) : M loaded :=
  let da := a_dataargs a in
  module ← import_module (dataset a);
  let dataset_name := om_dataset_name module in
  resolution ← key (da_resolution da);
  let grid_name :=
    if nonempty resolution then dataset_name +:+ "_" +:+ resolution else dataset_name in
  period ← key (da_period da);
  period ← obs_period period;
  source ←
    (if is_climatology (mode a)
     then load "loadClimatology"
            (om_loadClimatology module dataset_name period resolution (varlist a))
     else if is_time_series (mode a)
     then load "loadTimeSeries" (om_loadTimeSeries module dataset_name resolution (varlist a))
     else raise NotImplementedError);
  periodstr ←
    match period with
    | None => ret (if is_climatology (mode a) then "Long-Term Mean" else "")
    | Some l => lift (format_period l)
    end;
  ret (Loaded source dataset_name period periodstr None None (Some grid_name) (Some module)).

(** Load the source: the dispatch on the dataset identifier. *)
Definition load_source (a : args) : M loaded :=
  if String.eqb (dataset a) "WRF" then load_WRF a
  else if String.eqb (dataset a) "CESM" then load_CESM a
  else if String.eqb (dataset a) (upper (dataset a)) then load_obs a
  else raise DatasetError.

(** The common message and the feedback to the logger. *)
Definition announce (a : args) : M unit :=
  (if is_climatology (mode a) || is_time_series (mode a) then ret tt
   else raise NotImplementedError);;
  info MsgBanner;;
  if negb (lparallel a) && ldebug a then info MsgSource else ret tt.

(** [age if age < sourceage else sourceage] *)
Definition older (sourceage age : Z) : Z :=
  if age <? sourceage then age else sourceage.

(** The loop over [source.filelist]. *)
Fixpoint oldest (sourceage : Z) (filelist : list string) : M Z :=
  match filelist with
  | [] => ret sourceage
  | filename :: rest =>
      age ← os_path_getmtime filename;
      oldest (older sourceage age) rest
  end.

(** Determine the age of the oldest source file, unless overwriting. *)
Definition source_age (overwrite : bool) (src : source) : M (option Z) :=
  if negb overwrite then
    sourceage ← oldest (today o) (src_filelist src);
    ret (Some sourceage)
  else ret None.

(** Prepare the target dataset: file name and folder. *)
Definition prepare_target (a : args) (ld : loaded) : M target :=
  let dataset_name := ld_dataset_name ld in
  '(periodstr, filename, avgfolder) ←
    (if String.eqb (dataset a) "WRF" then
       let stnstr := "_" +:+ shape_name a in
       let periodstr :=
         if nonempty (ld_periodstr ld) then "_" +:+ ld_periodstr ld else "" in
       if lwrite a then
         filetype ← local (ld_filetype ld);
         domain ← local (ld_domain ld);
         filename ←
           (if is_climatology (mode a)
            then ret (WRF_clim_file_pattern env filetype domain stnstr periodstr)
            else if is_time_series (mode a)
            then ret (WRF_ts_file_pattern env filetype domain stnstr)
            else raise NotImplementedError);
         ret (periodstr, Some filename,
              Some (WRF_avgfolder env +:+ "/" +:+ dataset_name +:+ "/"))
       else ret (periodstr, None, None)
     else if String.eqb (dataset a) "CESM" then
       let periodstr :=
         if nonempty (ld_periodstr ld) then "_" +:+ ld_periodstr ld else "" in
       if lwrite a then
         (* [datasets.CESM] defines neither [clim_file_pattern] nor
            [ts_file_pattern] *)
         if is_climatology (mode a) then raise AttributeError
         else if is_time_series (mode a) then raise AttributeError
         else raise NotImplementedError
       else ret (periodstr, None, None)
     else if String.eqb (dataset a) (upper (dataset a)) then
       if lwrite a then
         module ← local (ld_module ld);
         grid_name ← local (ld_grid_name ld);
         filename ← lift (getFileName env (shape_name a) (ld_period ld) grid_name (mode a));
         ret (ld_periodstr ld, Some filename, Some (om_avgfolder module))
       else ret (ld_periodstr ld, None, None)
     else raise DatasetError);
  filename ←
    (if ldebug a then f ← local filename; ret (Some ("test_" +:+ f)) else ret filename);
  avgfolder ← local avgfolder;
  ex ← os_path_exists avgfolder;
  if negb ex then raise IOError else ret (Target periodstr filename avgfolder).

Definition tmp_prefix (a : args) : string :=
  if lparallel a
  then "tmp_" +:+ shape_name a +:+ "_" +:+ slice_1_m1 (pidstr a) +:+ "_"
  else "tmp_" +:+ shape_name a +:+ "_".

(** The final and the temporary path; no temporary file if the dataset is
    passed on. *)
Definition output_paths (a : args) (tg : target) (filename : string) : paths :=
  let tmpfilename := if lreturn a then filename else tmp_prefix a +:+ filename in
  Paths filename tmpfilename (tg_avgfolder tg +:+ filename) (tg_avgfolder tg +:+ tmpfilename).

(** An output file is there: skip, or remove it and recompute. *)
Definition decide_skip (overwrite : bool) (sourceage : option Z) (filepath : string)
    : M bool :=
  ex ← os_path_exists filepath;
  if (ex : bool) then
    lskip ←
      (if negb overwrite then
         age ← os_path_getmtime filepath;
         sourceage ← local sourceage;
         if sourceage <? age then
           size ← os_path_getsize filepath;
           ret (1000000 <? size)
         else ret false
       else ret false);
    (if negb lskip then os_remove filepath else ret tt);;
    ret lskip
  else ret false.

Definition sink_atts (a : args) (ld : loaded) (tg : target) : gmap string string :=
  <["title" := "Area Averages from " +:+ ld_dataset_name ld +:+ " " +:+ title (mode a)]>
    (<["shapes" := shape_name a]>
       (<["name" := ld_dataset_name ld]>
          (<["period" := if nonempty (tg_periodstr tg) then drop1 (tg_periodstr tg)
                         else "time-series"]>
             (src_atts (ld_source ld))))).

(** Create the sink, extract the averages, and write the results. *)
Definition compute (a : args) (ld : loaded) (tg : target) (ps : option paths) : M retval :=
  let atts := sink_atts a ld tg in
  sink ←
    match ps with
    | Some p =>
        ex ← os_path_exists (tmpfilepath p);
        (if (ex : bool) then os_remove (tmpfilepath p) else ret tt);;
        DatasetNetCDF_w o (tmpfilepath p) atts;;
        ret (RSink (Some (tmpfilepath p)) atts)
    | None => emit (EvDataset atts);; ret (RSink None atts)
    end;
  cpu o CPUInit;;
  cpu o ShapeAverage;;
  cpu o CPUSync;;
  (if negb (lparallel a) && ldebug a then info MsgSink else ret tt);;
  match ps with
  | Some p =>
      emit EvSinkSync;;
      info (MsgWrite (filename p));;
      if negb (lreturn a) then
        emit (EvSinkOp "unload");;
        sink_close o (tmpfilepath p);;
        ex ← os_path_exists (filepath p);
        (if (ex : bool) then os_remove (filepath p) else ret tt);;
        os_rename (tmpfilepath p) (filepath p)
      else ret tt
  | None => ret tt
  end;;
  emit EvUnload;;
  ret (if lreturn a then sink else RInt 0).

(** From [lskip = False] to the end of the function; [ps] is bound exactly
    when [lwrite] holds. *)
Definition output (a : args) (ld : loaded) (sourceage : option Z) (tg : target)
    : M retval :=
  ps ←
    (if lwrite a then
       filename ← local (tg_filename tg);
       ret (Some (output_paths a tg filename))
     else ret None);
  lskip ←
    match ps with
    | Some p => decide_skip (loverwrite a) sourceage (filepath p)
    | None => ret false
    end;
  if (lskip : bool) then
    p ← local ps;
    info (MsgSkip (filename p));;
    ret RNone
  else compute a ld tg ps.

(** Everything up to the test that the dataset folder exists. *)
Definition resolve (a : args) : M (loaded * option Z * target) :=
  check_input a;;
  setup_logger a;;
  ld ← load_source a;
  announce a;;
  sourceage ← source_age (loverwrite a) (ld_source ld);
  tg ← prepare_target a ld;
  ret (ld, sourceage, tg).

Definition performExtraction (a : args) : M retval :=
  '(ld, sourceage, tg) ← resolve a;
  output a ld sourceage tg.

End Shpavg.

(** ** [datasets/wrfavg.py]: the climatology worker *)

(** The arguments of [computeClimatology]; they are typed as its input
    checks demand. *)
Record cargs := CArgs {
  c_experiment : string;
  c_filetype : string;
  c_domain : Z;
  c_periods : option (list Z);
  c_offset : Z;
  c_griddef : option griddef;
  c_loverwrite : bool;
  c_lparallel : bool;
  c_pidstr : string;
  c_logger : logger_arg
}.

Section Wrfavg.
Variable env : Env.
Variable o : oracle.

(** [logger.info(..)]: the worker uses the logger it is given as it is. *)
Definition logger_info (lg : logger_arg) (m : message) : M unit :=
  match lg with
  | LHandle => info m
  | _ => raise AttributeError
  end.

(** The remaining input check: [periods] is [None] or a list that the
    elementwise [isInt] maps to a list that counts as true, which a
    list does unless it is empty. *)
Definition check_periods (periods : option (list Z)) : M unit :=
  match periods with
  | Some l => if negb (match isInt l with [] => false | _ => true end)
              then raise TypeError else ret tt
  | None => ret tt
  end.

(** [int(source.atts.<att>.split('-')[0])] *)
Definition year_of (src : source) (att : string) : M Z :=
  match src_atts src !! att with
  | Some d => lift (py_int (before_dash d))
  | None => raise AttributeError
  end.

(** The periods to loop over. *)
Definition default_periods (periods : option (list Z)) (begindate fileend : Z) : list Z :=
  match periods with
  | None => [begindate - fileend]
  | Some l => l
  end.

(** An output file is there: skip, or remove it and recompute. *)
Definition clim_decide_skip (overwrite : bool) (sourceage : option Z) (filepath : string)
    : M bool :=
  ex ← os_path_exists filepath;
  if (ex : bool) then
    lskip ←
      (if negb overwrite then
         age ← os_path_getmtime filepath;
         sourceage ← local sourceage;
         ret (sourceage <? age)
       else ret false);
    (if negb lskip then os_remove filepath else ret tt);;
    ret lskip
  else ret false.

(** The computation of one climatology into the sink at [filepath]. *)
Definition clim_compute (c : cargs) (src : source) (period : Z) (periodstr : string)
    (filename filepath : string) : M unit :=
  let lg := c_logger c in
  DatasetNetCDF_w o filepath (src_atts src);;
  emit (EvSetAtt "period" periodstr);;
  cpu o CPUInit;;
  cpu o (Climatology period (c_offset c));;
  match c_griddef c with
  | Some g =>
      cpu o Regrid;;
      (* the message is built from [griddef.geotansform] and then from a
         format string without a place for [pidstr] *)
      (if gd_geotansform g then raise TypeError else raise AttributeError)
  | None => ret tt
  end;;
  cpu o CPUSync;;
  emit (EvSinkOp "axisAnnotation");;
  emit (EvSinkOp "length_of_month");;
  logger_info lg (MsgWrite filename);;
  emit EvSinkSync;;
  sink_close o filepath;;
  if negb (c_lparallel c) then logger_info lg MsgSink else ret tt.

Definition clim_expfolder (c : cargs) : string :=
  WRF_avgfolder env +:+ c_experiment c +:+ "/".

(** The name of the climatology file of a period.  No grid is named when
    there is no grid definition, or when the name of the grid is the
    literal ['WRF'] itself, by identity: a name that only reads the same
    is put into the file name. *)
Definition clim_filename (c : cargs) (fc : fileclass) (periodstr : string) : string :=
  let gridstr :=
    match c_griddef c with
    | None => ""
    | Some g => if name_is g "WRF" then "" else "_" +:+ gd_name g
    end in
  let filename := fc_climfile fc (c_domain c) gridstr ("_" +:+ periodstr) in
  if g_ldebug env then "test_" +:+ filename else filename.

Definition clim_filepath (c : cargs) (fc : fileclass) (begindate period : Z) : string :=
  clim_expfolder c +:+ clim_filename c fc (fmt_period begindate (begindate + period)).

(** The body of the loop over the periods. *)
Definition clim_period (c : cargs) (fc : fileclass) (src : source) (sourceage : option Z)
    (filebegin fileend begindate : Z) (period : Z) : M unit :=
  let lg := c_logger c in
  let enddate := begindate + period in
  if enddate <? filebegin then raise DateError else
  if fileend <? enddate then logger_info lg (MsgInvalidPeriod enddate)
  else
    let periodstr := fmt_period begindate enddate in
    let expfolder := clim_expfolder c in
    logger_info lg (MsgComputing periodstr (g_grid env));;
    let filename := clim_filename c fc periodstr in
    ex ← os_path_exists expfolder;
    if negb ex then raise AssertionError else
    let filepath := expfolder +:+ filename in
    lskip ← clim_decide_skip (c_loverwrite c) sourceage filepath;
    if (lskip : bool) then logger_info lg (MsgSkip filename)
    else clim_compute c src period periodstr filename filepath.

Fixpoint clim_periods (c : cargs) (fc : fileclass) (src : source) (sourceage : option Z)
    (filebegin fileend begindate : Z) (periods : list Z) : M unit :=
  match periods with
  | [] => ret tt
  | period :: rest =>
      clim_period c fc src sourceage filebegin fileend begindate period;;
      clim_periods c fc src sourceage filebegin fileend begindate rest
  end.

(** Everything up to the start date. *)
Definition clim_resolve (c : cargs) : M (fileclass * source * option Z * Z * Z) :=
  check_periods (c_periods c);;
  fc ← key (WRF_fileclasses env (c_filetype c));
  logger_info (c_logger c) MsgBanner;;
  src ← load "loadWRF_TS" (loadWRF_TS env (c_experiment c) (c_domain c) (c_filetype c) None);
  (if negb (c_lparallel c) then logger_info (c_logger c) MsgSource else ret tt);;
  sourceage ← source_age o (c_loverwrite c) src;
  filebegin ← year_of src "begin_date";
  fileend ← year_of src "end_date";
  ret (fc, src, sourceage, filebegin, fileend).

(** From the start date to the end of the function. *)
Definition clim_dates (c : cargs) (fc : fileclass) (src : source) (sourceage : option Z)
    (filebegin fileend : Z) : M retval :=
  let begindate := c_offset c + filebegin in
  if negb ((filebegin <=? begindate) && (begindate <=? fileend)) then raise DateError else
  let periods := default_periods (c_periods c) begindate fileend in
  clim_periods c fc src sourceage filebegin fileend begindate periods;;
  ret RNone.

Definition computeClimatology (c : cargs) : M retval :=
  '(fc, src, sourceage, filebegin, fileend) ← clim_resolve c;
  clim_dates c fc src sourceage filebegin fileend.

End Wrfavg.

(** ** Observations on runs *)

Definition events {A} (r : run A) : list event := map fst (steps r).

(** The filesystems an interruption of the run can leave behind. *)
Definition snapshots {A} (r : run A) : list fs := map snd (steps r).

(** Effects that neither change a file nor work on a sink: logging,
    imports, loading the source, and looking at files. *)
Definition passive (e : event) : bool :=
  match e with
  | EvGetLogger _ | EvAddHandler | EvLog _ | EvImport _ | EvLoad _
  | EvExists _ | EvGetmtime _ | EvGetsize _ | EvUnload => true
  | _ => false
  end.

(** Effects that only set up the logger or talk to it. *)
Definition logging_only (e : event) : bool :=
  match e with
  | EvGetLogger _ | EvAddHandler | EvLog _ => true
  | _ => false
  end.

Definition is_rename (e : event) : bool :=
  match e with
  | EvRename _ _ => true
  | _ => false
  end.

Definition is_sink_close (e : event) : bool :=
  match e with
  | EvSinkClose _ => true
  | _ => false
  end.

(** The creation of a sink at the path [p]. *)
Definition creates_at (p : string) (e : event) : bool :=
  match e with
  | EvCreate q _ => String.eqb q p
  | _ => false
  end.

(** The path holds a file that is not complete. *)
Definition partial_at (p : string) (s : fs) : bool :=
  match s !! p with
  | Some (Node _ _ Partial) => true
  | _ => false
  end.

Definition is_skip_message (e : event) : bool :=
  match e with
  | EvLog (MsgSkip _) => true
  | _ => false
  end.

Definition is_load (e : event) : bool :=
  match e with
  | EvLoad _ => true
  | _ => false
  end.

Definition is_cpu (e : event) : bool :=
  match e with
  | EvCPU _ => true
  | _ => false
  end.

(** A run that is a skip: the message is logged, and there are passive
    effects only, all on the filesystem [s] the run started from. *)
Definition skipped {A} (r : run A) (s : fs) (fname : string) : Prop :=
  In (EvLog (MsgSkip fname)) (events r) /\
  Forall (fun st => passive st.1 = true /\ st.2 = s) (steps r).

(** A program that changes no file and has passive effects only. *)
Definition quiet {A} (c : M A) : Prop :=
  forall s, final (c s) = s /\ Forall (fun st => passive st.1 = true /\ st.2 = s) (steps (c s)).

(** The modification times of the files of a list, if they all exist. *)
Definition mtimes (s : fs) (files : list string) : option (list Z) :=
  mapM (fun p => n_mtime <$> s !! p) files.

(** The most recent of a list of times, as the specification words it. *)
Definition spec_most_recent (ts : list Z) : option Z :=
  match ts with
  | [] => None
  | t :: ts' => Some (foldr Z.max t ts')
  end.

(** The test of the shape-average worker for an output file that is up to date. *)
Definition up_to_date (overwrite : bool) (sourceage : Z) (f : node) : bool :=
  negb overwrite && (sourceage <? n_mtime f) && (1000000 <? n_size f).

(** The test of the climatology worker. *)
Definition clim_up_to_date (overwrite : bool) (sourceage : Z) (f : node) : bool :=
  negb overwrite && (sourceage <? n_mtime f).

(** The file a sink leaves at [p] once it is synced and closed. *)
Definition published (o : oracle) (p : string) : node :=
  Node (closed o p).1 (closed o p).2 Complete.

(** *** The publication protocol

    The phases of a sink, and the effects that move it from one to the
    next.  A sink is created at the temporary path [tp] only, the engine
    works on it while it is open, and the final path [fp] is the target of
    one rename, which follows the sync and the close. *)
Inductive phase := Idle | Writing | Synced | Closed | Published.

Inductive protocol (tp fp : string) : phase -> event -> phase -> Prop :=
| P_passive g e : passive e = true -> protocol tp fp g e g
| P_remove_old : protocol tp fp Idle (EvRemove fp) Idle
| P_remove_tmp : protocol tp fp Idle (EvRemove tp) Idle
| P_create atts : protocol tp fp Idle (EvCreate tp atts) Writing
| P_cpu op : protocol tp fp Writing (EvCPU op) Writing
| P_sync : protocol tp fp Writing EvSinkSync Synced
| P_unload : protocol tp fp Synced (EvSinkOp "unload") Synced
| P_close : protocol tp fp Synced (EvSinkClose tp) Closed
| P_clear : protocol tp fp Closed (EvRemove fp) Closed
| P_rename : protocol tp fp Closed (EvRename tp fp) Published.

Definition rank (g : phase) : nat :=
  match g with
  | Idle => 0
  | Writing => 1
  | Synced => 2
  | Closed => 3
  | Published => 4
  end.

(** What one effect may do to the final path: nothing, remove the file, or,
    by the rename, put the complete file [new] there. *)
Definition final_path_step (tp fp : string) (new : node) (s : fs) (e : event) (s' : fs)
    : Prop :=
  s' !! fp = s !! fp \/
  (e = EvRemove fp /\ s' !! fp = None) \/
  (e = EvRename tp fp /\ s !! tp = Some new /\ s' !! fp = Some new).

(** ** A weakest-precondition calculus for runs

    [wp R c Q g s]: run from [s] with ghost state [g], every step of [c] is
    allowed by the monitor [R], the final filesystem is the one after the
    last step, and the outcome satisfies [Q]. *)
Section WP.
Context {G : Type}.
Variable R : G -> fs -> event -> fs -> G -> Prop.

Fixpoint allowed (g : G) (s : fs) (l : list (event * fs)) (g' : G) : Prop :=
  match l with
  | [] => g' = g
  | (e, s') :: l' => exists g1, R g s e s' g1 /\ allowed g1 s' l' g'
  end.

Fixpoint end_state (s : fs) (l : list (event * fs)) : fs :=
  match l with
  | [] => s
  | (_, s') :: l' => end_state s' l'
  end.

Definition wp {A} (c : M A) (Q : res A -> fs -> G -> Prop) (g : G) (s : fs) : Prop :=
  exists g', allowed g s (steps (c s)) g' /\
             final (c s) = end_state s (steps (c s)) /\
             Q (out (c s)) (final (c s)) g'.
End WP.

(** The monitor of the publication protocol. *)
Definition publication (tp fp : string) (new : node)
    (g : phase) (s : fs) (e : event) (s' : fs) (g' : phase) : Prop :=
  protocol tp fp g e g' /\ final_path_step tp fp new s e s'.

(** A list of steps that follows the protocol from phase [g] and
    filesystem [s], and ends in phase [g']. *)
Definition follows (tp fp : string) (new : node) :
    phase -> fs -> list (event * fs) -> phase -> Prop :=
  allowed (publication tp fp new).

(** *** A sink that is written in place

    The stages of a sink that is opened at the final path [fp] itself:
    before it is created, while it is open, and once it is closed.
    Nothing is renamed, a sink is created and closed at [fp] only, and
    while the sink is open no effect takes the partial file at [fp]
    away. *)
Inductive stage := Before | Open | Shut.

Definition in_place (fp : string) (g : stage) (s : fs) (e : event) (s' : fs) (g' : stage)
    : Prop :=
  is_rename e = false /\
  match e with
  | EvCreate x _ => x = fp /\ g = Before /\ g' = Open /\ partial_at fp s' = true
  | EvSinkClose x => x = fp /\ g = Open /\ g' = Shut
  | _ => g' = g /\ (g = Open -> partial_at fp s = true -> partial_at fp s' = true)
  end.

(** The monitor that allows everything. *)
Definition anything (g : unit) (s : fs) (e : event) (s' : fs) (g' : unit) : Prop :=
  g' = g.

(** The monitor of programs that only look: passive effects that leave the
    filesystem as it is. *)
Definition silent (g : unit) (s : fs) (e : event) (s' : fs) (g' : unit) : Prop :=
  passive e = true /\ s' = s.

(** A monitor that lets passive effects pass. *)
Definition lenient {G} (R : G -> fs -> event -> fs -> G -> Prop) : Prop :=
  forall g s e, passive e = true -> R g s e s g.

(** ** A small world for the examples *)

Definition demo_source : source :=
  Source (<["begin_date" := "1979-01-01"]> (<["end_date" := "1989-01-01"]> ∅))
         ["/data/wrf/a.nc"; "/data/wrf/b.nc"] ["T2"].

Definition demo_fileclass (filetype : string) : fileclass :=
  FileClass (fun d => "wrf" +:+ filetype +:+ "_monthly.nc")
            (fun d g p => "wrf" +:+ filetype +:+ g +:+ "_clim" +:+ p +:+ ".nc").

Definition demo_env : Env := {|
  loadWRF := fun _ _ _ _ _ _ => Ok demo_source;
  loadWRF_TS := fun _ _ _ _ _ => Ok demo_source;
  WRF_avgfolder := "/avg/";
  WRF_clim_file_pattern := fun ft d stn p => "wrf" +:+ ft +:+ stn +:+ "_clim" +:+ p +:+ ".nc";
  WRF_ts_file_pattern := fun ft d stn => "wrf" +:+ ft +:+ stn +:+ "_monthly.nc";
  WRF_fileclasses := fun ft => Some (demo_fileclass ft);
  data_root := "/data/";
  getFileName := fun _ _ _ _ => Ok "obs.nc";
  obs_modules := fun _ => None;
  DatasetNetCDF_r := fun _ _ _ _ => Raise IOError;
  addGDALtoDataset := fun s => Ok s;
  g_ldebug := false;
  g_grid := "WRF"
|}.

(** The clock reads 100 at the start; a file is created at 101 and closed
    at 105 with two million bytes; the engine does not fail. *)
Definition demo_oracle : oracle :=
  Oracle 100 (fun _ => (101, 0)) (fun _ => (105, 2000000)) (fun _ => None).

(** Two source files, modified at 10 and at 20, and the output folders. *)
Definition demo_fs : fs :=
  <["/data/wrf/a.nc" := Node 10 5000000 Complete]>
    (<["/data/wrf/b.nc" := Node 20 5000000 Complete]>
       (<["/avg//exp1/" := Node 1 0 Directory]>
          (<["/avg/exp1/" := Node 1 0 Directory]> ∅))).

Definition demo_dataargs : dataargs :=
  DataArgs (Some (Exp "exp1" "1979-01-01")) (Some (DomInt 1)) (Some PerNone)
           (Some ["srfc"]) None None.

(** A WRF time-series job, not parallel, writing to disk. *)
Definition demo_args : args :=
  Args "WRF" "time-series" "shpavg" demo_dataargs false None true false false false ""
       LHandle.

(** The final path of the output of [demo_args]. *)
Definition demo_final_path : string := "/avg//exp1/wrfsrfc_shpavg_monthly.nc".

Definition set_lreturn (b : bool) (a : args) : args :=
  Args (dataset a) (mode a) (shape_name a) (a_dataargs a) (loverwrite a) (varlist a)
       (lwrite a) b (ldebug a) (lparallel a) (pidstr a) (logger a).

Definition set_parallel (b : bool) (a : args) : args :=
  Args (dataset a) (mode a) (shape_name a) (a_dataargs a) (loverwrite a) (varlist a)
       (lwrite a) (lreturn a) (ldebug a) b (pidstr a) (logger a).

Definition set_dataset (d : string) (a : args) : args :=
  Args d (mode a) (shape_name a) (a_dataargs a) (loverwrite a) (varlist a)
       (lwrite a) (lreturn a) (ldebug a) (lparallel a) (pidstr a) (logger a).

Definition set_period (p : period_arg) (a : args) : args :=
  let da := a_dataargs a in
  Args (dataset a) (mode a) (shape_name a)
       (DataArgs (da_experiment da) (da_domain da) (Some p) (da_filetypes da)
                 (da_resolution da) (da_load3D da))
       (loverwrite a) (varlist a) (lwrite a) (lreturn a) (ldebug a) (lparallel a)
       (pidstr a) (logger a).

(** A climatology job for ten years from the start of the source. *)
Definition demo_cargs : cargs :=
  CArgs "exp1" "srfc" 1 (Some [10]) 0 None false false "" LHandle.

Definition set_periods (ps : option (list Z)) (off : Z) (c : cargs) : cargs :=
  CArgs (c_experiment c) (c_filetype c) (c_domain c) ps off (c_griddef c)
        (c_loverwrite c) (c_lparallel c) (c_pidstr c) (c_logger c).

(** What [demo_args] resolves to, and the filesystem after its first run. *)
Definition demo_loaded : loaded :=
  Loaded demo_source "exp1" None "" (Some "srfc") (Some 1) None None.

Definition demo_target : target :=
  Target "" (Some "wrfsrfc_shpavg_monthly.nc") "/avg//exp1/".

Definition demo_fs_published : fs :=
  <[demo_final_path := Node 105 2000000 Complete]> demo_fs.

(** The final path of the climatology of [demo_cargs], and a filesystem in
    which a stub of 500 bytes, newer than the source, is found there. *)
Definition demo_clim_path : string := "/avg/exp1/wrfsrfc_clim_1979-1989.nc".

Definition demo_fs_stub : fs :=
  <[demo_clim_path := Node 50 500 Partial]> demo_fs.

(** What the climatology worker does before it looks at the dates, on
    [demo_fs]. *)
Definition demo_clim_prelude : list (event * fs) :=
  [(EvLog MsgBanner, demo_fs); (EvLoad "loadWRF_TS", demo_fs); (EvLog MsgSource, demo_fs);
   (EvGetmtime "/data/wrf/a.nc", demo_fs); (EvGetmtime "/data/wrf/b.nc", demo_fs)].

(** A source that says which period it covers, and a world in which the
    WRF loaders hand it out. *)
Definition demo_period_source : source :=
  Source (<["period" := "1979-1984"]> (src_atts demo_source))
         (src_filelist demo_source) (src_vars demo_source).

Definition demo_period_env : Env := {|
  loadWRF := fun _ _ _ _ _ _ => Ok demo_period_source;
  loadWRF_TS := fun _ _ _ _ _ => Ok demo_period_source;
  WRF_avgfolder := WRF_avgfolder demo_env;
  WRF_clim_file_pattern := WRF_clim_file_pattern demo_env;
  WRF_ts_file_pattern := WRF_ts_file_pattern demo_env;
  WRF_fileclasses := WRF_fileclasses demo_env;
  data_root := data_root demo_env;
  getFileName := getFileName demo_env;
  obs_modules := obs_modules demo_env;
  DatasetNetCDF_r := DatasetNetCDF_r demo_env;
  addGDALtoDataset := addGDALtoDataset demo_env;
  g_ldebug := g_ldebug demo_env;
  g_grid := g_grid demo_env
|}.

Definition set_mode (m : string) (a : args) : args :=
  Args (dataset a) m (shape_name a) (a_dataargs a) (loverwrite a) (varlist a)
       (lwrite a) (lreturn a) (ldebug a) (lparallel a) (pidstr a) (logger a).

(** A climatology job for the ten years from the start of the experiment. *)
Definition demo_clim_args : args :=
  set_mode "climatology" (set_period (PerInt 10) demo_args).

(** An engine whose output stays below the size of a complete file, and
    the clock and engine of a later run. *)
Definition demo_small_oracle : oracle :=
  Oracle 100 (fun _ => (101, 0)) (fun _ => (105, 500000)) (fun _ => None).

Definition demo_later_oracle : oracle :=
  Oracle 200 (fun _ => (201, 0)) (fun _ => (205, 500000)) (fun _ => None).

(** The filesystem after the first run of [demo_args] with the small
    output. *)
Definition demo_fs_small : fs :=
  <[demo_final_path := Node 105 500000 Complete]> demo_fs.

(** ** More monitors, and more of the small world *)

(** The monitor of programs that leave the path [p] as it is. *)
Definition untouched (p : string) (g : unit) (s : fs) (e : event) (s' : fs) (g' : unit)
    : Prop :=
  s' !! p = s !! p /\ g' = g.

(** The monitor of programs that never have an effect of the kind [P]. *)
Definition avoiding (P : event -> bool) (g : unit) (s : fs) (e : event) (s' : fs)
    (g' : unit) : Prop :=
  P e = false /\ g' = g.

(** The monitor that remembers whether an effect of the kind [P] has
    happened. *)
Definition noting (P : event -> bool) (g : bool) (s : fs) (e : event) (s' : fs)
    (g' : bool) : Prop :=
  g' = g || P e.

Definition set_lwrite (b : bool) (a : args) : args :=
  Args (dataset a) (mode a) (shape_name a) (a_dataargs a) (loverwrite a) (varlist a)
       b (lreturn a) (ldebug a) (lparallel a) (pidstr a) (logger a).

Definition set_pidstr (p : string) (a : args) : args :=
  Args (dataset a) (mode a) (shape_name a) (a_dataargs a) (loverwrite a) (varlist a)
       (lwrite a) (lreturn a) (ldebug a) (lparallel a) p (logger a).

Definition set_logger (l : logger_arg) (c : cargs) : cargs :=
  CArgs (c_experiment c) (c_filetype c) (c_domain c) (c_periods c) (c_offset c)
        (c_griddef c) (c_loverwrite c) (c_lparallel c) (c_pidstr c) l.

Definition set_griddef (g : option griddef) (c : cargs) : cargs :=
  CArgs (c_experiment c) (c_filetype c) (c_domain c) (c_periods c) (c_offset c)
        g (c_loverwrite c) (c_lparallel c) (c_pidstr c) (c_logger c).

(** A CESM job, with the keywords the batch driver gives it. *)
Definition demo_CESM_args : args :=
  Args "CESM" "climatology" "shpavg"
       (DataArgs (Some (Exp "tb20trcn1x1" "1979-01-01")) None (Some (PerInt 10))
                 (Some ["atm"]) None (Some true))
       false None true false false false "" LHandle.

(** An engine that fails while it averages. *)
Definition demo_failing_oracle : oracle :=
  Oracle 100 (fun _ => (101, 0)) (fun _ => (105, 2000000))
         (fun op => match op with Climatology _ _ => Some ExternalError | _ => None end).

(** The module of an observational dataset, and a world that has it. *)
Definition demo_obs_module : obs_module :=
  ObsModule "GPCC" "/obs/gpcc/" (fun _ _ _ _ _ => Ok demo_source)
            (fun _ _ _ _ => Ok demo_source).

Definition demo_obs_env : Env := {|
  loadWRF := loadWRF demo_env;
  loadWRF_TS := loadWRF_TS demo_env;
  WRF_avgfolder := WRF_avgfolder demo_env;
  WRF_clim_file_pattern := WRF_clim_file_pattern demo_env;
  WRF_ts_file_pattern := WRF_ts_file_pattern demo_env;
  WRF_fileclasses := WRF_fileclasses demo_env;
  data_root := data_root demo_env;
  getFileName := getFileName demo_env;
  obs_modules := fun n => if String.eqb n "GPCC" then Some demo_obs_module else None;
  DatasetNetCDF_r := DatasetNetCDF_r demo_env;
  addGDALtoDataset := addGDALtoDataset demo_env;
  g_ldebug := g_ldebug demo_env;
  g_grid := g_grid demo_env
|}.

Definition demo_obs_fs : fs := <["/obs/gpcc/" := Node 1 0 Directory]> demo_fs.

(** The long-term mean of an observational dataset. *)
Definition demo_obs_args : args :=
  Args "GPCC" "climatology" "shpavg"
       (DataArgs None None (Some PerNone) None (Some "025") None)
       false None true false false false "" LHandle.

(** ** [datasets/CESM.py]: the registry and the access functions *)

Module CESM_py.

(** [exps[item.name] = item], then [exps[item.shortname] = item]. *)
Definition add_experiment (exps : gmap string CESM.entry) (item : CESM.entry)
    : gmap string CESM.entry :=
  <[CESM.shortname item := item]> (<[CESM.name item := item]> exps).

(** The loop over [experiments.iteritems()]; [items] is the order in which
    the dictionary hands out its entries, which Python leaves open. *)
Definition build_exps (items : list CESM.entry) : gmap string CESM.entry :=
  foldl add_experiment ∅ items.

(** [exps], alias [CESM_exps]. *)
Definition exps : gmap string CESM.entry := build_exps CESM.experiments.

(** The keys under which the entries of a list are filed. *)
Definition keys (items : list CESM.entry) : list string :=
  flat_map (fun e => [CESM.name e; CESM.shortname e]) items.

(** [file_pattern.format(filetype, grid, period)], of the dataset API. *)
Definition file_pattern (filetype gridstr periodstr : string) : string :=
  "cesm" +:+ filetype +:+ gridstr +:+ "_clim" +:+ periodstr +:+ ".nc".

(** The [experiment] keyword of [getFolderName]: [None], the name of an
    experiment, or an [Exp] that keeps the default [avgfolder]. *)
Inductive experiment_arg :=
| ExpNone
| ExpName (n : string)
| ExpObj (e : CESM.entry).

(** The [folder] keyword: [None], a string, or anything else. *)
Inductive folder_arg :=
| FolderNone
| FolderStr (f : string)
| FolderOther.

Section WithEnv.
Variable env : Env.

(** [getFolderName(name, experiment, folder)], for a [name] that is [None]
    or a string. *)
Definition getFolderName (name : option string) (experiment : experiment_arg)
    (folder : folder_arg) : M (string * CESM.entry * string) :=
  '(folder, experiment, name) ←
    match experiment with
    | ExpNone =>
        match folder with
        | FolderStr f =>
            match name ≫= (fun n => (fun e => (n, e)) <$> exps !! n) with
            | Some (n, e) => ret (f, e, n)
            | None => raise DatasetError
            end
        | _ => raise IOError
        end
    | _ =>
        e ← match experiment with
            | ExpName n => key (exps !! n)
            | ExpObj e => ret e
            | ExpNone => raise TypeError
            end;
        folder ← match folder with
                 | FolderNone => ret (CESM.exp_avgfolder env e)
                 | FolderStr f => ret f
                 | FolderOther => raise TypeError
                 end;
        ret (folder, e, match name with None => CESM.name e | Some n => n end)
    end;
  ex ← os_path_exists folder;
  if negb ex then raise IOError else ret (folder, experiment, name).

End WithEnv.

End CESM_py.

(** The file types of [fileclasses], and the ones that have a file. *)
Definition known_filetype (ft : string) : Prop := In ft ["atm"; "lnd"; "ice"; "axes"].

Definition not_axes (ft : string) : bool := negb (String.eqb ft "axes").

(** A world with the folder of the CESM control run. *)
Definition demo_CESM_fs : fs :=
  <["/data/CESM/cesmavg//tb20trcn1x1/" := Node 1 0 Directory]> demo_fs.

(** * Proofs *)

(** ** Rules of the calculus *)

Section WPRules.
Context {G : Type}.
Variable R : G -> fs -> event -> fs -> G -> Prop.

Lemma end_state_app s l1 l2 :
  end_state s (l1 ++ l2) = end_state (end_state s l1) l2.
Proof. revert s. induction l1 as [|[e s1] l1 IH]; intros s; simpl; auto. Qed.

Lemma allowed_app g s l1 l2 g1 g2 :
  allowed R g s l1 g1 -> allowed R g1 (end_state s l1) l2 g2 ->
  allowed R g s (l1 ++ l2) g2.
Proof.
  revert g s. induction l1 as [|[e s1] l1 IH]; intros g s; simpl.
  - intros -> H. exact H.
  - intros (g' & HR & H1) H2. exists g'. split; [exact HR|]. eauto.
Qed.

Lemma wp_bind {A B} (c : M A) (k : A -> M B) Q g s :
  wp R c (fun r s' g' =>
            match r with
            | Ok a => wp R (k a) Q g' s'
            | Raise e => Q (Raise e) s' g'
            end) g s ->
  wp R (c ≫= k) Q g s.
Proof.
  unfold wp, mbind, M_bind, bind. intros (g1 & Hal & Hfin & H).
  destruct (out (c s)) as [a|e] eqn:Hout; simpl.
  - destruct H as (g2 & Hal2 & Hfin2 & HQ). exists g2. 
    split; [|split].
    + eapply allowed_app; [exact Hal|]. rewrite <- Hfin. exact Hal2.
    + rewrite end_state_app, <- Hfin. exact Hfin2.
    + exact HQ.
  - exists g1. auto.
Qed.

Lemma wp_ret {A} (a : A) Q g s : Q (Ok a) s g -> wp R (ret a) Q g s.
Proof. intros H. exists g. simpl. auto. Qed.

Lemma wp_mret {A} (a : A) Q g s : Q (Ok a) s g -> wp R (mret a) Q g s.
Proof. apply wp_ret. Qed.

Lemma wp_raise {A} e (Q : res A -> _) g s : Q (Raise e) s g -> wp R (raise e) Q g s.
Proof. intros H. exists g. simpl. auto. Qed.

Lemma wp_lift {A} (r : res A) Q g s : Q r s g -> wp R (lift r) Q g s.
Proof. destruct r; [apply wp_ret | apply wp_raise]. Qed.

Lemma wp_key {A} (v : option A) Q g s :
  match v with Some a => Q (Ok a) s g | None => Q (Raise KeyError) s g end ->
  wp R (key v) Q g s.
Proof. destruct v; [apply wp_ret | apply wp_raise]. Qed.

Lemma wp_local {A} (v : option A) Q g s :
  match v with Some a => Q (Ok a) s g | None => Q (Raise UnboundLocalError) s g end ->
  wp R (local v) Q g s.
Proof. destruct v; [apply wp_ret | apply wp_raise]. Qed.

Lemma wp_index0 {A} (l : list A) Q g s :
  match l with a :: _ => Q (Ok a) s g | [] => Q (Raise IndexError) s g end ->
  wp R (index0 l) Q g s.
Proof. destruct l; [apply wp_raise | apply wp_ret]. Qed.

(** One effect that leaves the state alone. *)
Lemma wp_step {A} (e : event) (r : res A) s' (c : M A) Q g s g' :
  c s = Run r s' [(e, s')] -> R g s e s' g' -> Q r s' g' -> wp R c Q g s.
Proof.
  intros Hc HR HQ. exists g'. rewrite Hc. simpl. split; [|split]; auto. exists g'. auto.
Qed.

Lemma wp_conseq {A} (c : M A) (Q Q' : res A -> fs -> G -> Prop) g s :
  (forall r s' g', Q r s' g' -> Q' r s' g') -> wp R c Q g s -> wp R c Q' g s.
Proof. intros HQ (g' & H1 & H2 & H3). exists g'. auto. Qed.

Lemma wp_emit (e : event) Q g s :
  (exists g', R g s e s g' /\ Q (Ok tt) s g') -> wp R (emit e) Q g s.
Proof. intros (g' & HR & HQ). eapply wp_step; [reflexivity| |]; eauto. Qed.

Lemma wp_load {A} name (f : fs -> res A) Q g s :
  (exists g', R g s (EvLoad name) s g' /\ Q (f s) s g') -> wp R (load name f) Q g s.
Proof. intros (g' & HR & HQ). eapply wp_step; [reflexivity| |]; eauto. Qed.

Lemma wp_exists p Q g s :
  (forall v, s !! p = v ->
     exists g', R g s (EvExists p) s g' /\
                Q (Ok (match v with Some _ => true | None => false end)) s g') ->
  wp R (os_path_exists p) Q g s.
Proof.
  intros H. destruct (H _ eq_refl) as (g' & HR & HQ).
  eapply wp_step; [reflexivity| |]; eauto.
Qed.

Lemma wp_getmtime p Q g s :
  (forall v, s !! p = v ->
     exists g', R g s (EvGetmtime p) s g' /\
                Q (match v with Some n => Ok (n_mtime n) | None => Raise OSError end) s g') ->
  wp R (os_path_getmtime p) Q g s.
Proof.
  intros H. destruct (H _ eq_refl) as (g' & HR & HQ).
  eapply wp_step; [reflexivity| |]; eauto.
Qed.

Lemma wp_getsize p Q g s :
  (forall v, s !! p = v ->
     exists g', R g s (EvGetsize p) s g' /\
                Q (match v with Some n => Ok (n_size n) | None => Raise OSError end) s g') ->
  wp R (os_path_getsize p) Q g s.
Proof.
  intros H. destruct (H _ eq_refl) as (g' & HR & HQ).
  eapply wp_step; [reflexivity| |]; eauto.
Qed.

Lemma wp_remove p Q g s :
  (forall v, s !! p = v ->
     match v with
     | Some (Node _ _ Directory) | None =>
         exists g', R g s (EvRemove p) s g' /\ Q (Raise OSError) s g'
     | Some _ =>
         exists g', R g s (EvRemove p) (delete p s) g' /\ Q (Ok tt) (delete p s) g'
     end) ->
  wp R (os_remove p) Q g s.
Proof.
  intros H. specialize (H _ eq_refl). unfold wp, os_remove.
  destruct (s !! p) as [[m z []]|]; destruct H as (g' & HR & HQ);
    exists g'; simpl; (split; [eauto|split; [reflexivity|exact HQ]]).
Qed.

Lemma wp_rename p q Q g s :
  (forall v w, s !! p = v -> s !! q = w ->
     match v, w with
     | None, _ | Some _, Some (Node _ _ Directory) =>
         exists g', R g s (EvRename p q) s g' /\ Q (Raise OSError) s g'
     | Some n, _ =>
         exists g', R g s (EvRename p q) (<[q := n]> (delete p s)) g' /\
                    Q (Ok tt) (<[q := n]> (delete p s)) g'
     end) ->
  wp R (os_rename p q) Q g s.
Proof.
  intros H. specialize (H _ _ eq_refl eq_refl). unfold wp, os_rename.
  destruct (s !! p) as [n|]; [destruct (s !! q) as [[m z []]|]|];
    destruct H as (g' & HR & HQ);
    exists g'; simpl; (split; [eauto|split; [reflexivity|exact HQ]]).
Qed.

Lemma wp_create o p atts Q g s :
  (forall v, s !! p = v ->
     match v with
     | Some (Node _ _ Directory) =>
         exists g', R g s (EvCreate p atts) s g' /\ Q (Raise IOError) s g'
     | _ =>
         let s' := <[p := Node (opened o p).1 (opened o p).2 Partial]> s in
         exists g', R g s (EvCreate p atts) s' g' /\ Q (Ok tt) s' g'
     end) ->
  wp R (DatasetNetCDF_w o p atts) Q g s.
Proof.
  intros H. specialize (H _ eq_refl). unfold wp, DatasetNetCDF_w.
  destruct (s !! p) as [[m z []]|]; destruct H as (g' & HR & HQ);
    exists g'; simpl; (split; [eauto|split; [reflexivity|exact HQ]]).
Qed.

Lemma wp_close o p Q g s :
  (let s' := <[p := published o p]> s in
   exists g', R g s (EvSinkClose p) s' g' /\ Q (Ok tt) s' g') ->
  wp R (sink_close o p) Q g s.
Proof. intros (g' & HR & HQ). eapply wp_step; [reflexivity| |]; eauto. Qed.
End WPRules.

Lemma lenient_silent : lenient silent.
Proof. intros [] s e H. split; auto. Qed.

Lemma allowed_quiet {G} (R : G -> fs -> event -> fs -> G -> Prop) g s l :
  lenient R -> Forall (fun st => passive st.1 = true /\ st.2 = s) l ->
  allowed R g s l g /\ end_state s l = s.
Proof.
  intros HR H. induction H as [|[e s'] l [Hp Hs] _ [IH1 IH2]]; simpl in *; [done|].
  subst s'. split; [|done]. exists g. split; [apply HR; done|done].
Qed.

Lemma wp_quiet {G} (R : G -> fs -> event -> fs -> G -> Prop) {A} (c : M A) Q g s :
  lenient R -> quiet c -> Q (out (c s)) s g -> wp R c Q g s.
Proof.
  intros HR Hq HQ. destruct (Hq s) as [Hf Hs].
  destruct (allowed_quiet R g s _ HR Hs) as [H1 H2].
  exists g. rewrite Hf, H2. auto.
Qed.

Lemma allowed_silent g s l g' :
  allowed silent g s l g' ->
  Forall (fun st => passive st.1 = true /\ st.2 = s) l /\ end_state s l = s.
Proof.
  revert g. induction l as [|[e s'] l IH]; simpl; intros g; [done|].
  intros (g1 & [Hp ->] & H). destruct (IH _ H) as [H1 H2]. split; [|done].
  constructor; [done|done].
Qed.

Lemma silent_quiet {A} (c : M A) :
  (forall s, wp silent c (fun _ _ _ => True) tt s) -> quiet c.
Proof.
  intros H s. destruct (H s) as (g' & Hal & Hfin & _).
  destruct (allowed_silent _ _ _ _ Hal) as [H1 H2]. rewrite Hfin, H2. done.
Qed.

Lemma wp_run_raise {G} (R : G -> fs -> event -> fs -> G -> Prop) {A} (c : M A) e Q g s :
  c s = Run (Raise e) s [] -> Q (Raise e) s g -> wp R c Q g s.
Proof. intros Hc HQ. exists g. rewrite Hc. simpl. auto. Qed.

Lemma loadCESM_rejected env e p f v s :
  CESM.loadCESM env CESM_keywords e p f v s = Run (Raise TypeError) s [].
Proof. reflexivity. Qed.

Lemma loadCESM_TS_rejected s :
  CESM.loadCESM_TS CESM_TS_keywords s = Run (Raise TypeError) s [].
Proof. reflexivity. Qed.

(** Symbolic execution *)
Ltac lookup_simpl H :=
  repeat first
    [ rewrite lookup_insert_eq in H
    | rewrite lookup_delete_eq in H
    | rewrite lookup_insert_ne in H by (done || congruence)
    | rewrite lookup_delete_ne in H by (done || congruence) ];
  try match type of H with
      | ?t = _ =>
          match goal with
          | E : t = _ |- _ => tryif constr_eq E H then fail else rewrite E in H
          end
      end.

Ltac wp_case v H :=
  lookup_simpl H;
  lazymatch type of H with
  | Some _ = _ => subst v
  | None = _ => subst v
  | _ => let mt := fresh "mt" in let sz := fresh "sz" in destruct v as [[mt sz []]|]
  end.

Ltac wp_post solver :=
  cbv beta iota zeta; try (eexists; split; [solver|]); cbv beta iota zeta.

Ltac wp_head solver :=
  lazymatch goal with
  | |- wp _ (mbind _ _) _ _ _ => apply wp_bind
  | |- wp _ (bind _ _) _ _ _ => apply wp_bind
  | |- wp _ (ret _) _ _ _ => apply wp_ret
  | |- wp _ (mret _) _ _ _ => apply wp_ret
  | |- wp _ (raise _) _ _ _ => apply wp_raise
  | |- wp _ (lift ?r) _ _ _ => apply wp_lift; destruct r eqn:?
  | |- wp _ (key ?v) _ _ _ => apply wp_key; destruct v eqn:?
  | |- wp _ (local ?v) _ _ _ => apply wp_local; destruct v eqn:?
  | |- wp _ (index0 ?l) _ _ _ => apply wp_index0; destruct l eqn:?
  | |- wp _ (emit _) _ _ _ => apply wp_emit; wp_post solver
  | |- wp _ (info _) _ _ _ => apply wp_emit; wp_post solver
  | |- wp _ (load _ ?f) _ _ ?s => apply wp_load; wp_post solver; destruct (f s) eqn:?
  | |- wp _ (os_path_exists _) _ _ _ =>
      apply wp_exists; let v := fresh "v" in let H := fresh "Hv" in
      intros v H; wp_case v H; wp_post solver
  | |- wp _ (os_path_getmtime _) _ _ _ =>
      apply wp_getmtime; let v := fresh "v" in let H := fresh "Hv" in
      intros v H; wp_case v H; wp_post solver
  | |- wp _ (os_path_getsize _) _ _ _ =>
      apply wp_getsize; let v := fresh "v" in let H := fresh "Hv" in
      intros v H; wp_case v H; wp_post solver
  | |- wp _ (CESM.loadCESM _ CESM_keywords _ _ _ _) _ _ _ =>
      apply wp_run_raise with (e := TypeError); [apply loadCESM_rejected|]
  | |- wp _ (CESM.loadCESM_TS CESM_TS_keywords) _ _ _ =>
      apply wp_run_raise with (e := TypeError); [apply loadCESM_TS_rejected|]
  | |- wp _ (if ?b then _ else _) _ _ _ =>
      let E := fresh "E" in destruct b eqn:E; try (simpl in E; congruence)
  | |- wp _ (match ?x with _ => _ end) _ _ _ => destruct x eqn:?
  end; cbv beta iota zeta; try congruence.

Ltac wp_run solver := repeat wp_head solver.

Ltac silent_solver := split; reflexivity.


Lemma quiet_ret {A} (a : A) : quiet (ret a).
Proof. intros s. simpl. auto. Qed.

Lemma quiet_raise {A} e : quiet (@raise A e).
Proof. intros s. simpl. auto. Qed.

Lemma quiet_bind {A B} (c : M A) (k : A -> M B) :
  quiet c -> (forall a, quiet (k a)) -> quiet (c ≫= k).
Proof.
  intros Hc Hk s. unfold mbind, M_bind, bind. destruct (Hc s) as [Hf Hs].
  destruct (out (c s)) as [a|e]; simpl; [|done].
  destruct (Hk a (final (c s))) as [Hf' Hs']. rewrite Hf in *.
  split; [done|]. apply Forall_app. done.
Qed.

Lemma quiet_here {A} (c : M A) :
  (forall s, exists r e, passive e = true /\ c s = Run r s [(e, s)]) -> quiet c.
Proof.
  intros H s. destruct (H s) as (r & e & Hp & ->). simpl. split; [done|].
  constructor; [done|constructor].
Qed.

Lemma quiet_emit e : passive e = true -> quiet (emit e).
Proof. intros H. apply quiet_here. intros s. eauto. Qed.

Lemma quiet_load {A} name (f : fs -> res A) : quiet (load name f).
Proof. apply quiet_here. intros s. exists (f s), (EvLoad name). done. Qed.

Lemma quiet_exists p : quiet (os_path_exists p).
Proof. apply quiet_here. intros s. eexists _, (EvExists p). done. Qed.

Lemma quiet_getmtime p : quiet (os_path_getmtime p).
Proof. apply quiet_here. intros s. eexists _, (EvGetmtime p). done. Qed.

Lemma quiet_getsize p : quiet (os_path_getsize p).
Proof. apply quiet_here. intros s. eexists _, (EvGetsize p). done. Qed.

Lemma quiet_lift {A} (r : res A) : quiet (lift r).
Proof. destruct r; [apply quiet_ret|apply quiet_raise]. Qed.

Lemma quiet_key {A} (v : option A) : quiet (key v).
Proof. destruct v; [apply quiet_ret|apply quiet_raise]. Qed.

Lemma quiet_local {A} (v : option A) : quiet (local v).
Proof. destruct v; [apply quiet_ret|apply quiet_raise]. Qed.

Lemma quiet_index0 {A} (l : list A) : quiet (index0 l).
Proof. destruct l; [apply quiet_raise|apply quiet_ret]. Qed.

Lemma quiet_oldest files : forall acc, quiet (oldest acc files).
Proof.
  induction files as [|f files IH]; intros acc; simpl.
  - apply quiet_ret.
  - apply quiet_bind; [apply quiet_getmtime|]. intros age. apply IH.
Qed.

Lemma quiet_climfiles filetypes : quiet (CESM.climfiles filetypes).
Proof.
  induction filetypes as [|f l IH]; simpl; [apply quiet_ret|].
  apply quiet_bind; [apply quiet_key|]. intros fc.
  apply quiet_bind; [apply IH|]. intros l'. apply quiet_ret.
Qed.

Ltac quiet_step :=
  lazymatch goal with
  | |- quiet (mbind _ _) => apply quiet_bind; [|intros ?]
  | |- quiet (ret _) => apply quiet_ret
  | |- quiet (raise _) => apply quiet_raise
  | |- quiet (lift _) => apply quiet_lift
  | |- quiet (key _) => apply quiet_key
  | |- quiet (local _) => apply quiet_local
  | |- quiet (index0 _) => apply quiet_index0
  | |- quiet (emit _) => apply quiet_emit; reflexivity
  | |- quiet (info _) => apply quiet_emit; reflexivity
  | |- quiet (load _ _) => apply quiet_load
  | |- quiet (os_path_exists _) => apply quiet_exists
  | |- quiet (os_path_getmtime _) => apply quiet_getmtime
  | |- quiet (os_path_getsize _) => apply quiet_getsize
  | |- quiet (oldest _ _) => apply quiet_oldest
  | |- quiet (CESM.climfiles _) => apply quiet_climfiles
  | |- quiet (if ?b then _ else _) => destruct b
  | |- quiet (match ?x with _ => _ end) => destruct x
  | |- quiet (let _ := _ in _) => cbv zeta
  end.

Ltac quiet_auto := repeat quiet_step.

Lemma quiet_loadCESM env kw e p f v : quiet (CESM.loadCESM env kw e p f v).
Proof. unfold CESM.loadCESM, CESM.getFolderName, bind_keywords. quiet_auto. Qed.

Lemma quiet_loadCESM_TS kw : quiet (CESM.loadCESM_TS kw).
Proof. unfold CESM.loadCESM_TS, bind_keywords. quiet_auto. Qed.

Lemma quiet_load_source env a : quiet (load_source env a).
Proof.
  unfold load_source, load_WRF, load_CESM, fetch_WRF, fetch_CESM, check_loaded,
    load_obs, import_module, model_period, obs_period, period_string, check_period.
  quiet_auto; first [apply quiet_loadCESM | apply quiet_loadCESM_TS].
Qed.

Lemma quiet_source_age o ow src : quiet (source_age o ow src).
Proof. unfold source_age. quiet_auto. Qed.

Lemma quiet_prepare_target env a ld : quiet (prepare_target env a ld).
Proof. unfold prepare_target. quiet_auto. Qed.

Lemma quiet_resolve env o a : quiet (resolve env o a).
Proof.
  unfold resolve, check_input, setup_logger, announce.
  quiet_auto;
    first [apply quiet_load_source | apply quiet_source_age | apply quiet_prepare_target].
Qed.

Lemma quiet_clim_resolve env o c : quiet (clim_resolve env o c).
Proof.
  unfold clim_resolve, check_periods, logger_info, year_of.
  quiet_auto; apply quiet_source_age.
Qed.

Lemma wp_seq {G} (R : G -> fs -> event -> fs -> G -> Prop) {A B}
    (c : M A) (k : A -> M B) Q1 Q g s :
  wp R c Q1 g s ->
  (forall r s' g', Q1 r s' g' ->
     match r with
     | Ok a => wp R (k a) Q g' s'
     | Raise e => Q (Raise e) s' g'
     end) ->
  wp R (c ≫= k) Q g s.
Proof. intros H1 H2. apply wp_bind. eapply wp_conseq; [exact H2|exact H1]. Qed.

Lemma string_length_app (s1 s2 : string) :
  String.length (s1 +:+ s2) = (String.length s1 + String.length s2)%nat.
Proof. induction s1; simpl; [done|]. by rewrite IHs1. Qed.

Lemma tmp_prefix_length a : (0 < String.length (tmp_prefix a))%nat.
Proof. unfold tmp_prefix. destruct (lparallel a); simpl; lia. Qed.

Lemma output_paths_distinct a tg fname :
  lreturn a = false ->
  tmpfilepath (output_paths a tg fname) <> filepath (output_paths a tg fname).
Proof.
  intros Hr. unfold output_paths. rewrite Hr. simpl. intros H.
  apply (inj (String.app _)) in H.
  apply (f_equal String.length) in H. rewrite string_length_app in H.
  pose proof (tmp_prefix_length a). lia.
Qed.

Lemma lenient_publication tp fp new : lenient (publication tp fp new).
Proof. intros g s e H. split; [by apply P_passive|by left]. Qed.

Ltac fps_solver :=
  first
    [ left; first [ reflexivity
                  | (repeat first [ rewrite lookup_insert_ne by (done || congruence)
                                  | rewrite lookup_delete_ne by (done || congruence) ]);
                    reflexivity ]
    | right; left; split; [reflexivity | apply lookup_delete_eq]
    | right; right; split; [reflexivity | split;
        [ (repeat first [ rewrite lookup_insert_eq
                        | rewrite lookup_delete_ne by (done || congruence) ]); first [done|eassumption]
        | apply lookup_insert_eq ] ] ].

Ltac protocol_solver :=
  first [ apply P_passive; reflexivity
        | apply P_remove_old | apply P_remove_tmp | apply P_create | apply P_cpu
        | apply P_sync | apply P_unload | apply P_close | apply P_clear
        | apply P_rename ].

Ltac pub_solver := split; [protocol_solver | fps_solver].

Ltac wp_fs solver :=
  lazymatch goal with
  | |- wp _ (os_remove _) _ _ _ =>
      apply wp_remove; let v := fresh "v" in let H := fresh "Hv" in
      intros v H; wp_case v H; wp_post solver
  | |- wp _ (os_rename _ _) _ _ _ =>
      apply wp_rename; let v := fresh "v" in let w := fresh "w" in
      let H := fresh "Hv" in let H' := fresh "Hw" in
      intros v w H H'; wp_case v H; wp_case w H'; wp_post solver
  | |- wp _ (DatasetNetCDF_w _ _ _) _ _ _ =>
      apply wp_create; let v := fresh "v" in let H := fresh "Hv" in
      intros v H; wp_case v H; wp_post solver
  | |- wp _ (sink_close _ _) _ _ _ => apply wp_close; wp_post solver
  | |- wp _ (cpu _ _) _ _ _ => unfold cpu
  end; cbv beta iota zeta; try congruence.

Ltac wp_all solver := repeat first [wp_head solver | wp_fs solver].

Lemma compute_publishes o a ld tg p s :
  tmpfilepath p <> filepath p -> lreturn a = false ->
  wp (publication (tmpfilepath p) (filepath p) (published o (tmpfilepath p)))
     (compute o a ld tg (Some p))
     (fun r s' g' => forall v, r = Ok v ->
        v = RInt 0 /\ s' !! filepath p = Some (published o (tmpfilepath p)) /\ g' = Published)
     Idle s.
Proof.
  intros Hne Hr. unfold compute. rewrite Hr.
  wp_all pub_solver.
  all: intros v0 [= <-].
  all: split; [done|split; [apply lookup_insert_eq|done]].
Qed.

Lemma decide_skip_pub tp fp new ow sa s :
  wp (publication tp fp new) (decide_skip ow sa fp)
     (fun r s' g' => g' = Idle /\ (r = Ok true -> s' = s /\ is_Some (s !! fp)))
     Idle s.
Proof.
  unfold decide_skip.
  wp_all pub_solver.
  all: split; [done|]; try done.
  all: try (intros _; split; [done|]; eexists; eassumption).
  all: intros [= Hb]; simpl in *;
    match goal with E : negb (_ <? _) = true |- _ => rewrite Hb in E; done end.
Qed.

Lemma output_pub o a ld sa tg fname s :
  lwrite a = true -> lreturn a = false -> tg_filename tg = Some fname ->
  let p := output_paths a tg fname in
  wp (publication (tmpfilepath p) (filepath p) (published o (tmpfilepath p)))
     (output o a ld sa tg)
     (fun r s' g' => forall v, r = Ok v ->
        (v = RNone /\ s' = s /\ is_Some (s !! filepath p)) \/
        (v = RInt 0 /\ s' !! filepath p = Some (published o (tmpfilepath p)) /\
         g' = Published))
     Idle s.
Proof.
  intros Hw Hr Hf p. unfold output. rewrite Hw, Hf.
  apply wp_bind, wp_bind, wp_ret. cbv beta iota zeta.
  apply wp_ret. cbv beta iota zeta. fold p.
  eapply wp_seq; [apply decide_skip_pub|].
  intros [[]|e] s' g' [-> Hs]; cbv beta iota zeta.
  - destruct Hs as [-> Hex]; [done|]. wp_all pub_solver. intros v [= <-]. by left.
  - eapply wp_conseq; [|apply compute_publishes; [by apply output_paths_distinct|done]].
    cbv beta. intros r s1 g1 H v Hv. right. by apply H.
  - intros v [=].
Qed.

(** ** The exit status of the batch driver *)

Lemma ceil_div_le a b k : 0 < b -> ceil_div a b <= k <-> a <= k * b.
Proof.
  intros Hb. unfold ceil_div.
  pose proof (Z.div_mod (- a) b ltac:(lia)) as Hdm.
  pose proof (Z.mod_pos_bound (- a) b Hb) as Hm.
  split; intros H; nia.
Qed.

Lemma ceil_div_lt a b k : 0 < b -> k < ceil_div a b <-> k * b < a.
Proof. intros Hb. pose proof (ceil_div_le a b k Hb). lia. Qed.

Lemma ceil_div_mono a b c d :
  0 < b -> 0 < d -> a * d <= c * b -> ceil_div a b <= ceil_div c d.
Proof.
  intros Hb Hd H. apply ceil_div_le; [done|].
  assert (c <= ceil_div c d * d) as Hc by (apply ceil_div_le; [done|lia]).
  nia.
Qed.

(** C7, as amended: for a batch of [n >= 1] jobs of which [ec] fail, the
    exit status is 0 exactly when no job failed; otherwise it is 10 plus the
    ceiling of [10*ec/n], at least 11 and at most 20, weakly monotone in the
    fraction of failures, and it reaches 20 exactly when more than nine
    tenths of the jobs failed. *)
Theorem exit_code_reflects_failures (ec n : Z) :
  1 <= n -> 0 <= ec <= n ->
  (exit_code ec n = 0 <-> ec = 0) /\
  (0 < ec -> exit_code ec n = 10 + ceil_div (10 * ec) n /\ 11 <= exit_code ec n) /\
  exit_code ec n <= 20 /\
  (forall ec' n', 1 <= n' -> 0 <= ec' <= n' -> ec * n' <= ec' * n ->
     exit_code ec n <= exit_code ec' n') /\
  (exit_code ec n = 20 <-> 9 * n < 10 * ec).
Proof.
  intros Hn Hec. unfold exit_code.
  assert (Hc : forall e m, 1 <= m -> 0 < e <= m ->
                 1 <= ceil_div (10 * e) m <= 10).
  { intros e m Hm He. split.
    - apply Z.lt_pred_le. apply ceil_div_lt; lia.
    - apply ceil_div_le; lia. }
  destruct (0 <? ec) eqn:E; [apply Z.ltb_lt in E | apply Z.ltb_ge in E].
  - pose proof (Hc ec n Hn ltac:(lia)) as Hb.
    split; [lia|]. split; [lia|]. split; [lia|]. split.
    + intros ec' n' Hn' Hec' Hfr.
      assert (0 < ec') by nia.
      destruct (0 <? ec') eqn:E'; [|apply Z.ltb_ge in E'; lia].
      apply Z.add_le_mono_l. apply ceil_div_mono; lia.
    + split; intros H.
      * assert (9 < ceil_div (10 * ec) n) as H9 by lia.
        apply ceil_div_lt in H9; lia.
      * assert (9 < ceil_div (10 * ec) n) as H9 by (apply ceil_div_lt; lia).
        lia.
  - assert (ec = 0) as -> by lia.
    split; [done|]. split; [lia|]. split; [lia|]. split; [|lia].
    intros ec' n' Hn' Hec' _. destruct (0 <? ec') eqn:E'; [|lia].
    apply Z.ltb_lt in E'. pose proof (Hc ec' n' Hn' ltac:(lia)). lia.
Qed.

Lemma exit_code_reflects_failures_witness :
  (exit_code 3 20 = 0 <-> 3 = 0) /\
  (0 < 3 -> exit_code 3 20 = 10 + ceil_div (10 * 3) 20 /\ 11 <= exit_code 3 20) /\
  exit_code 3 20 <= 20 /\
  (forall ec' n', 1 <= n' -> 0 <= ec' <= n' -> 3 * n' <= ec' * 20 ->
     exit_code 3 20 <= exit_code ec' n') /\
  (exit_code 3 20 = 20 <-> 9 * 20 < 10 * 3).
Proof. apply (exit_code_reflects_failures 3 20); lia. Defined.

(** C7 as stated fails: with 19 of 20 jobs failed the exit status is
    already the one of a batch in which all jobs failed. *)
Lemma exit_code_maximal_before_all_failed :
  exit_code 19 20 = 20 /\ exit_code 20 20 = 20 /\ 19 <> 20 /\
  ~ (forall ec n, 1 <= n -> 0 <= ec <= n -> (exit_code ec n = 20 <-> ec = n)).
Proof.
  split; [reflexivity|]. split; [reflexivity|]. split; [lia|].
  intros H. specialize (H 19 20 ltac:(lia) ltac:(lia)).
  destruct H as [H _]. specialize (H eq_refl). lia.
Qed.

(** ** Input checking and the dispatch on the dataset *)

(** C9: in parallel mode, a call that does not write to disk, or that asks
    for the dataset back, raises [IOError] in the input check, before any
    effect: no logger is set up, nothing is loaded, no file is looked at. *)
Theorem parallel_mode_delivers_files_only env o a s :
  lparallel a = true -> lwrite a = false \/ lreturn a = true ->
  performExtraction env o a s = Run (Raise IOError) s [].
Proof.
  intros Hp H. unfold performExtraction, resolve, check_input.
  rewrite Hp. destruct H as [-> | ->]; [reflexivity|].
  destruct (lwrite a); reflexivity.
Qed.

Lemma parallel_mode_delivers_files_only_witness :
  performExtraction demo_env demo_oracle (set_lreturn true (set_parallel true demo_args))
    demo_fs = Run (Raise IOError) demo_fs [].
Proof.
  apply (parallel_mode_delivers_files_only demo_env demo_oracle
           (set_lreturn true (set_parallel true demo_args)) demo_fs).
  - reflexivity.
  - right. reflexivity.
Defined.

(** C8, as amended: take a well-formed call whose dataset identifier is
    neither ['WRF'] nor ['CESM'].  If the identifier does not read the same
    in upper case, the worker raises [DatasetError] while the arguments are
    resolved: nothing has happened but the set-up of the logger, and no
    file has been looked at or changed.  If it does read the same in upper
    case (as ['XYZ'], ['123'] and the empty string do), the worker takes it
    for an observational dataset and imports the module [datasets.<id>];
    for an identifier that has no module the import is the last thing that
    happens, and the error is [ImportError]. *)
Theorem unknown_dataset_not_found env o a s :
  dataset a <> "WRF" -> dataset a <> "CESM" ->
  (lparallel a = true -> lwrite a = true /\ lreturn a = false) ->
  logger a <> LOther ->
  let r := performExtraction env o a s in
  (dataset a <> upper (dataset a) ->
   out r = Raise DatasetError /\ final r = s /\
   forallb logging_only (events r) = true /\
   Forall (fun st => st.2 = s) (steps r)) /\
  (dataset a = upper (dataset a) -> obs_modules env (dataset a) = None ->
   out r = Raise ImportError /\ final r = s /\
   (exists pre, events r = (pre ++ [EvImport ("datasets." +:+ dataset a)])%list /\
                forallb logging_only pre = true) /\
   Forall (fun st => st.2 = s) (steps r)).
Proof.
  intros H1 H2 Hp Hl r. subst r.
  apply String.eqb_neq in H1, H2.
  assert (Hc : (if lparallel a
                then if negb (lwrite a) then raise IOError
                     else if lreturn a then raise IOError else ret tt
                else ret tt) = @ret unit tt).
  { destruct (lparallel a); [|done]. destruct Hp as [-> ->]; done. }
  split.
  - intros H3. apply String.eqb_neq in H3.
    unfold performExtraction, resolve, check_input, setup_logger, load_source.
    rewrite H1, H2, H3, Hc.
    destruct (logger a); try done; cbn; repeat split; repeat constructor.
  - intros H3 Hm. apply String.eqb_eq in H3.
    unfold performExtraction, resolve, check_input, setup_logger, load_source,
      load_obs, import_module.
    rewrite H1, H2, H3, Hc, Hm.
    destruct (logger a); try done; cbn.
    + split; [done|]. split; [done|]. split; [|repeat constructor].
      by exists [EvGetLogger None; EvAddHandler].
    + split; [done|]. split; [done|]. split; [|repeat constructor].
      by eexists [EvGetLogger (Some _)].
    + split; [done|]. split; [done|]. split; [|repeat constructor].
      by exists [].
Qed.

Lemma unknown_dataset_not_found_witness :
  let r := performExtraction demo_env demo_oracle (set_dataset "Gpcc" demo_args) demo_fs in
  out r = Raise DatasetError /\ final r = demo_fs /\
  forallb logging_only (events r) = true /\
  Forall (fun st => st.2 = demo_fs) (steps r).
Proof.
  apply (unknown_dataset_not_found demo_env demo_oracle (set_dataset "Gpcc" demo_args)
           demo_fs).
  - simpl. discriminate.
  - simpl. discriminate.
  - simpl. discriminate.
  - simpl. discriminate.
  - simpl. discriminate.
Defined.

(** C8 as stated fails: ['XYZ'] is not ['WRF'], not ['CESM'] and has no
    module, the worker tries to import [datasets.XYZ], and the error is
    [ImportError], not [DatasetError]; the same happens for ['123'] and
    for the empty string. *)
Lemma unknown_upper_case_dataset_is_imported :
  let run id := performExtraction demo_env demo_oracle (set_dataset id demo_args) demo_fs in
  obs_modules demo_env "XYZ" = None /\
  upper "XYZ" = "XYZ" /\
  run "XYZ" = Run (Raise ImportError) demo_fs [(EvImport "datasets.XYZ", demo_fs)] /\
  out (run "XYZ") <> Raise DatasetError /\
  run "123" = Run (Raise ImportError) demo_fs [(EvImport "datasets.123", demo_fs)] /\
  run EmptyString = Run (Raise ImportError) demo_fs [(EvImport "datasets.", demo_fs)].
Proof.
  cbv zeta. split; [reflexivity|]. split; [reflexivity|].
  split; [vm_compute; reflexivity|]. split; [vm_compute; discriminate|].
  split; vm_compute; reflexivity.
Qed.

(** An identifier in upper case is taken for an observational dataset and
    its module is imported; if there is none, the import fails. *)
Lemma upper_case_dataset_is_imported env a s :
  dataset a <> "WRF" -> dataset a <> "CESM" -> dataset a = upper (dataset a) ->
  obs_modules env (dataset a) = None ->
  load_source env a s = Run (Raise ImportError) s [(EvImport ("datasets." +:+ dataset a), s)].
Proof.
  intros H1 H2 H3 Hm. apply String.eqb_neq in H1, H2. apply String.eqb_eq in H3.
  unfold load_source, load_obs, import_module. rewrite H1, H2, H3.
  unfold mbind, M_bind, bind. cbn. rewrite Hm. reflexivity.
Qed.

(** ** Taking runs apart *)

Lemma out_bind_Ok {A B} (c : M A) (k : A -> M B) s b :
  out ((c ≫= k) s) = Ok b ->
  exists a, out (c s) = Ok a /\ out (k a (final (c s))) = Ok b.
Proof.
  unfold mbind, M_bind, bind. destruct (out (c s)) as [a|e]; simpl; [|done].
  intros H. exists a. done.
Qed.

Lemma run_bind_Ok {A B} (c : M A) (k : A -> M B) s a s1 l1 :
  c s = Run (Ok a) s1 l1 ->
  (c ≫= k) s = Run (out (k a s1)) (final (k a s1)) (l1 ++ steps (k a s1)).
Proof. intros H. unfold mbind, M_bind, bind. rewrite H. reflexivity. Qed.

Lemma run_bind_Raise {A B} (c : M A) (k : A -> M B) s e s1 l1 :
  c s = Run (Raise e) s1 l1 -> (c ≫= k) s = Run (Raise e) s1 l1.
Proof. intros H. unfold mbind, M_bind, bind. rewrite H. reflexivity. Qed.

Lemma quiet_final {A} (c : M A) s : quiet c -> final (c s) = s.
Proof. intros H. apply H. Qed.

Lemma quiet_check_input a : quiet (check_input a).
Proof. unfold check_input. quiet_auto. Qed.

Lemma quiet_setup_logger a : quiet (setup_logger a).
Proof. unfold setup_logger. quiet_auto. Qed.

Lemma quiet_announce a : quiet (announce a).
Proof. unfold announce. quiet_auto. Qed.

(** ** The age of the source *)

Lemma older_min sa age : older sa age = Z.min age sa.
Proof. unfold older. destruct (Z.ltb_spec age sa); lia. Qed.

Lemma foldr_min_min t acc ts :
  foldr Z.min (Z.min t acc) ts = Z.min t (foldr Z.min acc ts).
Proof. induction ts as [|x ts IH]; simpl; [done|]. rewrite IH. lia. Qed.

Lemma foldl_older_min ts : forall acc, foldl older acc ts = foldr Z.min acc ts.
Proof.
  induction ts as [|t ts IH]; intros acc; simpl; [done|].
  rewrite IH, older_min. apply foldr_min_min.
Qed.

Lemma foldr_min_le acc ts :
  foldr Z.min acc ts <= acc /\ Forall (fun t => foldr Z.min acc ts <= t) ts.
Proof.
  induction ts as [|t ts [IH1 IH2]]; simpl; [split; [lia|constructor]|].
  split; [lia|]. constructor; [lia|].
  eapply Forall_impl; [exact IH2|]. simpl. intros; lia.
Qed.

(** The loop over the file list, run: it fails at the first file that is
    missing, and otherwise keeps the smaller of the times it has seen. *)
Lemma oldest_out files : forall acc s,
  out (oldest acc files s) =
  match mtimes s files with
  | Some ts => Ok (foldl older acc ts)
  | None => Raise OSError
  end.
Proof.
  induction files as [|f files IH]; intros acc s; [done|].
  unfold mtimes in *. cbn [oldest mapM].
  unfold mbind at 1, M_bind, bind. cbn [os_path_getmtime out final steps].
  destruct (s !! f) as [n|] eqn:E; cbn; [|done].
  rewrite IH.
  destruct (mapM _ files); reflexivity.
Qed.

Lemma source_age_out o src s sa :
  out (source_age o false src s) = Ok sa ->
  exists ts, mtimes s (src_filelist src) = Some ts /\
             sa = Some (foldr Z.min (today o) ts).
Proof.
  unfold source_age. cbn [negb]. intros H.
  apply out_bind_Ok in H as (x & H1 & H2).
  rewrite oldest_out in H1. destruct (mtimes s (src_filelist src)) as [ts|]; [|done].
  exists ts. split; [done|]. injection H1 as <-. cbn in H2. injection H2 as <-.
  by rewrite foldl_older_min.
Qed.

(** C2, as amended: for every job that runs with the overwrite flag unset
    and gets as far as the skip decision, every file of the source's file
    list exists and [sourceage] is the minimum of the current time and the
    modification times of these files: the age of the oldest source file,
    not of the most recent one. *)
Theorem sourceage_is_oldest env o a s ld sa tg :
  out (resolve env o a s) = Ok (ld, sa, tg) -> loverwrite a = false ->
  exists ts, mtimes s (src_filelist (ld_source ld)) = Some ts /\
             sa = Some (foldr Z.min (today o) ts) /\
             foldr Z.min (today o) ts <= today o /\
             Forall (fun t => foldr Z.min (today o) ts <= t) ts.
Proof.
  intros H Ho. unfold resolve in H. rewrite Ho in H.
  apply out_bind_Ok in H as (? & _ & H). rewrite (quiet_final _ _ (quiet_check_input a)) in H.
  apply out_bind_Ok in H as (? & _ & H). rewrite (quiet_final _ _ (quiet_setup_logger a)) in H.
  apply out_bind_Ok in H as (ld' & _ & H).
  rewrite (quiet_final _ _ (quiet_load_source env a)) in H.
  apply out_bind_Ok in H as (? & _ & H). rewrite (quiet_final _ _ (quiet_announce a)) in H.
  apply out_bind_Ok in H as (sa' & Hsa & H).
  apply out_bind_Ok in H as (tg' & _ & H).
  cbn in H. injection H as <- <- <-.
  apply source_age_out in Hsa as (ts & Hts & ->).
  exists ts. pose proof (foldr_min_le (today o) ts) as [? ?]. done.
Qed.

Lemma sourceage_is_oldest_witness :
  exists ld sa tg,
    out (resolve demo_env demo_oracle demo_args demo_fs) = Ok (ld, sa, tg) /\
    exists ts, mtimes demo_fs (src_filelist (ld_source ld)) = Some ts /\
               sa = Some (foldr Z.min (today demo_oracle) ts) /\
               foldr Z.min (today demo_oracle) ts <= today demo_oracle /\
               Forall (fun t => foldr Z.min (today demo_oracle) ts <= t) ts.
Proof.
  destruct (out (resolve demo_env demo_oracle demo_args demo_fs)) as [[[ld sa] tg]|e] eqn:E;
    [|vm_compute in E; discriminate].
  exists ld, sa, tg. split; [reflexivity|].
  apply (sourceage_is_oldest demo_env demo_oracle demo_args demo_fs ld sa tg); [exact E|].
  reflexivity.
Defined.

(** C2 as stated fails: the source files were modified at 10 and at 20, the
    most recent time is 20, and the job takes 10 for [sourceage]. *)
Lemma sourceage_is_not_most_recent :
  exists ld tg,
    out (resolve demo_env demo_oracle demo_args demo_fs) = Ok (ld, Some 10, tg) /\
    loverwrite demo_args = false /\
    mtimes demo_fs (src_filelist (ld_source ld)) = Some [10; 20] /\
    spec_most_recent [10; 20] = Some 20 /\
    Some 10 <> spec_most_recent [10; 20].
Proof.
  eexists _, _. split; [vm_compute; reflexivity|].
  split; [reflexivity|]. split; [vm_compute; reflexivity|].
  split; [reflexivity|]. vm_compute. discriminate.
Qed.

(** The climatology worker takes its [sourceage] in the same way. *)
Lemma climatology_sourceage_is_oldest env o c s fc src sa fb fe :
  out (clim_resolve env o c s) = Ok (fc, src, sa, fb, fe) -> c_loverwrite c = false ->
  exists ts, mtimes s (src_filelist src) = Some ts /\
             sa = Some (foldr Z.min (today o) ts).
Proof.
  intros H Ho. unfold clim_resolve in H. rewrite Ho in H.
  assert (forall m, quiet (logger_info (c_logger c) m)) as Hq.
  { intros m. unfold logger_info. quiet_auto. }
  apply out_bind_Ok in H as (? & _ & H).
  rewrite (quiet_final (check_periods (c_periods c)) s) in H
    by (unfold check_periods; quiet_auto).
  apply out_bind_Ok in H as (fc' & _ & H).
  rewrite (quiet_final _ _ (quiet_key _)) in H.
  apply out_bind_Ok in H as (? & _ & H). rewrite (quiet_final _ _ (Hq _)) in H.
  apply out_bind_Ok in H as (src' & _ & H). rewrite (quiet_final _ _ (quiet_load _ _)) in H.
  apply out_bind_Ok in H as (? & _ & H).
  rewrite (quiet_final (if negb (c_lparallel c) then logger_info (c_logger c) MsgSource
                        else ret tt) s) in H
    by (destruct (c_lparallel c); [apply quiet_ret|apply Hq]).
  apply out_bind_Ok in H as (sa' & Hsa & H).
  apply out_bind_Ok in H as (fb' & _ & H).
  apply out_bind_Ok in H as (fe' & _ & H).
  cbn in H. injection H as <- <- <- <- <-.
  by apply source_age_out in Hsa.
Qed.

(** ** What follows from the publication protocol *)

Lemma protocol_rank (tp fp : string) g e g' : protocol tp fp g e g' -> (rank g <= rank g')%nat.
Proof. destruct 1; simpl; lia. Qed.

Lemma follows_rank (tp fp : string) (new : node) l : forall g s g',
  follows tp fp new g s l g' -> (rank g <= rank g')%nat.
Proof.
  induction l as [|[e s'] l IH]; intros g s g'; simpl.
  - intros ->. lia.
  - intros (g1 & [Hp _] & H). apply protocol_rank in Hp. apply IH in H. lia.
Qed.

Lemma follows_app_inv (tp fp : string) (new : node) l1 : forall l2 g s g',
  follows tp fp new g s (l1 ++ l2) g' ->
  exists g1, follows tp fp new g s l1 g1 /\
             follows tp fp new g1 (end_state s l1) l2 g'.
Proof.
  induction l1 as [|[e s'] l1 IH]; intros l2 g s g'; simpl.
  - intros H. exists g. done.
  - intros (g1 & HR & H). destruct (IH _ _ _ _ H) as (g2 & H1 & H2).
    exists g2. split; [|done]. exists g1. done.
Qed.

(** The sink is created at the temporary path only. *)
Lemma follows_creates (tp fp : string) (new : node) l : forall g s g',
  follows tp fp new g s l g' ->
  forall x atts, In (EvCreate x atts) (map fst l) -> x = tp.
Proof.
  induction l as [|[e s'] l IH]; intros g s g'; simpl; [done|].
  intros (g1 & [Hp _] & H) x atts [->|Hin]; [|by eapply IH].
  inversion Hp; subst; done.
Qed.

(** The final path holds what it held before, nothing, or the new file. *)
Lemma follows_snapshots (tp fp : string) (new : node) (old : option node) l : forall g s g',
  follows tp fp new g s l g' ->
  s !! fp = old \/ s !! fp = None \/ s !! fp = Some new ->
  Forall (fun s' : fs => s' !! fp = old \/ s' !! fp = None \/ s' !! fp = Some new)
         (map snd l).
Proof.
  induction l as [|[e s'] l IH]; intros g s g'; simpl; [constructor|].
  intros (g1 & [_ Hf] & H) Hs.
  assert (s' !! fp = old \/ s' !! fp = None \/ s' !! fp = Some new) as Hs'.
  { destruct Hf as [-> | [[_ ->] | (_ & _ & ->)]]; auto. }
  constructor; [done|]. by eapply IH.
Qed.

Lemma follows_published (tp fp : string) (new : node) l : forall s g',
  follows tp fp new Published s l g' ->
  forall x y, ~ In (EvRename x y) (map fst l).
Proof.
  induction l as [|[e s'] l IH]; intros s g'; simpl; [tauto|].
  intros (g1 & [Hp _] & H) x y [->|Hin].
  - inversion Hp; subst; done.
  - inversion Hp; subst. by eapply IH.
Qed.

Lemma follows_before_rename (tp fp : string) (new : node) l : forall g s g',
  follows tp fp new g s l g' -> (rank g' <= 3)%nat ->
  forall x y, ~ In (EvRename x y) (map fst l).
Proof.
  induction l as [|[e s'] l IH]; intros g s g'; simpl; [tauto|].
  intros (g1 & [Hp _] & H) Hr x y [->|Hin]; [|by eapply IH].
  inversion Hp; subst; [done|]. apply follows_rank in H. simpl in H. lia.
Qed.

Lemma follows_synced (tp fp : string) (new : node) l : forall g s g',
  follows tp fp new g s l g' -> (rank g < 2 <= rank g')%nat ->
  In EvSinkSync (map fst l).
Proof.
  induction l as [|[e s'] l IH]; intros g s g'; simpl.
  - intros ->. lia.
  - intros (g1 & [Hp _] & H) Hr.
    destruct (decide (rank g1 < 2)%nat) as [Hlt|Hge]; [right; eapply IH; [done|lia]|].
    left. inversion Hp; subst; simpl in *; try lia; done.
Qed.

Lemma follows_closed (tp fp : string) (new : node) l : forall g s g',
  follows tp fp new g s l g' -> (rank g < 3 <= rank g')%nat ->
  In (EvSinkClose tp) (map fst l).
Proof.
  induction l as [|[e s'] l IH]; intros g s g'; simpl.
  - intros ->. lia.
  - intros (g1 & [Hp _] & H) Hr.
    destruct (decide (rank g1 < 3)%nat) as [Hlt|Hge]; [right; eapply IH; [done|lia]|].
    left. inversion Hp; subst; simpl in *; try lia; done.
Qed.

(** There is one rename at most; it moves the temporary file to the final
    path, and the sync and the close of the sink come before it. *)
Lemma follows_rename (tp fp : string) (new : node) l s g' l1 x y l2 :
  follows tp fp new Idle s l g' -> map fst l = (l1 ++ EvRename x y :: l2)%list ->
  x = tp /\ y = fp /\ In EvSinkSync l1 /\ In (EvSinkClose tp) l1 /\
  forall x' y', ~ In (EvRename x' y') (l1 ++ l2)%list.
Proof.
  intros H Hl. apply fmap_app_inv in Hl as (k1 & k2' & -> & Hk & ->).
  symmetry in Hk. apply fmap_cons_inv in Hk as ([e s'] & k2 & He & -> & ->).
  simpl in He. subst e.
  apply follows_app_inv in H as (g1 & H1 & H2). simpl in H2.
  destruct H2 as (g2 & [Hp _] & H2).
  inversion Hp; subst; [done|].
  split; [done|]. split; [done|].
  split; [eapply follows_synced; [exact H1|simpl; lia]|].
  split; [eapply follows_closed; [exact H1|simpl; lia]|].
  intros x' y' Hin. apply in_app_or in Hin as [Hin|Hin].
  - eapply follows_before_rename; [exact H1|simpl; lia|exact Hin].
  - eapply follows_published; [exact H2|exact Hin].
Qed.

Ltac any_solver := reflexivity.

Lemma lenient_anything : lenient anything.
Proof. intros g s e H. reflexivity. Qed.

(** ** Jobs that do not write to disk *)

(** The folder of the output is only known to a job that writes to disk:
    a job that gets past the test of the folder has [lwrite] set and knows
    the name of its output file. *)
Lemma prepared_target_writes env a ld s tg :
  out (prepare_target env a ld s) = Ok tg ->
  lwrite a = true /\ is_Some (tg_filename tg).
Proof.
  intros Htg.
  assert (wp anything (prepare_target env a ld)
            (fun r _ _ => forall tg, r = Ok tg ->
               lwrite a = true /\ is_Some (tg_filename tg)) tt s) as H.
  { unfold prepare_target. wp_all any_solver.
    all: (let H := fresh "Hres" in intros ? H; try discriminate H; injection H as <-).
    all: cbn [tg_filename]; split; [done|]; eauto. }
  destruct H as (g' & _ & _ & H). by apply H.
Qed.

Lemma resolved_job_writes env o a s ld sa tg :
  out (resolve env o a s) = Ok (ld, sa, tg) ->
  lwrite a = true /\ is_Some (tg_filename tg).
Proof.
  intros H. unfold resolve in H.
  apply out_bind_Ok in H as (? & _ & H).
  apply out_bind_Ok in H as (? & _ & H).
  apply out_bind_Ok in H as (ld' & _ & H).
  apply out_bind_Ok in H as (? & _ & H).
  apply out_bind_Ok in H as (sa' & _ & H).
  apply out_bind_Ok in H as (tg' & Htg & H).
  cbn in H. injection H as <- <- <-.
  by eapply prepared_target_writes.
Qed.

(** ** Publication of the output of the shape-average worker *)

Lemma performExtraction_pub env o a s ld sa tg fname :
  out (resolve env o a s) = Ok (ld, sa, tg) ->
  lwrite a = true -> lreturn a = false -> tg_filename tg = Some fname ->
  let p := output_paths a tg fname in
  wp (publication (tmpfilepath p) (filepath p) (published o (tmpfilepath p)))
     (performExtraction env o a)
     (fun r s' g' => forall v, r = Ok v ->
        (v = RNone /\ s' = s /\ is_Some (s !! filepath p)) \/
        (v = RInt 0 /\ s' !! filepath p = Some (published o (tmpfilepath p)) /\
         g' = Published))
     Idle s.
Proof.
  intros Hres Hw Hr Hf p. unfold performExtraction.
  apply wp_bind. apply wp_quiet; [apply lenient_publication|apply quiet_resolve|].
  rewrite Hres. cbv beta iota. by apply output_pub.
Qed.

(** *** Sinks that are written in place *)

Lemma lenient_in_place fp : lenient (in_place fp).
Proof. intros g s e H. split; destruct e; try done; simpl; auto. Qed.

(** The three kinds of step of a sink that is written in place. *)
Lemma in_place_step fp g s e s' g' :
  in_place fp g s e s' g' ->
  is_rename e = false /\
  ((creates_at fp e = true /\ (exists atts, e = EvCreate fp atts) /\
    g = Before /\ g' = Open /\ partial_at fp s' = true) \/
   (is_sink_close e = true /\ e = EvSinkClose fp /\ g = Open /\ g' = Shut) \/
   (creates_at fp e = false /\ is_sink_close e = false /\
    (forall x atts, e <> EvCreate x atts) /\ g' = g /\
    (g = Open -> partial_at fp s = true -> partial_at fp s' = true))).
Proof.
  intros [Hr H]. split; [done|].
  destruct e; simpl in *;
    try (right; right; destruct H as [-> H]; repeat split; auto; congruence).
  - left. destruct H as (-> & -> & -> & Hp).
    rewrite String.eqb_refl. repeat split; eauto.
  - right. left. destruct H as (-> & -> & ->). done.
Qed.

Lemma in_place_events fp l : forall g s g',
  allowed (in_place fp) g s l g' ->
  existsb is_rename (map fst l) = false /\
  (forall x atts, In (EvCreate x atts) (map fst l) -> x = fp) /\
  (forall x, In (EvSinkClose x) (map fst l) -> x = fp).
Proof.
  induction l as [|[e s1] l IH]; simpl; intros g s g' H; [tauto|].
  destruct H as (g1 & He & H). destruct (IH _ _ _ H) as (H1 & H2 & H3).
  apply in_place_step in He as [Hr He]. rewrite Hr, H1.
  split; [done|]. split.
  - intros x atts [->|Hin]; [|eauto].
    destruct He as [(_ & [atts' [= -> ->]] & _)|[(_ & [=] & _)|(_ & _ & Hn & _)]]; [done|].
    by destruct (Hn x atts).
  - intros x [->|Hin]; [|eauto].
    destruct He as [(_ & [atts' [=]] & _)|[(_ & [= ->] & _)|(_ & Hc & _)]]; done.
Qed.

(** A sink that is closed stays closed, and is not created again. *)
Lemma in_place_shut fp l : forall s g',
  allowed (in_place fp) Shut s l g' ->
  g' = Shut /\ existsb (creates_at fp) (map fst l) = false.
Proof.
  induction l as [|[e s1] l IH]; simpl; intros s g' H; [done|].
  destruct H as (g1 & He & H).
  apply in_place_step in He as [_ [(_ & _ & [=] & _)|[(_ & _ & [=] & _)|(Hc & _ & _ & -> & _)]]].
  rewrite Hc. by apply IH in H.
Qed.

(** While the sink is open, the final path holds a partial file. *)
Lemma in_place_open fp l : forall s g',
  allowed (in_place fp) Open s l g' -> partial_at fp s = true ->
  (g' = Open -> existsb is_sink_close (map fst l) = false /\
                partial_at fp (end_state s l) = true) /\
  (g' = Shut -> In (EvSinkClose fp) (map fst l)) /\
  g' <> Before /\
  existsb (creates_at fp) (map fst l) = false /\
  (forall pre st post, l = (pre ++ st :: post)%list ->
     existsb is_sink_close (map fst (pre ++ [st])) = false -> partial_at fp st.2 = true).
Proof.
  induction l as [|[e s1] l IH]; simpl; intros s g' H Hp.
  - subst. repeat split; try done. intros [|??] ? ? [=].
  - destruct H as (g1 & He & H).
    apply in_place_step in He
      as [_ [(_ & _ & [=] & _)|[(Hc & -> & _ & ->)|(Hn & Hc & _ & -> & Hk)]]].
    + apply in_place_shut in H as [-> Hno].
      split; [done|]. split; [by left|]. split; [done|]. split; [done|].
      intros pre st post Hl Hclose. destruct pre as [|a pre]; simpl in *.
      * injection Hl as <- _. simpl in Hclose. done.
      * injection Hl as <- _. simpl in Hclose. done.
    + specialize (Hk eq_refl Hp).
      destruct (IH _ _ H Hk) as (H1 & H2 & H3 & H4 & H5).
      rewrite Hn, Hc. simpl.
      split; [done|]. split; [intros Hg; right; by apply H2|]. split; [done|]. split; [done|].
      intros pre st post Hl Hclose. destruct pre as [|a pre]; simpl in *.
      * injection Hl as <- _. done.
      * injection Hl as <- Hl. simpl in Hclose. rewrite Hc in Hclose. simpl in Hclose.
        by eapply H5.
Qed.

(** From before the sink is created. *)
Lemma in_place_before fp l : forall s g',
  allowed (in_place fp) Before s l g' ->
  (g' = Before -> existsb (creates_at fp) (map fst l) = false) /\
  (g' <> Before -> existsb (creates_at fp) (map fst l) = true) /\
  (g' <> Shut -> existsb is_sink_close (map fst l) = false) /\
  (g' = Open -> partial_at fp (end_state s l) = true) /\
  (g' = Shut -> In (EvSinkClose fp) (map fst l)) /\
  (forall pre st post, l = (pre ++ st :: post)%list ->
     existsb (creates_at fp) (map fst (pre ++ [st])) = true ->
     existsb is_sink_close (map fst (pre ++ [st])) = false -> partial_at fp st.2 = true).
Proof.
  induction l as [|[e s1] l IH]; simpl; intros s g' H.
  - subst. repeat split; try done. intros [|??] ? ? [=].
  - destruct H as (g1 & He & H).
    apply in_place_step in He
      as [_ [(Hc & _ & _ & -> & Hp)|[(_ & _ & [=] & _)|(Hn & Hc & _ & -> & _)]]].
    + destruct (in_place_open _ _ _ _ H Hp) as (H1 & H2 & H3 & H4 & H5).
      rewrite Hc. simpl.
      assert (is_sink_close e = false) as Hnc.
      { destruct e; try done. }
      rewrite Hnc. simpl.
      split; [done|]. split; [done|].
      split; [intros Hg; destruct g'; try done; by apply H1|].
      split; [intros Hg; by apply H1|]. split; [intros Hg; right; by apply H2|].
      intros pre st post Hl _ Hclose. destruct pre as [|a pre]; simpl in *.
      * injection Hl as <- _. done.
      * injection Hl as <- Hl. simpl in Hclose. rewrite Hnc in Hclose. by eapply H5.
    + destruct (IH _ _ H) as (H1 & H2 & H3 & H4 & H5 & H6).
      rewrite Hn, Hc. simpl.
      split; [done|]. split; [done|]. split; [done|]. split; [done|].
      split; [intros Hg; right; by apply H5|].
      intros pre st post Hl Hcr Hclose. destruct pre as [|a pre]; simpl in *.
      * injection Hl as <- _. simpl in Hcr. rewrite Hn in Hcr. done.
      * injection Hl as <- Hl. simpl in Hcr, Hclose. rewrite Hn in Hcr. rewrite Hc in Hclose.
        by eapply H6.
Qed.

Ltac in_place_solver :=
  unfold in_place; split; [reflexivity|]; cbn beta iota;
  first
    [ split; [reflexivity|]; split; [reflexivity|]; split; [reflexivity|];
      unfold partial_at; rewrite lookup_insert_eq; reflexivity
    | split; [reflexivity|]; split; reflexivity
    | split; [reflexivity|];
      let Hg := fresh in let Hp := fresh in
      intros Hg Hp; first [discriminate Hg | exact Hp] ].

(** A job that hands the dataset back opens its sink at the final path, and
    leaves it open. *)
Lemma output_in_place o a ld sa tg fname s :
  lwrite a = true -> lreturn a = true -> tg_filename tg = Some fname ->
  let p := output_paths a tg fname in
  wp (in_place (filepath p)) (output o a ld sa tg)
     (fun r s' g' => g' <> Shut /\
        forall v, r = Ok v ->
          (v = RNone /\ s' = s /\ g' = Before) \/
          (exists atts, v = RSink (Some (filepath p)) atts /\ g' = Open))
     Before s.
Proof.
  intros Hw Hr Hf p.
  assert (tmpfilepath p = filepath p) as Heq.
  { subst p. unfold output_paths. by rewrite Hr. }
  unfold output. rewrite Hw, Hf.
  apply wp_bind, wp_bind, wp_ret. cbv beta iota zeta.
  apply wp_ret. cbv beta iota zeta. fold p.
  unfold compute, decide_skip. rewrite Hr, !Heq.
  clearbody p.
  wp_all in_place_solver.
  all: split; [done|].
  all: (let H := fresh "Hres" in intros ? H; try discriminate H; injection H as <-).
  all: try (left; done).
  all: right; eexists; split; reflexivity.
Qed.

(** The climatology worker opens its sink at the final path, and closes it
    there. *)
Lemma clim_period_in_place env o c fc src sa fb fe bd period s :
  let fp := clim_filepath env c fc bd period in
  wp (in_place fp) (clim_period env o c fc src sa fb fe bd period)
     (fun r s' g' => forall v, r = Ok v ->
        (g' = Before /\ s' = s) \/ (g' = Shut /\ s' !! fp = Some (published o fp)))
     Before s.
Proof.
  intros fp. unfold clim_period, clim_decide_skip, clim_compute, logger_info.
  change (clim_expfolder env c +:+ clim_filename env c fc (fmt_period bd (bd + period)))
    with fp.
  clearbody fp.
  wp_all in_place_solver.
  all: try (exfalso; simpl in *; congruence).
  all: (let H := fresh "Hres" in intros ? H; try discriminate H).
  all: try (left; done).
  all: right; split; [done|]; apply lookup_insert_eq.
Qed.

(** C3, as amended.  A shape-average job that gets as far as its output
    (it then writes to disk) and does not hand the dataset back creates
    its sink at a temporary path that differs from the final path, and
    nowhere else; its effects follow the publication protocol, so that the
    final path changes only when an old file is removed and when the
    temporary file is renamed, once, after the sink has been synced and
    closed; whenever the job is interrupted, the final path holds what it
    held before the job, nothing, or the complete new file; and a job that
    returns has skipped or has published the complete file.  A job that
    hands the dataset back has no temporary file: the temporary path is
    the final path, the sink is created there and nowhere else, nothing is
    renamed and the sink is not closed, so that from the creation of the
    sink on, also when the job has returned, the final path holds a
    partial file.  The climatology worker has no temporary file either:
    the sink of a period is created at the final path and nowhere else,
    it is closed there and nothing is renamed, and from the creation of
    the sink until it is closed the final path holds a partial file. *)
Theorem publication_is_atomic env o a s ld sa tg fname c fc src csa fb fe bd period cs :
  let p := output_paths a tg fname in
  let tp := tmpfilepath p in
  let fp := filepath p in
  let new := published o tp in
  let r := performExtraction env o a s in
  let cfp := clim_filepath env c fc bd period in
  let cr := clim_period env o c fc src csa fb fe bd period cs in
  (out (resolve env o a s) = Ok (ld, sa, tg) -> tg_filename tg = Some fname ->
   lreturn a = false ->
   tp <> fp /\
   n_kind new = Complete /\
   (exists g', follows tp fp new Idle s (steps r) g') /\
   (forall x atts, In (EvCreate x atts) (events r) -> x = tp) /\
   (forall l1 x y l2, events r = (l1 ++ EvRename x y :: l2)%list ->
      x = tp /\ y = fp /\ In EvSinkSync l1 /\ In (EvSinkClose tp) l1 /\
      forall x' y', ~ In (EvRename x' y') (l1 ++ l2)%list) /\
   Forall (fun s' : fs => s' !! fp = s !! fp \/ s' !! fp = None \/ s' !! fp = Some new)
          (snapshots r) /\
   (forall v, out r = Ok v ->
      (v = RNone /\ final r = s) \/ (v = RInt 0 /\ final r !! fp = Some new))) /\
  (out (resolve env o a s) = Ok (ld, sa, tg) -> tg_filename tg = Some fname ->
   lreturn a = true ->
   tp = fp /\
   (forall x atts, In (EvCreate x atts) (events r) -> x = fp) /\
   existsb is_rename (events r) = false /\
   existsb is_sink_close (events r) = false /\
   (forall pre st post, steps r = (pre ++ st :: post)%list ->
      existsb (creates_at fp) (map fst (pre ++ [st])) = true ->
      partial_at fp st.2 = true) /\
   (forall v, out r = Ok v ->
      (v = RNone /\ final r = s) \/
      (exists atts, v = RSink (Some fp) atts /\
                    existsb (creates_at fp) (events r) = true /\
                    partial_at fp (final r) = true))) /\
  ((forall x atts, In (EvCreate x atts) (events cr) -> x = cfp) /\
   existsb is_rename (events cr) = false /\
   (forall x, In (EvSinkClose x) (events cr) -> x = cfp) /\
   (forall pre st post, steps cr = (pre ++ st :: post)%list ->
      existsb (creates_at cfp) (map fst (pre ++ [st])) = true ->
      existsb is_sink_close (map fst (pre ++ [st])) = false ->
      partial_at cfp st.2 = true) /\
   (forall v, out cr = Ok v ->
      (existsb (creates_at cfp) (events cr) = false /\ final cr = cs) \/
      (existsb (creates_at cfp) (events cr) = true /\ In (EvSinkClose cfp) (events cr) /\
       final cr !! cfp = Some (published o cfp)))).
Proof.
  intros p tp fp new r cfp cr.
  split; [|split].
  - intros Hres Hf Hr.
    destruct (resolved_job_writes env o a s ld sa tg Hres) as [Hw _].
    destruct (performExtraction_pub env o a s ld sa tg fname Hres Hw Hr Hf)
      as (g' & Hal & Hfin & HQ).
    fold p tp fp new r in Hal, Hfin, HQ.
    split; [by apply output_paths_distinct|]. split; [done|].
    split; [by exists g'|].
    split; [by eapply follows_creates|].
    split; [intros l1 x y l2 Hl; by eapply follows_rename|].
    split; [eapply follows_snapshots; [exact Hal|by left]|].
    intros v Hv. destruct (HQ v Hv) as [(-> & -> & _)|(-> & Hl & _)]; auto.
  - intros Hres Hf Hr.
    destruct (resolved_job_writes env o a s ld sa tg Hres) as [Hw _].
    assert (wp (in_place fp) (performExtraction env o a)
              (fun r s' g' => g' <> Shut /\
                 forall v, r = Ok v ->
                   (v = RNone /\ s' = s /\ g' = Before) \/
                   (exists atts, v = RSink (Some fp) atts /\ g' = Open))
              Before s) as (g' & Hal & Hfin & Hg & HQ).
    { unfold performExtraction.
      apply wp_bind. apply wp_quiet; [apply lenient_in_place|apply quiet_resolve|].
      rewrite Hres. cbv beta iota. by apply output_in_place. }
    fold r in Hal, Hfin, Hg, HQ.
    destruct (in_place_events _ _ _ _ _ Hal) as (Hren & Hcr & _).
    destruct (in_place_before _ _ _ _ Hal) as (H1 & H2 & H3 & H4 & H5 & H6).
    split; [subst tp fp p; unfold output_paths; by rewrite Hr|].
    split; [exact Hcr|]. split; [exact Hren|]. split; [by apply H3|].
    split.
    + intros pre st post Hl Hc. eapply H6; [exact Hl|exact Hc|].
      assert (existsb is_sink_close (map fst (steps r)) = false) as Hno by (by apply H3).
      rewrite Hl in Hno.
      replace (pre ++ st :: post)%list with ((pre ++ [st]) ++ post)%list in Hno
        by (by rewrite <- app_assoc).
      rewrite map_app, existsb_app in Hno. by apply orb_false_elim in Hno as [-> _].
    + intros v Hv. destruct (HQ v Hv) as [(-> & Hs & _)|(atts & -> & ->)].
      * by left.
      * right. exists atts. split; [done|]. split; [by apply H2|].
        rewrite Hfin. by apply H4.
  - destruct (clim_period_in_place env o c fc src csa fb fe bd period cs)
      as (g' & Hal & Hfin & HQ).
    fold cfp cr in Hal, Hfin, HQ.
    destruct (in_place_events _ _ _ _ _ Hal) as (Hren & Hcr & Hcl).
    destruct (in_place_before _ _ _ _ Hal) as (H1 & H2 & H3 & H4 & H5 & H6).
    split; [exact Hcr|]. split; [exact Hren|]. split; [exact Hcl|].
    split; [exact H6|].
    intros v Hv. destruct (HQ v Hv) as [(-> & Hs)|(-> & Hl)].
    + left. split; [by apply H1|done].
    + right. split; [by apply H2|]. split; [by apply H5|done].
Qed.

Lemma publication_is_atomic_witness :
  let a := demo_args in
  let s := demo_fs in
  let o := demo_oracle in
  let tp := "/avg//exp1/tmp_shpavg_wrfsrfc_shpavg_monthly.nc" in
  let fp := demo_final_path in
  let new := Node 105 2000000 Complete in
  let r := performExtraction demo_env o a s in
  tp <> fp /\
  n_kind new = Complete /\
  (exists g', follows tp fp new Idle s (steps r) g') /\
  (forall x atts, In (EvCreate x atts) (events r) -> x = tp) /\
  (forall l1 x y l2, events r = (l1 ++ EvRename x y :: l2)%list ->
     x = tp /\ y = fp /\ In EvSinkSync l1 /\ In (EvSinkClose tp) l1 /\
     forall x' y', ~ In (EvRename x' y') (l1 ++ l2)%list) /\
  Forall (fun s' : fs => s' !! fp = s !! fp \/ s' !! fp = None \/ s' !! fp = Some new)
         (snapshots r) /\
  (forall v, out r = Ok v ->
     (v = RNone /\ final r = s) \/ (v = RInt 0 /\ final r !! fp = Some new)).
Proof.
  destruct (out (resolve demo_env demo_oracle demo_args demo_fs)) as [[[ld sa] tg]|e] eqn:E;
    [|vm_compute in E; discriminate].
  assert (tg_filename tg = Some "wrfsrfc_shpavg_monthly.nc" /\ tg_avgfolder tg = "/avg//exp1/")
    as [Hf Hav].
  { vm_compute in E. injection E as _ _ <-. split; reflexivity. }
  pose proof (publication_is_atomic demo_env demo_oracle demo_args demo_fs ld sa tg
                "wrfsrfc_shpavg_monthly.nc" demo_cargs (demo_fileclass "srfc") demo_source
                (Some 10) 1979 1989 1979 10 demo_fs) as [H _].
  specialize (H E Hf eq_refl).
  unfold output_paths in H. rewrite Hav in H. exact H.
Defined.

(** C3 as stated fails, for a job that hands the dataset back and for the
    climatology worker.  In the first, no file is there at the start, the
    sink is created at the final path, the path holds a partial file from
    then on, also when the job returns, and nothing is ever renamed.  In
    the second, the sink of the period 1979-1989 is created at the final
    path of the climatology, which holds a partial file while the engine
    works, and the complete file only once the sink is closed; nothing is
    renamed. *)
Lemma sink_is_written_at_the_final_path :
  (let a := set_lreturn true demo_args in
   let r := performExtraction demo_env demo_oracle a demo_fs in
   lwrite a = true /\
   demo_fs !! demo_final_path = None /\
   existsb (creates_at demo_final_path) (events r) = true /\
   existsb (partial_at demo_final_path) (snapshots r) = true /\
   (exists atts, out r = Ok (RSink (Some demo_final_path) atts)) /\
   final r !! demo_final_path = Some (Node 101 0 Partial) /\
   existsb is_rename (events r) = false) /\
  (let r := computeClimatology demo_env demo_oracle demo_cargs demo_fs in
   demo_fs !! demo_clim_path = None /\
   existsb (creates_at demo_clim_path) (events r) = true /\
   existsb (fun st : event * fs => is_cpu st.1 && partial_at demo_clim_path st.2) (steps r)
     = true /\
   out r = Ok RNone /\
   final r !! demo_clim_path = Some (Node 105 2000000 Complete) /\
   existsb is_rename (events r) = false).
Proof.
  cbv zeta. split.
  - split; [reflexivity|]. split; [reflexivity|].
    split; [vm_compute; reflexivity|]. split; [vm_compute; reflexivity|].
    split; [eexists; vm_compute; reflexivity|].
    split; vm_compute; reflexivity.
  - repeat split; vm_compute; reflexivity.
Qed.

(** ** The skip decision *)

Ltac run_simpl :=
  cbv [mbind M_bind bind mret M_ret ret raise local key lift index0 info emit
       logger_info os_path_exists os_path_getmtime os_path_getsize os_remove
       out final steps app negb n_mtime n_size n_kind].

(** The shape-average worker keeps a file that is up to date ... *)
Lemma decide_skip_keeps ow sa fp s f age :
  s !! fp = Some f -> sa = Some age -> up_to_date ow age f = true ->
  decide_skip ow sa fp s =
  Run (Ok true) s [(EvExists fp, s); (EvGetmtime fp, s); (EvGetsize fp, s)].
Proof.
  intros Hs -> Hu. unfold up_to_date in Hu. destruct f as [mt sz k]. simpl in Hu.
  apply andb_prop in Hu as [Hu Hsz]. apply andb_prop in Hu as [Ho Hage].
  apply negb_true_iff in Ho. subst ow.
  unfold decide_skip. repeat (run_simpl; progress rewrite ?Hs, ?Hage, ?Hsz).
  reflexivity.
Qed.

(** ... and removes any other file, after looking at it. *)
Lemma decide_skip_removes ow sa fp s f age :
  s !! fp = Some f -> n_kind f <> Directory -> (ow = false -> sa = Some age) ->
  up_to_date ow age f = false ->
  exists pre,
    decide_skip ow sa fp s =
    Run (Ok false) (delete fp s) (pre ++ [(EvRemove fp, delete fp s)]) /\
    Forall (fun st => passive st.1 = true /\ st.2 = s) pre.
Proof.
  intros Hs Hk Hsa Hu. unfold up_to_date in Hu.
  destruct f as [mt sz k]. simpl in Hu, Hk.
  unfold decide_skip. destruct ow.
  - repeat (run_simpl; progress rewrite ?Hs).
    destruct k; [done|..]; (eexists [_]; split; [reflexivity|repeat constructor]).
  - rewrite (Hsa eq_refl). simpl in Hu.
    destruct (age <? mt) eqn:Hage.
    + simpl in Hu. repeat (run_simpl; progress rewrite ?Hs, ?Hage, ?Hu).
      destruct k; [done|..]; (eexists [_; _; _]; split; [reflexivity|repeat constructor]).
    + repeat (run_simpl; progress rewrite ?Hs, ?Hage).
      destruct k; [done|..]; (eexists [_; _]; split; [reflexivity|repeat constructor]).
Qed.

Lemma output_skips o a ld sa tg s fname f age :
  lwrite a = true -> tg_filename tg = Some fname ->
  let p := output_paths a tg fname in
  s !! filepath p = Some f -> sa = Some age ->
  up_to_date (loverwrite a) age f = true ->
  output o a ld sa tg s =
  Run (Ok RNone) s
      [(EvExists (filepath p), s); (EvGetmtime (filepath p), s);
       (EvGetsize (filepath p), s); (EvLog (MsgSkip fname), s)].
Proof.
  intros Hw Hf p Hs Hsa Hu. unfold output. rewrite Hw, Hf. run_simpl. fold p.
  rewrite (decide_skip_keeps _ _ _ _ _ _ Hs Hsa Hu). reflexivity.
Qed.

Lemma output_recomputes o a ld sa tg s fname f age :
  lwrite a = true -> tg_filename tg = Some fname ->
  let p := output_paths a tg fname in
  s !! filepath p = Some f -> n_kind f <> Directory ->
  (loverwrite a = false -> sa = Some age) ->
  up_to_date (loverwrite a) age f = false ->
  let rc := compute o a ld tg (Some p) (delete (filepath p) s) in
  exists pre,
    output o a ld sa tg s =
    Run (out rc) (final rc)
        (pre ++ (EvRemove (filepath p), delete (filepath p) s) :: steps rc) /\
    Forall (fun st => passive st.1 = true /\ st.2 = s) pre.
Proof.
  intros Hw Hf p Hs Hk Hsa Hu rc.
  destruct (decide_skip_removes _ _ _ _ _ _ Hs Hk Hsa Hu) as (pre & Hd & Hpre).
  exists pre. split; [|done].
  unfold output. rewrite Hw, Hf.
  cbv [mbind M_bind bind mret M_ret ret raise local out final steps]. fold p.
  rewrite Hd. cbv [out final steps]. fold rc.
  destruct rc as [r' f' st']. cbv [out final steps].
  f_equal. simpl. by rewrite <- app_assoc.
Qed.

Lemma skipped_not_removing {A} (r : run A) s fname pre e s' post :
  steps r = (pre ++ (e, s') :: post)%list -> passive e = false -> ~ skipped r s fname.
Proof.
  intros Hst He [_ Hall]. rewrite Hst in Hall.
  apply Forall_app in Hall as [_ Hall]. inversion Hall as [|? ? [Hp _] _]; subst.
  simpl in Hp. congruence.
Qed.

(** The climatology worker keeps a file that is newer than the source,
    whatever its size ... *)
Lemma clim_decide_skip_keeps ow sa fp s f age :
  s !! fp = Some f -> sa = Some age -> clim_up_to_date ow age f = true ->
  clim_decide_skip ow sa fp s = Run (Ok true) s [(EvExists fp, s); (EvGetmtime fp, s)].
Proof.
  intros Hs -> Hu. unfold clim_up_to_date in Hu. destruct f as [mt sz k]. simpl in Hu.
  apply andb_prop in Hu as [Ho Hage]. apply negb_true_iff in Ho. subst ow.
  unfold clim_decide_skip. repeat (run_simpl; progress rewrite ?Hs, ?Hage).
  reflexivity.
Qed.

(** ... and removes any other file. *)
Lemma clim_decide_skip_removes ow sa fp s f age :
  s !! fp = Some f -> n_kind f <> Directory -> (ow = false -> sa = Some age) ->
  clim_up_to_date ow age f = false ->
  exists pre,
    clim_decide_skip ow sa fp s =
    Run (Ok false) (delete fp s) (pre ++ [(EvRemove fp, delete fp s)]) /\
    Forall (fun st => passive st.1 = true /\ st.2 = s) pre.
Proof.
  intros Hs Hk Hsa Hu. unfold clim_up_to_date in Hu.
  destruct f as [mt sz k]. simpl in Hu, Hk.
  unfold clim_decide_skip. destruct ow.
  - repeat (run_simpl; progress rewrite ?Hs).
    destruct k; [done|..]; (eexists [_]; split; [reflexivity|repeat constructor]).
  - rewrite (Hsa eq_refl). simpl in Hu.
    repeat (run_simpl; progress rewrite ?Hs, ?Hu).
    destruct k; [done|..]; (eexists [_; _]; split; [reflexivity|repeat constructor]).
Qed.

Lemma clim_period_skips env o c fc src sa fb fe bd period s f age :
  c_logger c = LHandle -> fb <= bd + period <= fe ->
  is_Some (s !! clim_expfolder env c) ->
  let fp := clim_filepath env c fc bd period in
  let periodstr := fmt_period bd (bd + period) in
  s !! fp = Some f -> sa = Some age ->
  clim_up_to_date (c_loverwrite c) age f = true ->
  clim_period env o c fc src sa fb fe bd period s =
  Run (Ok tt) s
      [(EvLog (MsgComputing periodstr (g_grid env)), s); (EvExists (clim_expfolder env c), s);
       (EvExists fp, s); (EvGetmtime fp, s);
       (EvLog (MsgSkip (clim_filename env c fc periodstr)), s)].
Proof.
  intros Hl Hr [d Hd] fp periodstr Hs Hsa Hu. unfold clim_period.
  assert ((bd + period <? fb) = false) as -> by lia.
  assert ((fe <? bd + period) = false) as -> by lia.
  rewrite Hl. run_simpl. rewrite Hd. run_simpl.
  fold periodstr. change (clim_expfolder env c +:+ clim_filename env c fc periodstr) with fp.
  rewrite (clim_decide_skip_keeps _ _ _ _ _ _ Hs Hsa Hu). reflexivity.
Qed.

Lemma clim_period_recomputes env o c fc src sa fb fe bd period s f age :
  c_logger c = LHandle -> fb <= bd + period <= fe ->
  is_Some (s !! clim_expfolder env c) ->
  let fp := clim_filepath env c fc bd period in
  let periodstr := fmt_period bd (bd + period) in
  s !! fp = Some f -> n_kind f <> Directory ->
  (c_loverwrite c = false -> sa = Some age) ->
  clim_up_to_date (c_loverwrite c) age f = false ->
  let rc := clim_compute o c src period periodstr (clim_filename env c fc periodstr) fp
              (delete fp s) in
  exists pre,
    clim_period env o c fc src sa fb fe bd period s =
    Run (out rc) (final rc) (pre ++ (EvRemove fp, delete fp s) :: steps rc) /\
    Forall (fun st => passive st.1 = true /\ st.2 = s) pre.
Proof.
  intros Hl Hr [d Hd] fp periodstr Hs Hk Hsa Hu rc.
  destruct (clim_decide_skip_removes _ _ _ _ _ _ Hs Hk Hsa Hu) as (pre & Hdec & Hpre).
  exists ((EvLog (MsgComputing periodstr (g_grid env)), s) ::
          (EvExists (clim_expfolder env c), s) :: pre).
  split; [|repeat constructor; done].
  unfold clim_period.
  assert ((bd + period <? fb) = false) as -> by lia.
  assert ((fe <? bd + period) = false) as -> by lia.
  rewrite Hl.
  cbv [mbind M_bind bind mret M_ret ret raise info emit logger_info os_path_exists
       out final steps negb].
  rewrite Hd. cbv [out final steps negb].
  fold periodstr. change (clim_expfolder env c +:+ clim_filename env c fc periodstr) with fp.
  rewrite Hdec. cbv [out final steps]. fold rc.
  destruct rc as [r' f' st']. cbv [out final steps].
  f_equal. simpl. by rewrite <- app_assoc.
Qed.

(** ** What a run that returns leaves at the final path *)

Lemma output_leaves_file o a ld sa tg s fname v :
  lwrite a = true -> tg_filename tg = Some fname ->
  let p := output_paths a tg fname in
  out (output o a ld sa tg s) = Ok v ->
  is_Some (final (output o a ld sa tg s) !! filepath p).
Proof.
  intros Hw Hf p Hv. destruct (lreturn a) eqn:Hr.
  - assert (wp anything (output o a ld sa tg)
              (fun r s' _ => forall v, r = Ok v -> is_Some (s' !! filepath p)) tt s) as H.
    { assert (tmpfilepath p = filepath p) as Heq.
      { subst p. unfold output_paths. by rewrite Hr. }
      unfold output. rewrite Hw, Hf.
      apply wp_bind, wp_bind, wp_ret. cbv beta iota zeta.
      apply wp_ret. cbv beta iota zeta. fold p.
      unfold compute, decide_skip. rewrite Hr, !Heq.
      clearbody p.
      wp_all any_solver.
      all: (let H := fresh "Hres" in intros ? H; try discriminate H).
      all: try (match goal with
                | E : negb ?b = true, E' : ?b = true |- _ => rewrite E' in E; discriminate
                end).
      all: rewrite ?lookup_insert_eq; eauto.
      all: try (eexists; eassumption).
      all: simpl in *; congruence. }
    destruct H as (g' & _ & _ & H). by eapply H.
  - destruct (output_pub o a ld sa tg fname s Hw Hr Hf) as (g' & _ & _ & H).
    destruct (H v Hv) as [(_ & -> & Hex)|(_ & Hl & _)]; [done|]. by eexists.
Qed.

Lemma clim_period_leaves_file env o c fc src sa fb fe bd period s v :
  fb <= bd + period <= fe ->
  let r := clim_period env o c fc src sa fb fe bd period s in
  out r = Ok v ->
  c_logger c = LHandle /\
  is_Some (final r !! clim_expfolder env c) /\
  is_Some (final r !! clim_filepath env c fc bd period).
Proof.
  intros Hr r Hv.
  assert (wp anything (clim_period env o c fc src sa fb fe bd period)
            (fun r s' _ => forall v, r = Ok v ->
               c_logger c = LHandle /\
               is_Some (s' !! clim_expfolder env c) /\
               is_Some (s' !! clim_filepath env c fc bd period)) tt s) as H.
  { unfold clim_period, clim_decide_skip, clim_compute, logger_info.
    assert ((bd + period <? fb) = false) as -> by lia.
    assert ((fe <? bd + period) = false) as -> by lia.
    change (clim_expfolder env c +:+
            clim_filename env c fc (fmt_period bd (bd + period)))
      with (clim_filepath env c fc bd period).
    set (fp := clim_filepath env c fc bd period).
    set (d := clim_expfolder env c).
    wp_all any_solver.
    all: (let H := fresh "Hres" in intros ? H; try discriminate H).
    all: try (match goal with
              | E : negb ?b = true, E' : ?b = true |- _ => rewrite E' in E; discriminate
              end).
    all: try (simpl in *; congruence).
    all: split; [done|].
    all: destruct (decide (fp = d)) as [Heq|Hne];
      [rewrite <- ?Heq; rewrite ?lookup_insert_eq; split; eauto; try (eexists; eassumption)|].
    all: rewrite ?lookup_insert_eq.
    all: repeat first [rewrite lookup_insert_ne by done | rewrite lookup_delete_ne by done].
    all: split; eauto; try (eexists; eassumption). }
  destruct H as (g' & _ & _ & H). by eapply H.
Qed.

(** What the file at the final path is once a run has returned: the file
    that was there, if the run was a skip, and the file of the new sink
    otherwise. *)
Lemma output_returns o a ld sa tg s fname v :
  lwrite a = true -> tg_filename tg = Some fname ->
  let p := output_paths a tg fname in
  let r := output o a ld sa tg s in
  out r = Ok v ->
  (v = RNone /\ final r = s /\ is_Some (s !! filepath p)) \/
  (v <> RNone /\
   final r !! filepath p =
   Some (if lreturn a then Node (opened o (filepath p)).1 (opened o (filepath p)).2 Partial
         else published o (tmpfilepath p))).
Proof.
  intros Hw Hf p r Hv. subst r. destruct (lreturn a) eqn:Hr.
  - assert (wp anything (output o a ld sa tg)
              (fun r s' _ => forall v, r = Ok v ->
                 (v = RNone /\ s' = s /\ is_Some (s !! filepath p)) \/
                 (v <> RNone /\
                  s' !! filepath p =
                  Some (Node (opened o (filepath p)).1 (opened o (filepath p)).2 Partial)))
              tt s) as H.
    { assert (tmpfilepath p = filepath p) as Heq.
      { subst p. unfold output_paths. by rewrite Hr. }
      unfold output. rewrite Hw, Hf.
      apply wp_bind, wp_bind, wp_ret. cbv beta iota zeta.
      apply wp_ret. cbv beta iota zeta. fold p.
      unfold compute, decide_skip. rewrite Hr, !Heq.
      clearbody p.
      wp_all any_solver.
      all: (let H := fresh "Hres" in intros ? H; try discriminate H; injection H as <-).
      all: try (match goal with
                | E : negb ?b = true, E' : ?b = true |- _ => rewrite E' in E; discriminate
                end).
      all: try (left; split; [done|]; split; [done|]; eexists; eassumption).
      all: try (right; split; [done|]; apply lookup_insert_eq).
      all: simpl in *; congruence. }
    destruct H as (g' & _ & _ & H). by apply H.
  - destruct (output_pub o a ld sa tg fname s Hw Hr Hf) as (g' & _ & _ & H).
    destruct (H v Hv) as [(-> & Hs & Hex)|(-> & Hl & _)]; [by left|by right].
Qed.

Lemma clim_period_returns env o c fc src sa fb fe bd period s v :
  fb <= bd + period <= fe ->
  let fp := clim_filepath env c fc bd period in
  let r := clim_period env o c fc src sa fb fe bd period s in
  out r = Ok v ->
  (final r = s /\ is_Some (s !! fp)) \/ final r !! fp = Some (published o fp).
Proof.
  intros Hr fp r Hv. subst r.
  assert (wp anything (clim_period env o c fc src sa fb fe bd period)
            (fun r s' _ => forall v, r = Ok v ->
               (s' = s /\ is_Some (s !! fp)) \/ s' !! fp = Some (published o fp)) tt s) as H.
  { unfold clim_period, clim_decide_skip, clim_compute, logger_info.
    assert ((bd + period <? fb) = false) as -> by lia.
    assert ((fe <? bd + period) = false) as -> by lia.
    change (clim_expfolder env c +:+
            clim_filename env c fc (fmt_period bd (bd + period))) with fp.
    clearbody fp.
    wp_all any_solver.
    all: (let H := fresh "Hres" in intros ? H; try discriminate H).
    all: try (match goal with
              | E : negb ?b = true, E' : ?b = true |- _ => rewrite E' in E; discriminate
              end).
    all: try (simpl in *; congruence).
    all: try (left; split; [done|]; eexists; eassumption).
    all: right; apply lookup_insert_eq. }
  destruct H as (g' & _ & _ & H). by eapply H.
Qed.

(** A file that does not pass the test is looked at and then removed (or
    the removal fails): the run is no skip. *)
Lemma decide_skip_not_kept ow sa fp s f age :
  s !! fp = Some f -> (ow = false -> sa = Some age) -> up_to_date ow age f = false ->
  exists pre r s',
    decide_skip ow sa fp s = Run r s' (pre ++ [(EvRemove fp, s')]) /\ r <> Ok true.
Proof.
  intros Hs Hsa Hu. unfold up_to_date in Hu.
  destruct f as [mt sz k]. simpl in Hu.
  unfold decide_skip. destruct ow.
  - repeat (run_simpl; progress rewrite ?Hs).
    destruct k; (eexists [_], _, _; split; [reflexivity|discriminate]).
  - rewrite (Hsa eq_refl). simpl in Hu.
    destruct (age <? mt) eqn:Hage.
    + simpl in Hu. repeat (run_simpl; progress rewrite ?Hs, ?Hage, ?Hu).
      destruct k; (eexists [_; _; _], _, _; split; [reflexivity|discriminate]).
    + repeat (run_simpl; progress rewrite ?Hs, ?Hage).
      destruct k; (eexists [_; _], _, _; split; [reflexivity|discriminate]).
Qed.

Lemma output_not_skipped o a ld sa tg s fname f age :
  lwrite a = true -> tg_filename tg = Some fname ->
  let p := output_paths a tg fname in
  s !! filepath p = Some f -> (loverwrite a = false -> sa = Some age) ->
  up_to_date (loverwrite a) age f = false ->
  ~ skipped (output o a ld sa tg s) s fname.
Proof.
  intros Hw Hf p Hs Hsa Hu.
  destruct (decide_skip_not_kept _ _ _ _ _ _ Hs Hsa Hu) as (pre & r & s' & Hd & Hr).
  assert (exists post, steps (output o a ld sa tg s) =
                       (pre ++ (EvRemove (filepath p), s') :: post)%list) as [post Hst].
  { unfold output. rewrite Hw, Hf.
    cbv [mbind M_bind bind mret M_ret ret raise local out final steps]. fold p.
    rewrite Hd. cbv [out final steps].
    destruct r as [[]|e]; [done| |].
    - exists (steps (compute o a ld tg (Some p) s')).
      destruct (compute o a ld tg (Some p) s') as [r' f' st']. cbv [out final steps].
      simpl. by rewrite <- app_assoc.
    - exists []. reflexivity. }
  by eapply skipped_not_removing.
Qed.

Lemma clim_decide_skip_not_kept ow sa fp s f age :
  s !! fp = Some f -> (ow = false -> sa = Some age) -> clim_up_to_date ow age f = false ->
  exists pre r s',
    clim_decide_skip ow sa fp s = Run r s' (pre ++ [(EvRemove fp, s')]) /\ r <> Ok true.
Proof.
  intros Hs Hsa Hu. unfold clim_up_to_date in Hu.
  destruct f as [mt sz k]. simpl in Hu.
  unfold clim_decide_skip. destruct ow.
  - repeat (run_simpl; progress rewrite ?Hs).
    destruct k; (eexists [_], _, _; split; [reflexivity|discriminate]).
  - rewrite (Hsa eq_refl). simpl in Hu.
    repeat (run_simpl; progress rewrite ?Hs, ?Hu).
    destruct k; (eexists [_; _], _, _; split; [reflexivity|discriminate]).
Qed.

Lemma clim_period_not_skipped env o c fc src sa fb fe bd period s f age :
  c_logger c = LHandle -> fb <= bd + period <= fe ->
  is_Some (s !! clim_expfolder env c) ->
  let fp := clim_filepath env c fc bd period in
  s !! fp = Some f -> (c_loverwrite c = false -> sa = Some age) ->
  clim_up_to_date (c_loverwrite c) age f = false ->
  ~ skipped (clim_period env o c fc src sa fb fe bd period s) s
      (clim_filename env c fc (fmt_period bd (bd + period))).
Proof.
  intros Hl Hr [d Hd] fp Hs Hsa Hu.
  destruct (clim_decide_skip_not_kept _ _ _ _ _ _ Hs Hsa Hu) as (pre & r & s' & Hdec & Hne).
  assert (exists pre' post, steps (clim_period env o c fc src sa fb fe bd period s) =
                            (pre' ++ (EvRemove fp, s') :: post)%list) as (pre' & post & Hst).
  { unfold clim_period.
    assert ((bd + period <? fb) = false) as -> by lia.
    assert ((fe <? bd + period) = false) as -> by lia.
    rewrite Hl.
    cbv [mbind M_bind bind mret M_ret ret raise info emit logger_info os_path_exists
         out final steps negb].
    rewrite Hd. cbv [out final steps negb].
    change (clim_expfolder env c +:+
            clim_filename env c fc (fmt_period bd (bd + period))) with fp.
    rewrite Hdec. cbv [out final steps].
    destruct r as [[]|e]; [done| |].
    - set (rc := clim_compute o c src period (fmt_period bd (bd + period))
                   (clim_filename env c fc (fmt_period bd (bd + period))) fp s').
      exists (((EvLog (MsgComputing (fmt_period bd (bd + period)) (g_grid env)), s) ::
               (EvExists (clim_expfolder env c), s) :: pre)), (steps rc).
      destruct rc as [r' f' st']. cbv [out final steps].
      simpl. by rewrite <- app_assoc.
    - exists (((EvLog (MsgComputing (fmt_period bd (bd + period)) (g_grid env)), s) ::
               (EvExists (clim_expfolder env c), s) :: pre)), []. reflexivity. }
  by eapply skipped_not_removing.
Qed.

Lemma skipped_run {A} (r : run A) s fname :
  Forall (fun st => passive st.1 = true /\ st.2 = s) (steps r) ->
  In (EvLog (MsgSkip fname)) (events r) -> skipped r s fname.
Proof. intros H1 H2. split; done. Qed.

(** C1, as amended.  In the shape-average worker, a job that writes to
    disk and finds a file at the final path is skipped (the message is
    logged, nothing is recomputed, the file is left alone) if and only if
    the overwrite flag is unset, the file is newer than [sourceage] and it
    is larger than 1,000,000 bytes; in every other case the file is removed
    and the computation starts from the filesystem without it.  The
    climatology worker decides in the same way but does not look at the
    size.  In both workers a run that returns leaves a file at the final
    path: the file that was there, if the run was a skip, and the file of
    the new sink otherwise; and a second run with the overwrite flag unset
    is a skip if and only if that file passes the worker's test against
    the [sourceage] of the second run, in which case it returns and leaves
    the file as it is. *)
Theorem staleness_skip env o a ld sa tg s fname c fc src csa fb fe bd period cs :
  lwrite a = true -> tg_filename tg = Some fname -> fb <= bd + period <= fe ->
  let p := output_paths a tg fname in
  let fp := filepath p in
  let r := output o a ld sa tg s in
  let cfp := clim_filepath env c fc bd period in
  let cps := fmt_period bd (bd + period) in
  let cname := clim_filename env c fc cps in
  let cr := clim_period env o c fc src csa fb fe bd period cs in
  (forall f age,
     s !! fp = Some f -> n_kind f <> Directory ->
     (loverwrite a = false -> sa = Some age) ->
     (skipped r s fname <-> up_to_date (loverwrite a) age f = true) /\
     (up_to_date (loverwrite a) age f = true -> out r = Ok RNone /\ final r = s) /\
     (up_to_date (loverwrite a) age f = false ->
        let rc := compute o a ld tg (Some p) (delete fp s) in
        exists pre, steps r = (pre ++ (EvRemove fp, delete fp s) :: steps rc)%list /\
                    out r = out rc /\ final r = final rc)) /\
  (forall f age,
     c_logger c = LHandle -> is_Some (cs !! clim_expfolder env c) ->
     cs !! cfp = Some f -> n_kind f <> Directory ->
     (c_loverwrite c = false -> csa = Some age) ->
     (skipped cr cs cname <-> clim_up_to_date (c_loverwrite c) age f = true) /\
     (clim_up_to_date (c_loverwrite c) age f = true -> out cr = Ok tt /\ final cr = cs) /\
     (clim_up_to_date (c_loverwrite c) age f = false ->
        let rc := clim_compute o c src period cps cname cfp (delete cfp cs) in
        exists pre, steps cr = (pre ++ (EvRemove cfp, delete cfp cs) :: steps rc)%list /\
                    out cr = out rc /\ final cr = final rc)) /\
  (forall v, out r = Ok v ->
     ((v = RNone /\ final r = s /\ is_Some (s !! fp)) \/
      (v <> RNone /\
       final r !! fp =
       Some (if lreturn a then Node (opened o fp).1 (opened o fp).2 Partial
             else published o (tmpfilepath p)))) /\
     exists f', final r !! fp = Some f' /\
       forall o2 ld2 age2,
         loverwrite a = false ->
         let r2 := output o2 a ld2 (Some age2) tg (final r) in
         (skipped r2 (final r) fname <-> up_to_date false age2 f' = true) /\
         (up_to_date false age2 f' = true -> out r2 = Ok RNone /\ final r2 = final r)) /\
  (forall v, out cr = Ok v ->
     ((final cr = cs /\ is_Some (cs !! cfp)) \/ final cr !! cfp = Some (published o cfp)) /\
     exists f', final cr !! cfp = Some f' /\
       forall o2 src2 age2,
         c_loverwrite c = false ->
         let r2 := clim_period env o2 c fc src2 (Some age2) fb fe bd period (final cr) in
         (skipped r2 (final cr) cname <-> clim_up_to_date false age2 f' = true) /\
         (clim_up_to_date false age2 f' = true -> out r2 = Ok tt /\ final r2 = final cr)).
Proof.
  intros Hw Hf Hr p fp r cfp cps cname cr.
  split; [|split; [|split]].
  - intros f age Hs Hk Hsa.
    assert (Hyes : up_to_date (loverwrite a) age f = true ->
                   out r = Ok RNone /\ final r = s /\ skipped r s fname).
    { intros Hu.
      assert (loverwrite a = false) as Ho.
      { unfold up_to_date in Hu. destruct (loverwrite a); [done|done]. }
      subst r. rewrite (output_skips o a ld sa tg s fname f age Hw Hf Hs (Hsa Ho) Hu).
      split; [done|]. split; [done|].
      apply skipped_run; cbn; [repeat constructor|tauto]. }
    assert (Hno : up_to_date (loverwrite a) age f = false ->
                  let rc := compute o a ld tg (Some p) (delete fp s) in
                  exists pre, steps r = (pre ++ (EvRemove fp, delete fp s) :: steps rc)%list /\
                              out r = out rc /\ final r = final rc).
    { intros Hu rc.
      destruct (output_recomputes o a ld sa tg s fname f age Hw Hf Hs Hk Hsa Hu)
        as (pre & Hrun & _).
      exists pre. subst r. rewrite Hrun. done. }
    split; [|split; [intros Hu; destruct (Hyes Hu) as (? & ? & ?); done|done]].
    split; [|intros Hu; by apply Hyes].
    intros Hsk. destruct (up_to_date (loverwrite a) age f) eqn:Hu; [done|].
    destruct (Hno eq_refl) as (pre & Hst & _).
    exfalso. by eapply skipped_not_removing.
  - intros f age Hl Hd Hs Hk Hsa.
    assert (Hyes : clim_up_to_date (c_loverwrite c) age f = true ->
                   out cr = Ok tt /\ final cr = cs /\ skipped cr cs cname).
    { intros Hu.
      assert (c_loverwrite c = false) as Ho.
      { unfold clim_up_to_date in Hu. destruct (c_loverwrite c); [done|done]. }
      subst cr.
      rewrite (clim_period_skips env o c fc src csa fb fe bd period cs f age
                 Hl Hr Hd Hs (Hsa Ho) Hu).
      split; [done|]. split; [done|].
      apply skipped_run; cbn; [repeat constructor|tauto]. }
    assert (Hno : clim_up_to_date (c_loverwrite c) age f = false ->
                  let rc := clim_compute o c src period cps cname cfp (delete cfp cs) in
                  exists pre, steps cr = (pre ++ (EvRemove cfp, delete cfp cs) :: steps rc)%list /\
                              out cr = out rc /\ final cr = final rc).
    { intros Hu rc.
      destruct (clim_period_recomputes env o c fc src csa fb fe bd period cs f age
                  Hl Hr Hd Hs Hk Hsa Hu) as (pre & Hrun & _).
      exists pre. subst cr. rewrite Hrun. done. }
    split; [|split; [intros Hu; destruct (Hyes Hu) as (? & ? & ?); done|done]].
    split; [|intros Hu; by apply Hyes].
    intros Hsk. destruct (clim_up_to_date (c_loverwrite c) age f) eqn:Hu; [done|].
    destruct (Hno eq_refl) as (pre & Hst & _).
    exfalso. by eapply skipped_not_removing.
  - intros v Hv.
    split; [exact (output_returns o a ld sa tg s fname v Hw Hf Hv)|].
    destruct (output_leaves_file o a ld sa tg s fname v Hw Hf Hv) as [f' Hf'].
    exists f'. split; [done|]. intros o2 ld2 age2 Ho r2.
    assert (Hyes : up_to_date false age2 f' = true ->
                   out r2 = Ok RNone /\ final r2 = final r /\ skipped r2 (final r) fname).
    { intros Hu. subst r2. rewrite <- Ho in Hu.
      rewrite (output_skips o2 a ld2 (Some age2) tg (final r) fname f' age2 Hw Hf Hf'
                 eq_refl Hu).
      split; [done|]. split; [done|].
      apply skipped_run; cbn; [repeat constructor|tauto]. }
    split; [|intros Hu; destruct (Hyes Hu) as (? & ? & ?); done].
    split; [|intros Hu; by apply Hyes].
    intros Hsk. destruct (up_to_date false age2 f') eqn:Hu; [done|].
    exfalso.
    assert (up_to_date (loverwrite a) age2 f' = false) as Hu' by (by rewrite Ho).
    exact (output_not_skipped o2 a ld2 (Some age2) tg (final r) fname f' age2
             Hw Hf Hf' (fun _ => eq_refl) Hu' Hsk).
  - intros v Hv.
    split; [exact (clim_period_returns env o c fc src csa fb fe bd period cs v Hr Hv)|].
    destruct (clim_period_leaves_file env o c fc src csa fb fe bd period cs v Hr Hv)
      as (Hl & Hd & [f' Hf']).
    exists f'. split; [done|]. intros o2 src2 age2 Ho r2.
    assert (Hyes : clim_up_to_date false age2 f' = true ->
                   out r2 = Ok tt /\ final r2 = final cr /\ skipped r2 (final cr) cname).
    { intros Hu. subst r2. rewrite <- Ho in Hu.
      rewrite (clim_period_skips env o2 c fc src2 (Some age2) fb fe bd period (final cr) f'
                 age2 Hl Hr Hd Hf' eq_refl Hu).
      split; [done|]. split; [done|].
      apply skipped_run; cbn; [repeat constructor|tauto]. }
    split; [|intros Hu; destruct (Hyes Hu) as (? & ? & ?); done].
    split; [|intros Hu; by apply Hyes].
    intros Hsk. destruct (clim_up_to_date false age2 f') eqn:Hu; [done|].
    exfalso.
    assert (clim_up_to_date (c_loverwrite c) age2 f' = false) as Hu' by (by rewrite Ho).
    exact (clim_period_not_skipped env o2 c fc src2 (Some age2) fb fe bd period
             (final cr) f' age2 Hl Hr Hd Hf' (fun _ => eq_refl) Hu' Hsk).
Qed.

Example demo_args_resolved :
  out (resolve demo_env demo_oracle demo_args demo_fs) = Ok (demo_loaded, Some 10, demo_target).
Proof. vm_compute. reflexivity. Qed.

Example demo_first_run :
  let r := performExtraction demo_env demo_oracle demo_args demo_fs in
  out r = Ok (RInt 0) /\ final r = demo_fs_published.
Proof. split; vm_compute; reflexivity. Qed.

Lemma staleness_skip_witness :
  let r := output demo_oracle demo_args demo_loaded (Some 10) demo_target demo_fs_published in
  (skipped r demo_fs_published "wrfsrfc_shpavg_monthly.nc" <->
   up_to_date false 10 (Node 105 2000000 Complete) = true) /\
  out r = Ok RNone /\ final r = demo_fs_published.
Proof.
  pose proof (staleness_skip demo_env demo_oracle demo_args demo_loaded (Some 10) demo_target
                demo_fs_published "wrfsrfc_shpavg_monthly.nc"
                demo_cargs (demo_fileclass "srfc") demo_source (Some 10) 1979 1989 1979 10
                demo_fs eq_refl eq_refl ltac:(lia)) as H.
  cbv zeta in H. destruct H as (H & _).
  specialize (H (Node 105 2000000 Complete) 10 eq_refl ltac:(discriminate)
                (fun _ => eq_refl)).
  destruct H as (H1 & H2 & _). split; [exact H1|]. apply H2. reflexivity.
Defined.

(** C1 as stated fails, in two ways.  In the climatology worker a stub of
    500 bytes that is newer than the source is found at the final path,
    the overwrite flag is unset, and the job is skipped although the file
    is far below the size a complete file has.  And in the shape-average
    worker a second run is no skip when the output is small: the first run
    publishes a complete file of 500,000 bytes, and the second run, with
    the overwrite flag unset and the same source files, removes that file
    and computes it again. *)
Lemma skip_decision_is_not_as_stated :
  (let r := computeClimatology demo_env demo_oracle demo_cargs demo_fs_stub in
   c_loverwrite demo_cargs = false /\
   demo_fs_stub !! demo_clim_path = Some (Node 50 500 Partial) /\
   (1000000 <? 500) = false /\
   up_to_date false 10 (Node 50 500 Partial) = false /\
   out r = Ok RNone /\
   final r = demo_fs_stub /\
   existsb is_skip_message (events r) = true /\
   forallb passive (events r) = true /\
   forallb (fun s' => bool_decide (s' = demo_fs_stub)) (snapshots r) = true) /\
  (let r1 := performExtraction demo_env demo_small_oracle demo_args demo_fs in
   let r2 := performExtraction demo_env demo_later_oracle demo_args (final r1) in
   loverwrite demo_args = false /\
   out r1 = Ok (RInt 0) /\
   final r1 = demo_fs_small /\
   demo_fs_small !! demo_final_path = Some (Node 105 500000 Complete) /\
   out r2 = Ok (RInt 0) /\
   existsb is_skip_message (events r2) = false /\
   existsb (fun e => bool_decide (e = EvRemove demo_final_path)) (events r2) = true /\
   existsb is_cpu (events r2) = true /\
   final r2 !! demo_final_path = Some (Node 205 500000 Complete)).
Proof.
  cbv zeta. split.
  - repeat split; vm_compute; reflexivity.
  - repeat split; vm_compute; reflexivity.
Qed.

(** ** The dates of the climatology worker *)

Lemma computeClimatology_resolved env o c s fc src sa fb fe s1 l1 :
  clim_resolve env o c s = Run (Ok (fc, src, sa, fb, fe)) s1 l1 ->
  let r := clim_dates env o c fc src sa fb fe s1 in
  computeClimatology env o c s = Run (out r) (final r) (l1 ++ steps r).
Proof.
  intros H r. unfold computeClimatology.
  rewrite (run_bind_Ok _ _ _ _ _ _ H). reflexivity.
Qed.

(** A resolved call has been given a logger. *)
Lemma clim_resolve_logger env o c s x :
  out (clim_resolve env o c s) = Ok x -> c_logger c = LHandle.
Proof.
  unfold clim_resolve. intros H.
  apply out_bind_Ok in H as (? & _ & H).
  apply out_bind_Ok in H as (? & _ & H).
  apply out_bind_Ok in H as (? & H & _).
  destruct (c_logger c); done.
Qed.

(** Periods that end after the source are logged and passed over. *)
Lemma clim_periods_invalid env o c fc src sa fb fe bd l s :
  c_logger c = LHandle -> fb <= bd <= fe -> Forall (fun p => fe < bd + p) l ->
  clim_periods env o c fc src sa fb fe bd l s =
  Run (Ok tt) s (map (fun p => (EvLog (MsgInvalidPeriod (bd + p)), s)) l).
Proof.
  intros Hl Hb Hall. induction Hall as [|p l Hp _ IH]; [reflexivity|].
  cbn [clim_periods map].
  assert (clim_period env o c fc src sa fb fe bd p s =
          Run (Ok tt) s [(EvLog (MsgInvalidPeriod (bd + p)), s)]) as Hone.
  { unfold clim_period.
    assert ((bd + p <? fb) = false) as -> by lia.
    assert ((fe <? bd + p) = true) as -> by lia.
    rewrite Hl. reflexivity. }
  rewrite (run_bind_Ok _ _ _ _ _ _ Hone). rewrite IH. reflexivity.
Qed.

(** The loop over the periods, taken apart at a block. *)
Lemma clim_periods_app env o c fc src sa fb fe bd l1 l2 s :
  let r1 := clim_periods env o c fc src sa fb fe bd l1 s in
  clim_periods env o c fc src sa fb fe bd (l1 ++ l2)%list s =
  match out r1 with
  | Ok _ =>
      let r2 := clim_periods env o c fc src sa fb fe bd l2 (final r1) in
      Run (out r2) (final r2) (steps r1 ++ steps r2)%list
  | Raise e => Run (Raise e) (final r1) (steps r1)
  end.
Proof.
  revert s. induction l1 as [|p l1 IH]; intros s; cbn [clim_periods app].
  - cbn. by destruct (clim_periods env o c fc src sa fb fe bd l2 s).
  - unfold mbind, M_bind, bind.
    destruct (clim_period env o c fc src sa fb fe bd p s) as [[[]|e] s' st]; cbn [out final steps].
    + rewrite IH. cbv zeta.
      destruct (out (clim_periods env o c fc src sa fb fe bd l1 s')); cbn [out final steps].
      * by rewrite app_assoc.
      * reflexivity.
    + reflexivity.
Qed.

(** C4, as amended: a resolved climatology job fails with a date-range
    error when the offset puts the start year outside the years of the
    source, and when the loop over the periods comes to a block that ends
    before the first year of the source; in both cases nothing else
    happens.  A block that ends after the last year of the source is not
    an error: when the loop comes to it, the worker logs that the period
    is invalid, computes nothing for it and goes on with the periods that
    follow, whose outcome is the outcome of the job; if all periods are of
    this kind the job returns.  A block that an earlier block keeps the
    loop from reaching has no effect at all. *)
Theorem block_outside_coverage env o c s fc src sa fb fe s1 l1 :
  clim_resolve env o c s = Run (Ok (fc, src, sa, fb, fe)) s1 l1 ->
  let bd := c_offset c + fb in
  let r := computeClimatology env o c s in
  (~ fb <= bd <= fe -> r = Run (Raise DateError) s1 l1) /\
  (fb <= bd <= fe -> forall p rest,
     c_periods c = Some (p :: rest) -> bd + p < fb -> r = Run (Raise DateError) s1 l1) /\
  (fb <= bd <= fe -> forall l,
     c_periods c = Some l -> Forall (fun p => fe < bd + p) l ->
     r = Run (Ok RNone) s1
           (l1 ++ map (fun p => (EvLog (MsgInvalidPeriod (bd + p)), s1)) l)) /\
  (fb <= bd <= fe -> forall earlier p later,
     c_periods c = Some (earlier ++ p :: later)%list ->
     let r1 := clim_periods env o c fc src sa fb fe bd earlier s1 in
     (forall e, out r1 = Raise e -> r = Run (Raise e) (final r1) (l1 ++ steps r1)%list) /\
     (out r1 = Ok tt -> bd + p < fb ->
      r = Run (Raise DateError) (final r1) (l1 ++ steps r1)%list) /\
     (out r1 = Ok tt -> fe < bd + p ->
      let r2 := clim_periods env o c fc src sa fb fe bd later (final r1) in
      r = Run (match out r2 with Ok _ => Ok RNone | Raise e => Raise e end) (final r2)
            (l1 ++ steps r1 ++ (EvLog (MsgInvalidPeriod (bd + p)), final r1) :: steps r2)%list)).
Proof.
  intros Hres bd r.
  pose proof (clim_resolve_logger env o c s _ (f_equal out Hres)) as Hl.
  subst r. rewrite (computeClimatology_resolved _ _ _ _ _ _ _ _ _ _ _ Hres).
  unfold clim_dates. fold bd.
  split; [|split; [|split]].
  - intros Hout.
    assert ((fb <=? bd) && (bd <=? fe) = false) as ->.
    { apply andb_false_iff. lia. }
    cbn. by rewrite app_nil_r.
  - intros Hin p rest Hp Hlt.
    assert ((fb <=? bd) && (bd <=? fe) = true) as ->.
    { apply andb_true_iff. lia. }
    rewrite Hp. cbn [negb default_periods clim_periods].
    assert (clim_period env o c fc src sa fb fe bd p s1 = Run (Raise DateError) s1 []) as Hone.
    { unfold clim_period. assert ((bd + p <? fb) = true) as -> by lia. reflexivity. }
    rewrite (run_bind_Raise _ _ _ _ _ _
               (run_bind_Raise _ _ _ _ _ _ Hone)).
    cbn. by rewrite app_nil_r.
  - intros Hin l Hp Hall.
    assert ((fb <=? bd) && (bd <=? fe) = true) as ->.
    { apply andb_true_iff. lia. }
    rewrite Hp. cbn [negb default_periods].
    rewrite (run_bind_Ok _ _ _ _ _ _
               (clim_periods_invalid env o c fc src sa fb fe bd l s1 Hl Hin Hall)).
    cbn. by rewrite app_nil_r.
  - intros Hin earlier p later Hp.
    assert ((fb <=? bd) && (bd <=? fe) = true) as ->.
    { apply andb_true_iff. lia. }
    rewrite Hp. cbn [negb default_periods].
    unfold mbind, M_bind, bind.
    rewrite (clim_periods_app env o c fc src sa fb fe bd earlier (p :: later) s1).
    cbv zeta. cbn [clim_periods].
    set (r1 := clim_periods env o c fc src sa fb fe bd earlier s1).
    split; [|split].
    + intros e He. rewrite He. reflexivity.
    + intros Hok Hlt. rewrite Hok.
      assert (clim_period env o c fc src sa fb fe bd p (final r1) =
              Run (Raise DateError) (final r1) []) as Hone.
      { unfold clim_period. assert ((bd + p <? fb) = true) as -> by lia. reflexivity. }
      unfold mbind, M_bind, bind. rewrite Hone. cbn [out final steps].
      by rewrite app_nil_r.
    + intros Hok Hgt. rewrite Hok.
      assert (clim_period env o c fc src sa fb fe bd p (final r1) =
              Run (Ok tt) (final r1) [(EvLog (MsgInvalidPeriod (bd + p)), final r1)]) as Hone.
      { unfold clim_period.
        assert ((bd + p <? fb) = false) as -> by lia.
        assert ((fe <? bd + p) = true) as -> by lia.
        rewrite Hl. reflexivity. }
      unfold mbind, M_bind, bind. rewrite Hone. cbn [out final steps].
      set (r2 := clim_periods env o c fc src sa fb fe bd later (final r1)).
      destruct (out r2) as [[]|e]; cbn [out final steps ret].
      * by rewrite app_nil_r.
      * reflexivity.
Qed.

Lemma block_outside_coverage_witness :
  computeClimatology demo_env demo_oracle (set_periods (Some [10; 15]) 5 demo_cargs) demo_fs =
  Run (Ok RNone) demo_fs
      (demo_clim_prelude ++
       [(EvLog (MsgInvalidPeriod 1994), demo_fs); (EvLog (MsgInvalidPeriod 1999), demo_fs)]).
Proof.
  assert (Hres : clim_resolve demo_env demo_oracle (set_periods (Some [10; 15]) 5 demo_cargs)
                   demo_fs =
                 Run (Ok (demo_fileclass "srfc", demo_source, Some 10, 1979, 1989)) demo_fs
                     demo_clim_prelude).
  { vm_compute. reflexivity. }
  destruct (block_outside_coverage demo_env demo_oracle
              (set_periods (Some [10; 15]) 5 demo_cargs) demo_fs
              (demo_fileclass "srfc") demo_source (Some 10) 1979 1989 demo_fs
              demo_clim_prelude Hres) as (_ & _ & H & _).
  apply (H ltac:(simpl; lia) [10; 15] eq_refl).
  repeat constructor; simpl; lia.
Defined.

(** C4 as stated fails: the source covers 1979 to 1989, the block of ten
    years from offset 5 ends in 1994, and the worker logs the invalid
    period and returns without raising anything. *)
Lemma late_block_is_not_an_error :
  let c := set_periods (Some [10]) 5 demo_cargs in
  let r := computeClimatology demo_env demo_oracle c demo_fs in
  year_of demo_source "begin_date" demo_fs = Run (Ok 1979) demo_fs [] /\
  year_of demo_source "end_date" demo_fs = Run (Ok 1989) demo_fs [] /\
  1979 + c_offset c + 10 = 1994 /\ 1989 < 1994 /\
  out r = Ok RNone /\ out r <> Raise DateError /\
  events r = (map fst demo_clim_prelude ++ [EvLog (MsgInvalidPeriod 1994)])%list.
Proof.
  cbv zeta. split; [reflexivity|]. split; [reflexivity|].
  split; [reflexivity|]. split; [lia|].
  split; [vm_compute; reflexivity|]. split; [vm_compute; discriminate|].
  vm_compute. reflexivity.
Qed.

(** A block that is too late, followed by one that is too early: the
    first is logged, the second is the date-range error.  And a block that
    is computed, followed by one that is too late: the job returns. *)
Example late_block_then_early_block :
  let r := computeClimatology demo_env demo_oracle (set_periods (Some [15; -20]) 5 demo_cargs)
             demo_fs in
  out r = Raise DateError /\
  events r = (map fst demo_clim_prelude ++ [EvLog (MsgInvalidPeriod 1999)])%list.
Proof. split; vm_compute; reflexivity. Qed.

Example computed_block_then_late_block :
  let r := computeClimatology demo_env demo_oracle (set_periods (Some [5; 15]) 0 demo_cargs)
             demo_fs in
  out r = Ok RNone /\
  existsb is_cpu (events r) = true /\
  last (events r) = Some (EvLog (MsgInvalidPeriod 1994)).
Proof. repeat split; vm_compute; reflexivity. Qed.

(** C10: a resolved call with [periods=None] and [offset=0] on a source
    that ends after the year it begins in takes the begin year minus the
    end year for its only period, a number that is not positive; the block
    then ends before the first year of the source, and the worker raises a
    date-range error.  Up to then it has only logged, loaded the source and
    looked at the source files: no climatology is computed and no file is
    changed. *)
Theorem default_period_precedes_source env o c s fc src sa fb fe s1 l1 :
  c_periods c = None -> c_offset c = 0 ->
  clim_resolve env o c s = Run (Ok (fc, src, sa, fb, fe)) s1 l1 -> fb < fe ->
  let bd := c_offset c + fb in
  default_periods (c_periods c) bd fe = [fb - fe] /\
  fb - fe <= 0 /\
  bd + (fb - fe) < fb /\
  computeClimatology env o c s = Run (Raise DateError) s1 l1 /\
  s1 = s /\
  Forall (fun st => passive st.1 = true /\ st.2 = s) l1.
Proof.
  intros Hp Ho Hres Hlt bd.
  assert (bd = fb) as Hbd by (unfold bd; lia).
  split; [by rewrite Hp, Hbd|]. split; [lia|]. split; [lia|].
  destruct (quiet_clim_resolve env o c s) as [Hfin Hst]. rewrite Hres in Hfin, Hst.
  split; [|done].
  rewrite (computeClimatology_resolved _ _ _ _ _ _ _ _ _ _ _ Hres).
  unfold clim_dates. fold bd. rewrite Hp, Hbd.
  assert ((fb <=? fb) && (fb <=? fe) = true) as ->.
  { apply andb_true_iff. lia. }
  cbn [negb default_periods clim_periods].
  assert (clim_period env o c fc src sa fb fe fb (fb - fe) s1 = Run (Raise DateError) s1 [])
    as Hone.
  { unfold clim_period. assert ((fb + (fb - fe) <? fb) = true) as -> by lia. reflexivity. }
  rewrite (run_bind_Raise _ _ _ _ _ _ (run_bind_Raise _ _ _ _ _ _ Hone)).
  cbn. by rewrite app_nil_r.
Qed.

Lemma default_period_precedes_source_witness :
  let c := set_periods None 0 demo_cargs in
  default_periods (c_periods c) (c_offset c + 1979) 1989 = [1979 - 1989] /\
  1979 - 1989 <= 0 /\
  c_offset c + 1979 + (1979 - 1989) < 1979 /\
  computeClimatology demo_env demo_oracle c demo_fs =
    Run (Raise DateError) demo_fs demo_clim_prelude /\
  demo_fs = demo_fs /\
  Forall (fun st => passive st.1 = true /\ st.2 = demo_fs) demo_clim_prelude.
Proof.
  apply (default_period_precedes_source demo_env demo_oracle (set_periods None 0 demo_cargs)
           demo_fs (demo_fileclass "srfc") demo_source (Some 10) 1979 1989 demo_fs
           demo_clim_prelude).
  - reflexivity.
  - reflexivity.
  - vm_compute. reflexivity.
  - lia.
Defined.

(** ** The value a skipped job returns *)

(** C5 fails on the code: the output of [demo_args] is on disk, larger
    than 1,000,000 bytes and newer than the source, a second call with the
    overwrite flag unset skips, and its return value is [None] (the branch
    of the skip has no [return]), neither the status 0 nor a dataset. *)
Theorem skipped_job_returns_None :
  let r := performExtraction demo_env demo_oracle demo_args demo_fs_published in
  loverwrite demo_args = false /\ lreturn demo_args = false /\
  demo_fs_published !! demo_final_path = Some (Node 105 2000000 Complete) /\
  existsb is_skip_message (events r) = true /\
  final r = demo_fs_published /\
  out r = Ok RNone /\
  out r <> Ok (RInt 0).
Proof.
  cbv zeta. split; [reflexivity|]. split; [reflexivity|].
  split; [vm_compute; reflexivity|]. split; [vm_compute; reflexivity|].
  split; [vm_compute; reflexivity|]. split; [vm_compute; reflexivity|].
  vm_compute. discriminate.
Qed.

(** Every skip of the shape-average worker returns [None]. *)
Lemma skip_returns_None env o a s ld sa tg fname f age :
  out (resolve env o a s) = Ok (ld, sa, tg) ->
  lwrite a = true -> tg_filename tg = Some fname ->
  s !! filepath (output_paths a tg fname) = Some f -> sa = Some age ->
  up_to_date (loverwrite a) age f = true ->
  out (performExtraction env o a s) = Ok RNone.
Proof.
  intros Hres Hw Hf Hs Hsa Hu. unfold performExtraction.
  unfold mbind, M_bind, bind. rewrite Hres. cbn [out].
  rewrite (quiet_final _ _ (quiet_resolve env o a)).
  by rewrite (output_skips o a ld sa tg s fname f age Hw Hf Hs Hsa Hu).
Qed.

(** ** The period of the request and the period of the source *)

Lemma all_isInt l : all (isInt l) = true.
Proof. unfold all, isInt. induction l; simpl; auto. Qed.

Lemma length_2 {A} (l : list A) : Nat.eqb (List.length l) 2 = true -> exists b e, l = [b; e].
Proof. destruct l as [|b [|e [|]]]; try done. eauto. Qed.

(** A source that has been fetched comes with no period or with two years. *)
Lemma fetched_period env a s x :
  dataset a = "WRF" \/ dataset a = "CESM" ->
  out ((if String.eqb (dataset a) "WRF" then fetch_WRF env a else fetch_CESM env a) s) = Ok x ->
  ft_period x = None \/ exists b e, ft_period x = Some [b; e].
Proof.
  intros Hd Hx.
  assert (wp anything (if String.eqb (dataset a) "WRF" then fetch_WRF env a else fetch_CESM env a)
            (fun r _ _ => forall x, r = Ok x ->
               ft_period x = None \/ exists b e, ft_period x = Some [b; e]) tt s) as H.
  { unfold fetch_WRF, fetch_CESM, model_period.
    wp_all any_solver.
    all: (let H := fresh "Hres" in intros ? H; try discriminate H; injection H as <-).
    all: cbn [ft_period]; eauto.
    all: right.
    all: match goal with
         | E : negb (Nat.eqb (List.length ?l) 2) && all (isInt ?l) = false |- _ =>
             rewrite all_isInt, andb_true_r in E; apply negb_false_iff in E;
             destruct (length_2 l E) as (b & e' & ->); by exists b, e'
         end. }
  destruct H as (g' & _ & _ & H). by apply H.
Qed.

Lemma check_loaded_run x s periodstr :
  (ft_period x = None /\ periodstr = "" \/
   exists b e, ft_period x = Some [b; e] /\ periodstr = fmt_period b e) ->
  let r := check_loaded x s in
  final r = s /\ steps r = [] /\
  (out r = Raise DateError <->
   exists p, src_atts (ft_source x) !! "period" = Some p /\ p <> periodstr).
Proof.
  intros Hp r. subst r. unfold check_loaded, check_period.
  assert (period_string (ft_period x) = ret periodstr) as ->.
  { destruct Hp as [[-> ->]|(b & e & -> & ->)]; reflexivity. }
  run_simpl.
  destruct (src_atts (ft_source x) !! "period") as [p|] eqn:Hatt; run_simpl.
  - destruct (String.eqb periodstr p) eqn:E; run_simpl.
    + apply String.eqb_eq in E. subst p. split; [done|]. split; [done|].
      split; [done|]. intros (p & [= <-] & Hne). done.
    + apply String.eqb_neq in E. split; [done|]. split; [done|].
      split; [|done]. intros _. exists p. split; [done|]. congruence.
  - split; [done|]. split; [done|]. split; [done|]. intros (p & [=] & _).
Qed.

(** C6, as amended: in a WRF or CESM job, a requested period that is a
    sequence of integers of a length other than 2 is rejected with a
    date-range error before the source is loaded; and once the source has
    been fetched, the worker raises a date-range error, with no further
    effect and before any processing, if and only if the source carries a
    ['period'] attribute that differs from the period string of the
    request, which is empty without a period and ['{0:4d}-{1:4d}'] of the
    two years otherwise. *)
Theorem period_consistency env a s :
  dataset a = "WRF" \/ dataset a = "CESM" ->
  let da := a_dataargs a in
  let fetch := if String.eqb (dataset a) "WRF" then fetch_WRF env a else fetch_CESM env a in
  let r := load_source env a s in
  (forall exp l,
     da_experiment da = Some exp -> (dataset a = "WRF" -> is_Some (da_domain da)) ->
     da_period da = Some (PerSeq l) -> List.length l <> 2%nat ->
     r = Run (Raise DateError) s [(EvImport ("datasets." +:+ dataset a), s)]) /\
  (forall x s1 l1,
     fetch s = Run (Ok x) s1 l1 ->
     exists periodstr,
       (ft_period x = None /\ periodstr = "" \/
        exists b e, ft_period x = Some [b; e] /\ periodstr = fmt_period b e) /\
       (out r = Raise DateError <->
        exists p, src_atts (ft_source x) !! "period" = Some p /\ p <> periodstr) /\
       steps r = l1 /\ final r = s1).
Proof.
  intros Hd da fetch r. split.
  - intros exp l Hexp Hdom Hper Hlen. subst r. unfold load_source.
    assert (negb (Nat.eqb (List.length l) 2) && all (isInt l) = true) as Hbad.
    { rewrite all_isInt, andb_true_r. apply negb_true_iff. by apply Nat.eqb_neq. }
    destruct Hd as [Hd|Hd]; rewrite Hd; cbn [String.eqb Ascii.eqb Bool.eqb].
    + destruct (Hdom Hd) as [dom Hdom'].
      unfold load_WRF, fetch_WRF. fold da.
      rewrite Hexp, Hdom', Hper. run_simpl. unfold model_period. rewrite Hbad. reflexivity.
    + unfold load_CESM, fetch_CESM. fold da.
      rewrite Hexp, Hper. run_simpl. unfold model_period. rewrite Hbad. reflexivity.
  - intros x s1 l1 Hx.
    destruct (fetched_period env a s x Hd (f_equal out Hx)) as [Hn|(b & e & Hbe)].
    + exists "". split; [by left|].
      destruct (check_loaded_run x s1 "" (or_introl (conj Hn eq_refl))) as (Hf & Hs & Ho).
      assert (r = Run (out (check_loaded x s1)) (final (check_loaded x s1))
                      (l1 ++ steps (check_loaded x s1))) as ->.
      { subst r fetch. unfold load_source, load_WRF, load_CESM.
        destruct Hd as [Hd|Hd]; rewrite Hd in *; cbn [String.eqb Ascii.eqb Bool.eqb] in *;
          by rewrite (run_bind_Ok _ _ _ _ _ _ Hx). }
      cbn [out final steps]. rewrite Hs, Hf, app_nil_r. done.
    + exists (fmt_period b e). split; [right; by exists b, e|].
      destruct (check_loaded_run x s1 (fmt_period b e)
                  (or_intror (ex_intro _ b (ex_intro _ e (conj Hbe eq_refl)))))
        as (Hf & Hs & Ho).
      assert (r = Run (out (check_loaded x s1)) (final (check_loaded x s1))
                      (l1 ++ steps (check_loaded x s1))) as ->.
      { subst r fetch. unfold load_source, load_WRF, load_CESM.
        destruct Hd as [Hd|Hd]; rewrite Hd in *; cbn [String.eqb Ascii.eqb Bool.eqb] in *;
          by rewrite (run_bind_Ok _ _ _ _ _ _ Hx). }
      cbn [out final steps]. rewrite Hs, Hf, app_nil_r. done.
Qed.

Lemma period_consistency_witness :
  let r := load_source demo_period_env demo_clim_args demo_fs in
  (out r = Raise DateError <->
   exists p, src_atts demo_period_source !! "period" = Some p /\ p <> "1979-1989") /\
  steps r = [(EvImport "datasets.WRF", demo_fs); (EvLoad "loadWRF", demo_fs)] /\
  final r = demo_fs.
Proof.
  destruct (period_consistency demo_period_env demo_clim_args demo_fs
              (or_introl eq_refl)) as [_ H].
  destruct (H (Fetched demo_period_source "exp1" (Some [1979; 1989]) "srfc" (Some 1))
              demo_fs [(EvImport "datasets.WRF", demo_fs); (EvLoad "loadWRF", demo_fs)]
              ltac:(vm_compute; reflexivity))
    as (periodstr & Hp & Hiff & Hst & Hfin).
  destruct Hp as [[Hp _]|(b & e & Hp & ->)]; [discriminate Hp|].
  injection Hp as <- <-.
  split; [exact Hiff|]. split; [exact Hst|exact Hfin].
Defined.

(** C6 as stated fails: the job asks for a period of three years; the
    worker raises a date-range error before it loads anything, although
    the source it would load carries no ['period'] attribute at all. *)
Lemma malformed_period_is_a_date_error :
  let a := set_period (PerSeq [1979; 1984; 1989]) demo_args in
  let r := performExtraction demo_env demo_oracle a demo_fs in
  dataset a = "WRF" /\
  r = Run (Raise DateError) demo_fs [(EvImport "datasets.WRF", demo_fs)] /\
  existsb is_load (events r) = false /\ existsb is_cpu (events r) = false /\
  (forall e d ft v s, loadWRF_TS demo_env e d ft v s = Ok demo_source) /\
  src_atts demo_source !! "period" = None.
Proof.
  cbv zeta. split; [reflexivity|]. split; [vm_compute; reflexivity|].
  split; [vm_compute; reflexivity|]. split; [vm_compute; reflexivity|].
  split; [reflexivity|]. vm_compute. reflexivity.
Qed.

(** The loaders of [datasets/CESM.py] do not accept the keywords the
    shape-average worker passes to them: no CESM job gets its source. *)
Lemma CESM_source_is_never_loaded env a s : forall x, out (load_CESM env a s) <> Ok x.
Proof.
  intros x Hx.
  assert (wp anything (load_CESM env a) (fun r _ _ => forall x, r <> Ok x) tt s) as H.
  { unfold load_CESM, fetch_CESM, model_period.
    wp_all any_solver. all: done. }
  destruct H as (g' & _ & _ & H). by eapply H.
Qed.

(** Called with keywords it accepts, [loadCESM] wants a period. *)
Lemma loadCESM_wants_period env experiment filetypes varlist s e :
  CESM.exps experiment = Some e ->
  is_Some (s !! CESM.exp_avgfolder env e) ->
  out (CESM.loadCESM env CESM.loadCESM_params experiment None filetypes varlist s)
  = Raise DateError.
Proof.
  intros He [d Hd]. unfold CESM.loadCESM, CESM.getFolderName, bind_keywords.
  cbn [accepts forallb existsb CESM.loadCESM_params]. rewrite He.
  run_simpl. cbn. rewrite Hd. reflexivity.
Qed.

(** * Further properties of the workers *)

(** ** What the monitors say about a list of steps *)

Lemma lenient_untouched p : lenient (untouched p).
Proof. intros g s e H. split; reflexivity. Qed.

Lemma allowed_untouched p l : forall g s g',
  allowed (untouched p) g s l g' ->
  Forall (fun st : event * fs => st.2 !! p = s !! p) l /\ end_state s l !! p = s !! p.
Proof.
  induction l as [|[e s1] l IH]; simpl; intros g s g' H; [done|].
  destruct H as (g1 & [He _] & H). destruct (IH _ _ _ H) as [H1 H2].
  split; [|congruence].
  constructor; [done|]. eapply Forall_impl; [exact H1|]. simpl. intros st Hst. congruence.
Qed.

Lemma allowed_avoiding P l : forall g s g',
  allowed (avoiding P) g s l g' -> existsb P (map fst l) = false.
Proof.
  induction l as [|[e s1] l IH]; simpl; intros g s g' H; [done|].
  destruct H as (g1 & [He _] & H). rewrite He. simpl. by eapply IH.
Qed.

Lemma allowed_noting P l : forall g s g',
  allowed (noting P) g s l g' -> g' = g || existsb P (map fst l).
Proof.
  induction l as [|[e s1] l IH]; simpl; intros g s g' H.
  - subst. by rewrite orb_false_r.
  - destruct H as (g1 & He & H). apply IH in H. unfold noting in He. subst.
    by rewrite orb_assoc.
Qed.

Lemma lenient_noting P : (forall e, passive e = true -> P e = false) -> lenient (noting P).
Proof. intros HP g s e H. unfold noting. rewrite (HP e H). by rewrite orb_false_r. Qed.

Ltac untouched_solver :=
  split; [|reflexivity];
  repeat first [ rewrite lookup_insert_ne by (done || congruence)
               | rewrite lookup_delete_ne by (done || congruence) ];
  reflexivity.

Ltac avoiding_solver := split; reflexivity.

Ltac noting_solver := unfold noting; simpl; rewrite ?orb_false_r, ?orb_true_r; reflexivity.

(** ** Jobs that cannot succeed *)

(** X1: a job that is told not to write to disk ([lwrite] unset) never
    returns.  The name of the output folder is assigned under [if lwrite]
    only, and read in any case: once the source is loaded the job stops
    with Python's error for an unassigned local variable.  Whatever the
    job does before that only looks: it changes no file. *)
Theorem job_without_output_file_never_returns env o a s :
  lwrite a = false ->
  let r := performExtraction env o a s in
  (exists e, out r = Raise e) /\
  final r = s /\
  Forall (fun st : event * fs => passive st.1 = true /\ st.2 = s) (steps r) /\
  (forall ld s',
     out (prepare_target env a ld s') =
     Raise (if String.eqb (dataset a) "WRF" || String.eqb (dataset a) "CESM" ||
               String.eqb (dataset a) (upper (dataset a))
            then UnboundLocalError else DatasetError)).
Proof.
  intros Hw r. subst r. unfold performExtraction.
  destruct (quiet_resolve env o a s) as [Hf Hs].
  destruct (resolve env o a s) as [[[[ld sa] tg]|e] s1 l1] eqn:E.
  - exfalso. destruct (resolved_job_writes env o a s ld sa tg) as [H _]; [by rewrite E|].
    congruence.
  - rewrite (run_bind_Raise _ _ _ _ _ _ E). simpl in *.
    split; [eauto|]. split; [done|]. split; [done|].
    intros ld s'. unfold prepare_target. rewrite Hw.
    destruct (String.eqb (dataset a) "WRF"); simpl.
    { destruct (ldebug a); reflexivity. }
    destruct (String.eqb (dataset a) "CESM"); simpl.
    { destruct (ldebug a); reflexivity. }
    destruct (String.eqb (dataset a) (upper (dataset a))); simpl; [|reflexivity].
    destruct (ldebug a); reflexivity.
Qed.

Lemma job_without_output_file_never_returns_witness :
  let r := performExtraction demo_env demo_oracle (set_lwrite false demo_args) demo_fs in
  (exists e, out r = Raise e) /\
  final r = demo_fs /\
  Forall (fun st : event * fs => passive st.1 = true /\ st.2 = demo_fs) (steps r) /\
  (forall ld s',
     out (prepare_target demo_env (set_lwrite false demo_args) ld s') =
     Raise (if String.eqb (dataset (set_lwrite false demo_args)) "WRF" ||
               String.eqb (dataset (set_lwrite false demo_args)) "CESM" ||
               String.eqb (dataset (set_lwrite false demo_args))
                 (upper (dataset (set_lwrite false demo_args)))
            then UnboundLocalError else DatasetError)).
Proof.
  apply (job_without_output_file_never_returns demo_env demo_oracle
           (set_lwrite false demo_args) demo_fs).
  reflexivity.
Defined.

(** X2: a CESM job never returns.  The worker hands the loaders of
    [datasets.CESM] the keywords [load3D] and [translateVars] (and [grid],
    for the time series), which their signatures do not have: the call is
    refused before the loader runs.  No loader ever reads a file, and the
    job changes none. *)
Theorem CESM_job_never_returns env o a s :
  dataset a = "CESM" ->
  let r := performExtraction env o a s in
  (exists e, out r = Raise e) /\
  final r = s /\
  Forall (fun st : event * fs => passive st.1 = true /\ st.2 = s) (steps r) /\
  existsb is_load (events r) = false /\
  (forall exp p ft,
     da_experiment (a_dataargs a) = Some exp ->
     da_period (a_dataargs a) = Some p ->
     da_filetypes (a_dataargs a) = Some [ft] ->
     p = PerNone \/ (exists l, p = PerSeq l /\ List.length l = 2%nat) \/
     (exists n y, p = PerInt n /\ py_int (take4 (exp_begindate exp)) = Ok y) ->
     lparallel a = false -> logger a = LHandle ->
     is_climatology (mode a) || is_time_series (mode a) = true ->
     out r = Raise TypeError).
Proof.
  intros Hd r.
  assert (wp (avoiding is_load) (resolve env o a)
            (fun r _ _ => (forall x, r <> Ok x) /\
               (forall exp p ft,
                  da_experiment (a_dataargs a) = Some exp ->
                  da_period (a_dataargs a) = Some p ->
                  da_filetypes (a_dataargs a) = Some [ft] ->
                  p = PerNone \/ (exists l, p = PerSeq l /\ List.length l = 2%nat) \/
                  (exists n y, p = PerInt n /\ py_int (take4 (exp_begindate exp)) = Ok y) ->
                  lparallel a = false -> logger a = LHandle ->
                  is_climatology (mode a) || is_time_series (mode a) = true ->
                  r = Raise TypeError)) tt s) as H.
  { unfold resolve, check_input, setup_logger, load_source. rewrite Hd.
    change (String.eqb "CESM" "WRF") with false.
    change (String.eqb "CESM" "CESM") with true. cbv iota.
    unfold load_CESM, fetch_CESM, model_period.
    wp_all avoiding_solver.
    all: split; [intros ? ?; discriminate|].
    all: intros exp0 p0 ft0 Hexp Hper Hft Hp Hpar Hlog Hmode; try congruence.
    all: simplify_eq; try done.
    all: try (destruct Hp as [?|[(l' & ? & Hlen)|(n' & y' & ? & Hy)]]; simplify_eq; simpl in * ).
    all: try (rewrite ?Hlen in *; simpl in *; congruence).
    all: try (destruct (is_climatology (mode a)), (is_time_series (mode a));
              simpl in *; congruence). }
  destruct H as (g' & Hal & _ & Hno & Hty).
  destruct (quiet_resolve env o a s) as [Hf Hs].
  subst r. unfold performExtraction.
  destruct (resolve env o a s) as [[x|e] s1 l1] eqn:E; simpl in *.
  - by destruct (Hno x).
  - rewrite (run_bind_Raise _ _ _ _ _ _ E). simpl.
    split; [eauto|]. split; [done|]. split; [done|].
    split; [by eapply allowed_avoiding|].
    intros exp0 p0 ft0 H1 H2 H3 H4 H5 H6 H7.
    specialize (Hty exp0 p0 ft0 H1 H2 H3 H4 H5 H6 H7). by injection Hty as ->.
Qed.

Lemma CESM_job_never_returns_witness :
  let a := demo_CESM_args in
  let r := performExtraction demo_env demo_oracle a demo_fs in
  (exists e, out r = Raise e) /\
  final r = demo_fs /\
  Forall (fun st : event * fs => passive st.1 = true /\ st.2 = demo_fs) (steps r) /\
  existsb is_load (events r) = false /\
  (forall exp p ft,
     da_experiment (a_dataargs a) = Some exp ->
     da_period (a_dataargs a) = Some p ->
     da_filetypes (a_dataargs a) = Some [ft] ->
     p = PerNone \/ (exists l, p = PerSeq l /\ List.length l = 2%nat) \/
     (exists n y, p = PerInt n /\ py_int (take4 (exp_begindate exp)) = Ok y) ->
     lparallel a = false -> logger a = LHandle ->
     is_climatology (mode a) || is_time_series (mode a) = true ->
     out r = Raise TypeError).
Proof.
  apply (CESM_job_never_returns demo_env demo_oracle demo_CESM_args demo_fs).
  reflexivity.
Defined.

(** ** What a job leaves alone *)

Lemma untouched_run {A} (c : M A) p s (Q : res A -> fs -> unit -> Prop) :
  wp (untouched p) c Q tt s ->
  final (c s) !! p = s !! p /\ Forall (fun s' : fs => s' !! p = s !! p) (snapshots (c s)).
Proof.
  intros (g' & Hal & Hfin & _). apply allowed_untouched in Hal as [H1 H2].
  split; [by rewrite Hfin|]. unfold snapshots. apply Forall_map.
  eapply Forall_impl; [exact H1|]. done.
Qed.

Lemma decide_skip_untouched ow sa fp p s :
  fp <> p -> wp (untouched p) (decide_skip ow sa fp) (fun _ _ _ => True) tt s.
Proof. intros Hp. unfold decide_skip. wp_all untouched_solver. all: exact I. Qed.

Lemma compute_untouched o a ld tg ps p s :
  filepath ps <> p -> tmpfilepath ps <> p ->
  wp (untouched p) (compute o a ld tg (Some ps)) (fun _ _ _ => True) tt s.
Proof. intros H1 H2. unfold compute. wp_all untouched_solver. all: exact I. Qed.

Lemma output_untouched o a ld sa tg fname p s :
  lwrite a = true -> tg_filename tg = Some fname ->
  p <> filepath (output_paths a tg fname) -> p <> tmpfilepath (output_paths a tg fname) ->
  wp (untouched p) (output o a ld sa tg) (fun _ _ _ => True) tt s.
Proof.
  intros Hw Hf H1 H2. unfold output. rewrite Hw, Hf.
  apply wp_bind, wp_bind, wp_ret. cbv beta iota zeta.
  apply wp_ret. cbv beta iota zeta.
  set (ps := output_paths a tg fname) in *. clearbody ps.
  assert (filepath ps <> p) as H1' by congruence.
  assert (tmpfilepath ps <> p) as H2' by congruence.
  eapply wp_seq; [by apply decide_skip_untouched|].
  intros [[]|e] s' [] _; cbv beta iota zeta; [| |done].
  - wp_all untouched_solver. exact I.
  - by apply compute_untouched.
Qed.

(** X3: a shape-average job changes nothing but its own output.  Whatever
    path is neither the final path nor the temporary path of the job (a
    source file, the output of another job) holds at every step of the
    job, and at its end, what it held at the start. *)
Theorem job_leaves_other_files_alone env o a s ld sa tg fname p :
  out (resolve env o a s) = Ok (ld, sa, tg) -> tg_filename tg = Some fname ->
  p <> filepath (output_paths a tg fname) -> p <> tmpfilepath (output_paths a tg fname) ->
  let r := performExtraction env o a s in
  final r !! p = s !! p /\ Forall (fun s' : fs => s' !! p = s !! p) (snapshots r).
Proof.
  intros Hres Hf H1 H2 r.
  destruct (resolved_job_writes env o a s ld sa tg Hres) as [Hw _].
  apply untouched_run with (Q := fun _ _ _ => True).
  unfold performExtraction.
  apply wp_bind. apply wp_quiet; [apply lenient_untouched|apply quiet_resolve|].
  rewrite Hres. cbv beta iota. by eapply output_untouched.
Qed.

Lemma job_leaves_other_files_alone_witness :
  let r := performExtraction demo_env demo_oracle demo_args demo_fs in
  let p := "/data/wrf/a.nc" in
  final r !! p = demo_fs !! p /\ Forall (fun s' : fs => s' !! p = demo_fs !! p) (snapshots r).
Proof.
  apply (job_leaves_other_files_alone demo_env demo_oracle demo_args demo_fs
           demo_loaded (Some 10) demo_target "wrfsrfc_shpavg_monthly.nc" "/data/wrf/a.nc").
  - vm_compute. reflexivity.
  - reflexivity.
  - vm_compute. discriminate.
  - vm_compute. discriminate.
Defined.





(** ** The regridding step of the climatology worker *)

(** X5: a climatology job with a grid definition never completes.  Once
    the engine has regridded, the message for the logger is put together
    from [griddef.geotansform] and from a format string that has no place
    for its argument, and one of the two raises.  The sink, which was
    opened at the final path, is never synced nor closed: the final path
    is left with a partial file. *)
Theorem regridding_never_completes o c src period periodstr fn fp s g :
  c_griddef c = Some g ->
  let r := clim_compute o c src period periodstr fn fp s in
  (exists e, out r = Raise e) /\
  existsb is_sink_close (events r) = false /\
  ((forall op, cpu_outcome o op = None) ->
   (forall mt sz, s !! fp <> Some (Node mt sz Directory)) ->
   out r = Raise (if gd_geotansform g then TypeError else AttributeError) /\
   In (EvCPU Regrid) (events r) /\
   final r !! fp = Some (Node (opened o fp).1 (opened o fp).2 Partial)).
Proof.
  intros Hg r.
  assert (wp (avoiding is_sink_close) (clim_compute o c src period periodstr fn fp)
            (fun r _ _ => forall x, r <> Ok x) tt s) as H.
  { unfold clim_compute, logger_info. rewrite Hg.
    wp_all avoiding_solver. all: intros ? ?; discriminate. }
  destruct H as (g' & Hal & _ & Hno).
  split; [|split; [by eapply allowed_avoiding|]].
  - subst r. destruct (out _) as [[]|e]; [by destruct (Hno tt)|eauto].
  - intros Hcpu Hdir. subst r. unfold clim_compute, cpu, DatasetNetCDF_w.
    rewrite Hg, !Hcpu.
    cbv [mbind M_bind bind mret M_ret ret raise emit out final steps events map fst app].
    destruct (s !! fp) as [[mt sz []]|] eqn:Hs; [by destruct (Hdir mt sz)|..];
      destruct (gd_geotansform g);
      cbv [mbind M_bind bind mret M_ret ret raise emit out final steps events map fst app];
      (split; [reflexivity|]; split; [simpl; tauto|apply lookup_insert_eq]).
Qed.

Lemma regridding_never_completes_witness :
  let c := set_griddef (Some (GridDef "arb2" false false)) demo_cargs in
  let fp := demo_clim_path in
  let r := clim_compute demo_oracle c demo_source 10 "1979-1989"
             "wrfsrfc_arb2_clim_1979-1989.nc" fp demo_fs in
  (exists e, out r = Raise e) /\
  existsb is_sink_close (events r) = false /\
  ((forall op, cpu_outcome demo_oracle op = None) ->
   (forall mt sz, demo_fs !! fp <> Some (Node mt sz Directory)) ->
   out r = Raise (if gd_geotansform (GridDef "arb2" false false) then TypeError else AttributeError) /\
   In (EvCPU Regrid) (events r) /\
   final r !! fp = Some (Node (opened demo_oracle fp).1 (opened demo_oracle fp).2 Partial)).
Proof.
  apply (regridding_never_completes demo_oracle
           (set_griddef (Some (GridDef "arb2" false false)) demo_cargs) demo_source 10 "1979-1989"
           "wrfsrfc_arb2_clim_1979-1989.nc" demo_clim_path demo_fs (GridDef "arb2" false false)).
  reflexivity.
Defined.

(** ** A climatology that was interrupted *)

Lemma clim_period_interrupted env o c fc src sa fb fe bd period s :
  let fp := clim_filepath env c fc bd period in
  wp (noting is_cpu) (clim_period env o c fc src sa fb fe bd period)
     (fun r s' g' => g' = true -> (exists e, r = Raise e) ->
        c_logger c = LHandle /\ fb <= bd + period <= fe /\
        is_Some (s' !! clim_expfolder env c) /\
        s' !! fp = Some (Node (opened o fp).1 (opened o fp).2 Partial))
     false s.
Proof.
  intros fp. unfold clim_period, clim_decide_skip, clim_compute, logger_info.
  change (clim_expfolder env c +:+ clim_filename env c fc (fmt_period bd (bd + period)))
    with fp.
  set (d := clim_expfolder env c). clearbody fp d.
  wp_all noting_solver.
  all: intros Hg Hr; try discriminate Hg; try (destruct Hr as [? Hr]; discriminate Hr).
  all: split; [done|]; split; [lia|].
  all: destruct (decide (fp = d)) as [Heq|Hne];
    [rewrite <- ?Heq; rewrite ?lookup_insert_eq; split; eauto|].
  all: rewrite ?lookup_insert_eq.
  all: repeat first [rewrite lookup_insert_ne by done | rewrite lookup_delete_ne by done].
  all: split; eauto; try (eexists; eassumption).
Qed.

(** X6: a climatology that is interrupted is never made up for.  When a
    period of the climatology worker raises after the engine has started
    (the sink is then open at the final path), the final path is left
    with a partial file; and a later run of the same period, with
    overwriting off and source files older than that file, takes the
    partial file for the climatology: it logs that it skips, and the
    engine is not called. *)
Theorem interrupted_climatology_is_skipped_afterwards
    env o o' c fc src sa sa' fb fe bd period s e :
  let fp := clim_filepath env c fc bd period in
  let r := clim_period env o c fc src sa fb fe bd period s in
  out r = Raise e -> existsb is_cpu (events r) = true ->
  c_loverwrite c = false -> sa' < (opened o fp).1 ->
  let r' := clim_period env o' c fc src (Some sa') fb fe bd period (final r) in
  partial_at fp (final r) = true /\
  out r' = Ok tt /\ final r' = final r /\
  In (EvLog (MsgSkip (clim_filename env c fc (fmt_period bd (bd + period))))) (events r') /\
  existsb is_cpu (events r') = false.
Proof.
  intros fp r He Hcpu How Hsa r'.
  destruct (clim_period_interrupted env o c fc src sa fb fe bd period s)
    as (g' & Hal & _ & HQ).
  apply allowed_noting in Hal.
  change (g' = false || existsb is_cpu (events r)) in Hal. rewrite Hcpu in Hal.
  simpl in Hal. fold r in HQ.
  destruct (HQ Hal) as (Hl & Hrange & Hd & Hfp); [eauto|]. fold fp in Hfp.
  assert (partial_at fp (final r) = true) as Hpart by (unfold partial_at; by rewrite Hfp).
  split; [done|].
  assert (clim_up_to_date (c_loverwrite c) sa'
            (Node (opened o fp).1 (opened o fp).2 Partial) = true) as Hu.
  { unfold clim_up_to_date. rewrite How. simpl. by apply Z.ltb_lt. }
  subst r'.
  rewrite (clim_period_skips env o' c fc src (Some sa') fb fe bd period (final r) _ sa'
             Hl Hrange Hd Hfp eq_refl Hu).
  cbn [out final events steps map fst]. split; [done|]. split; [done|].
  split; [simpl; tauto|reflexivity].
Qed.

Lemma interrupted_climatology_is_skipped_afterwards_witness :
  let c := demo_cargs in
  let fc := demo_fileclass "srfc" in
  let fp := clim_filepath demo_env c fc 1979 10 in
  let r := clim_period demo_env demo_failing_oracle c fc demo_source (Some 10)
             1979 1989 1979 10 demo_fs in
  let r' := clim_period demo_env demo_oracle c fc demo_source (Some 10)
              1979 1989 1979 10 (final r) in
  partial_at fp (final r) = true /\
  out r' = Ok tt /\ final r' = final r /\
  In (EvLog (MsgSkip (clim_filename demo_env c fc (fmt_period 1979 (1979 + 10))))) (events r') /\
  existsb is_cpu (events r') = false.
Proof.
  apply (interrupted_climatology_is_skipped_afterwards demo_env demo_failing_oracle
           demo_oracle demo_cargs (demo_fileclass "srfc") demo_source (Some 10) 10
           1979 1989 1979 10 demo_fs ExternalError).
  - vm_compute. reflexivity.
  - vm_compute. reflexivity.
  - reflexivity.
  - vm_compute. reflexivity.
Defined.

(** ** The logger of the climatology worker *)

(** X7: the climatology worker cannot run on its default logger.  It
    calls [logger.info] on what it was given; with [None] (the default) or
    the name of a logger this raises [AttributeError] at the first
    message, before the source is loaded or a file is looked at. *)
Theorem climatology_worker_needs_a_logger env o c s fc :
  c_logger c = LNone \/ (exists n, c_logger c = LName n) ->
  WRF_fileclasses env (c_filetype c) = Some fc ->
  c_periods c <> Some [] ->
  computeClimatology env o c s = Run (Raise AttributeError) s [].
Proof.
  intros Hl Hfc Hp. unfold computeClimatology, clim_resolve, check_periods, logger_info.
  rewrite Hfc.
  destruct (c_periods c) as [[|p l]|]; [done|..];
    destruct Hl as [->|[n ->]]; reflexivity.
Qed.

Lemma climatology_worker_needs_a_logger_witness :
  computeClimatology demo_env demo_oracle (set_logger LNone demo_cargs) demo_fs =
  Run (Raise AttributeError) demo_fs [].
Proof.
  apply (climatology_worker_needs_a_logger demo_env demo_oracle (set_logger LNone demo_cargs)
           demo_fs (demo_fileclass "srfc")).
  - left. reflexivity.
  - reflexivity.
  - simpl. discriminate.
Defined.

(** ** The attributes of the output *)

Lemma prepared_target_period env a ld s tg :
  out (prepare_target env a ld s) = Ok tg ->
  tg_periodstr tg =
  if String.eqb (dataset a) "WRF" || String.eqb (dataset a) "CESM"
  then (if nonempty (ld_periodstr ld) then "_" +:+ ld_periodstr ld else "")
  else ld_periodstr ld.
Proof.
  intros Htg.
  assert (wp anything (prepare_target env a ld)
            (fun r _ _ => forall tg, r = Ok tg ->
               tg_periodstr tg =
               if String.eqb (dataset a) "WRF" || String.eqb (dataset a) "CESM"
               then (if nonempty (ld_periodstr ld) then "_" +:+ ld_periodstr ld else "")
               else ld_periodstr ld) tt s) as H.
  { unfold prepare_target. wp_all any_solver.
    all: (let H := fresh "Hres" in intros ? H; try discriminate H; injection H as <-).
    all: cbn [tg_periodstr]; rewrite ?orb_true_r; reflexivity. }
  destruct H as (g' & _ & _ & H). by apply H.
Qed.



Lemma load_obs_periodstr env a s ld :
  out (load_obs env a s) = Ok ld ->
  da_period (a_dataargs a) = Some PerNone -> mode a = "climatology" ->
  ld_periodstr ld = "Long-Term Mean".
Proof.
  intros Hld Hp Hm.
  assert (wp anything (load_obs env a)
            (fun r _ _ => forall ld, r = Ok ld -> ld_periodstr ld = "Long-Term Mean") tt s) as H.
  { unfold load_obs, import_module, obs_period. rewrite Hp, Hm.
    change (is_climatology "climatology") with true. cbv iota.
    wp_all any_solver.
    all: (let H := fresh "Hres" in intros ? H; try discriminate H; injection H as <-).
    all: try reflexivity.
    all: simpl in *; congruence. }
  destruct H as (g' & _ & _ & H). by apply H.
Qed.

(** X9: the output of an observational job loses the first character of
    its period.  The [period] attribute of the sink is the period string
    from its second character on (the worker cuts off the underscore that
    it puts in front of the period for WRF and CESM only): the long-term
    mean is recorded as ['ong-Term Mean']. *)
Theorem observational_output_clips_its_period env a ld s s' tg :
  dataset a <> "WRF" -> dataset a <> "CESM" ->
  out (load_source env a s) = Ok ld -> out (prepare_target env a ld s') = Ok tg ->
  sink_atts a ld tg !! "period" =
    Some (if nonempty (ld_periodstr ld) then drop1 (ld_periodstr ld) else "time-series") /\
  (da_period (a_dataargs a) = Some PerNone -> mode a = "climatology" ->
   ld_periodstr ld = "Long-Term Mean" /\
   sink_atts a ld tg !! "period" = Some "ong-Term Mean").
Proof.
  intros H1 H2 Hld Htg. apply String.eqb_neq in H1, H2.
  apply prepared_target_period in Htg. rewrite H1, H2 in Htg. simpl in Htg.
  assert (sink_atts a ld tg !! "period" =
          Some (if nonempty (ld_periodstr ld) then drop1 (ld_periodstr ld)
                else "time-series")) as Hp.
  { unfold sink_atts. rewrite Htg.
    rewrite !lookup_insert_ne by done. by rewrite lookup_insert_eq. }
  split; [done|]. intros Hper Hm.
  unfold load_source in Hld. rewrite H1, H2 in Hld.
  destruct (String.eqb (dataset a) (upper (dataset a))); [|discriminate Hld].
  pose proof (load_obs_periodstr env a s ld Hld Hper Hm) as Hps.
  split; [done|]. rewrite Hp, Hps. reflexivity.
Qed.

Lemma observational_output_clips_its_period_witness :
  let a := demo_obs_args in
  let ld := Loaded demo_source "GPCC" None "Long-Term Mean" None None (Some "GPCC_025")
              (Some demo_obs_module) in
  let tg := Target "Long-Term Mean" (Some "obs.nc") "/obs/gpcc/" in
  sink_atts a ld tg !! "period" =
    Some (if nonempty (ld_periodstr ld) then drop1 (ld_periodstr ld) else "time-series") /\
  (da_period (a_dataargs a) = Some PerNone -> mode a = "climatology" ->
   ld_periodstr ld = "Long-Term Mean" /\
   sink_atts a ld tg !! "period" = Some "ong-Term Mean").
Proof.
  apply (observational_output_clips_its_period demo_obs_env demo_obs_args
           (Loaded demo_source "GPCC" None "Long-Term Mean" None None (Some "GPCC_025")
              (Some demo_obs_module)) demo_obs_fs demo_obs_fs
           (Target "Long-Term Mean" (Some "obs.nc") "/obs/gpcc/")).
  - simpl. discriminate.
  - simpl. discriminate.
  - vm_compute. reflexivity.
  - vm_compute. reflexivity.
Defined.

(** ** Temporary files *)

Lemma string_app_assoc (s1 s2 s3 : string) : (s1 +:+ s2) +:+ s3 = s1 +:+ (s2 +:+ s3).
Proof.
  induction s1 as [|c s1 IH]; [done|].
  change (String c ((s1 +:+ s2) +:+ s3) = String c (s1 +:+ (s2 +:+ s3))). by rewrite IH.
Qed.

Lemma string_app_inv_tail (s1 s2 s3 : string) : s1 +:+ s3 = s2 +:+ s3 -> s1 = s2.
Proof.
  revert s2. induction s1 as [|c s1 IH]; intros [|c' s2] H.
  - done.
  - apply (f_equal String.length) in H. rewrite !string_length_app in H. simpl in H. lia.
  - apply (f_equal String.length) in H. rewrite !string_length_app in H. simpl in H. lia.
  - change (String c (s1 +:+ s3) = String c' (s2 +:+ s3)) in H.
    injection H as -> H. f_equal. by apply IH.
Qed.

(** X10: workers of a parallel run do not share a temporary file.  Two
    jobs in parallel mode that write the same output file for the same
    shapes, under different process tags (the [pidstr] without its first
    and last character), have the same final path and different temporary
    paths, and no temporary path is the final path. *)
Theorem parallel_workers_use_their_own_temporary a1 a2 tg fname :
  lparallel a1 = true -> lparallel a2 = true -> lreturn a1 = false -> lreturn a2 = false ->
  shape_name a1 = shape_name a2 ->
  slice_1_m1 (pidstr a1) <> slice_1_m1 (pidstr a2) ->
  let p1 := output_paths a1 tg fname in
  let p2 := output_paths a2 tg fname in
  filepath p1 = filepath p2 /\
  tmpfilepath p1 <> tmpfilepath p2 /\
  tmpfilepath p1 <> filepath p1 /\ tmpfilepath p2 <> filepath p2.
Proof.
  intros Hp1 Hp2 Hr1 Hr2 Hs Hpid p1 p2.
  split; [reflexivity|].
  split; [|split; by apply output_paths_distinct].
  subst p1 p2. unfold output_paths, tmp_prefix. rewrite Hp1, Hp2, Hr1, Hr2, Hs. simpl.
  intros H. apply Hpid.
  apply (inj (String.app _)) in H.
  rewrite !string_app_assoc in H.
  do 3 apply (inj (String.app _)) in H. by apply string_app_inv_tail in H.
Qed.

Lemma parallel_workers_use_their_own_temporary_witness :
  let a1 := set_pidstr "[proc01]" (set_parallel true demo_args) in
  let a2 := set_pidstr "[proc02]" (set_parallel true demo_args) in
  let p1 := output_paths a1 demo_target "wrfsrfc_shpavg_monthly.nc" in
  let p2 := output_paths a2 demo_target "wrfsrfc_shpavg_monthly.nc" in
  filepath p1 = filepath p2 /\
  tmpfilepath p1 <> tmpfilepath p2 /\
  tmpfilepath p1 <> filepath p1 /\ tmpfilepath p2 <> filepath p2.
Proof.
  apply (parallel_workers_use_their_own_temporary
           (set_pidstr "[proc01]" (set_parallel true demo_args))
           (set_pidstr "[proc02]" (set_parallel true demo_args))
           demo_target "wrfsrfc_shpavg_monthly.nc").
  - reflexivity.
  - reflexivity.
  - reflexivity.
  - reflexivity.
  - reflexivity.
  - vm_compute. discriminate.
Defined.

(** ** The registry of CESM experiments *)

Lemma keys_notin_insert (m : gmap string CESM.entry) x k :
  k <> CESM.name x -> k <> CESM.shortname x ->
  CESM_py.add_experiment m x !! k = m !! k.
Proof.
  intros H1 H2. unfold CESM_py.add_experiment.
  by rewrite !lookup_insert_ne by done.
Qed.

Lemma build_exps_lookup items : forall (m : gmap string CESM.entry) k e,
  NoDup (CESM_py.keys items) ->
  (forall k', In k' (CESM_py.keys items) -> m !! k' = None) ->
  foldl CESM_py.add_experiment m items !! k = Some e <->
  m !! k = Some e \/ (In e items /\ (k = CESM.name e \/ k = CESM.shortname e)).
Proof.
  induction items as [|x l IH]; intros m k e Hnd Hm; simpl.
  - tauto.
  - simpl in Hnd. apply NoDup_cons in Hnd as [Hn Hnd]. apply NoDup_cons in Hnd as [Hsn Hnd].
    rewrite IH; [|done|].
    + destruct (decide (k = CESM.shortname x)) as [->|Hk1].
      { unfold CESM_py.add_experiment. rewrite lookup_insert_eq.
        rewrite (Hm (CESM.shortname x)) by (simpl; tauto).
        split.
        - intros [[= <-]|[Hin Hk]]; [right; tauto|].
          exfalso. apply Hsn. apply list_elem_of_In, in_flat_map. exists e. simpl.
          destruct Hk as [Hk|Hk]; rewrite Hk; tauto.
        - intros [?|[[<-|Hin] Hk]]; [done|by left|].
          exfalso. apply Hsn. apply list_elem_of_In, in_flat_map. exists e. simpl.
          destruct Hk as [Hk|Hk]; rewrite Hk; tauto. }
      destruct (decide (k = CESM.name x)) as [->|Hk2].
      { unfold CESM_py.add_experiment. rewrite lookup_insert_ne by done.
        rewrite lookup_insert_eq.
        rewrite (Hm (CESM.name x)) by (simpl; tauto).
        assert (~ In (CESM.name x) (CESM_py.keys l)) as Hn'.
        { intros Hin. apply Hn. right. by apply list_elem_of_In. }
        split.
        - intros [[= <-]|[Hin Hk]]; [right; tauto|].
          exfalso. apply Hn'. apply in_flat_map. exists e. simpl.
          destruct Hk as [Hk|Hk]; rewrite Hk; tauto.
        - intros [?|[[<-|Hin] Hk]]; [done|by left|].
          exfalso. apply Hn'. apply in_flat_map. exists e. simpl.
          destruct Hk as [Hk|Hk]; rewrite Hk; tauto. }
      rewrite keys_notin_insert by done.
      split; [intros [?|[? ?]]; [by left|right; tauto]|].
      intros [?|[[<-|Hin] Hk]]; [by left| |right; tauto].
      destruct Hk; congruence.
    + intros k' Hk'. rewrite keys_notin_insert.
      * apply Hm. simpl. tauto.
      * intros ->. apply Hn. right. by apply list_elem_of_In.
      * intros ->. apply Hsn. by apply list_elem_of_In.
Qed.

Lemma keys_perm l1 l2 : l1 ≡ₚ l2 -> CESM_py.keys l1 ≡ₚ CESM_py.keys l2.
Proof. intros H. unfold CESM_py.keys. by apply Permutation_flat_map. Qed.

Lemma experiments_keys_NoDup : NoDup (CESM_py.keys CESM.experiments).
Proof. apply (bool_decide_unpack _). vm_compute. reflexivity. Qed.

Lemma build_exps_spec items k e :
  items ≡ₚ CESM.experiments ->
  CESM_py.build_exps items !! k = Some e <->
  In e CESM.experiments /\ (k = CESM.name e \/ k = CESM.shortname e).
Proof.
  intros Hp. unfold CESM_py.build_exps. rewrite build_exps_lookup.
  - rewrite lookup_empty. split.
    + intros [?|[Hin ?]]; [done|]. split; [|done].
      apply list_elem_of_In. rewrite <- Hp. by apply list_elem_of_In.
    + intros [Hin ?]. right. split; [|done].
      apply list_elem_of_In. rewrite Hp. by apply list_elem_of_In.
  - rewrite (keys_perm _ _ Hp). apply experiments_keys_NoDup.
  - intros. apply lookup_empty.
Qed.

Lemma exps_lookup k : CESM_py.exps !! k = CESM.exps k.
Proof.
  unfold CESM.exps.
  destruct (find _ CESM.experiments) as [e|] eqn:Hf.
  - apply find_some in Hf as [Hin Hk].
    apply build_exps_spec; [done|]. split; [done|].
    apply orb_prop in Hk as [Hk|Hk]; apply String.eqb_eq in Hk; auto.
  - destruct (CESM_py.exps !! k) as [e|] eqn:He; [|done].
    apply build_exps_spec in He as [Hin Hk]; [|done].
    pose proof (find_none _ _ Hf e Hin) as Hn. simpl in Hn.
    apply orb_false_elim in Hn as [H1 H2].
    apply String.eqb_neq in H1, H2. destruct Hk; congruence.
Qed.

(** X11: the register of aliases does not depend on the order in which
    Python hands out the experiments.  Whatever that order, the
    dictionary [exps] files every experiment of the reference list under
    its name and under its short name, and holds nothing else: no key is
    claimed by two experiments.  It has 18 keys, and it is the function
    that the model of the loaders looks experiments up with. *)
Theorem alias_register_is_independent_of_the_order items :
  items ≡ₚ CESM.experiments ->
  CESM_py.build_exps items = CESM_py.exps /\
  (forall k e, CESM_py.exps !! k = Some e <->
     In e CESM.experiments /\ (k = CESM.name e \/ k = CESM.shortname e)) /\
  size CESM_py.exps = 18%nat /\
  (forall k, CESM_py.exps !! k = CESM.exps k).
Proof.
  intros Hp. split; [|split; [|split]].
  - apply map_eq. intros k. apply option_eq. intros e.
    rewrite (build_exps_spec items k e Hp). symmetry. by apply build_exps_spec.
  - intros k e. by apply build_exps_spec.
  - vm_compute. reflexivity.
  - apply exps_lookup.
Qed.

Lemma alias_register_is_independent_of_the_order_witness :
  CESM_py.build_exps (rev CESM.experiments) = CESM_py.exps /\
  (forall k e, CESM_py.exps !! k = Some e <->
     In e CESM.experiments /\ (k = CESM.name e \/ k = CESM.shortname e)) /\
  size CESM_py.exps = 18%nat /\
  (forall k, CESM_py.exps !! k = CESM.exps k).
Proof.
  apply (alias_register_is_independent_of_the_order (rev CESM.experiments)).
  symmetry. apply Permutation_rev.
Defined.

(** ** [getFolderName] and [loadCESM] *)

(** The worker's call [getFolderName(name=None, experiment=<a name>,
    folder=None)] is the one the model of [loadCESM] runs. *)
Lemma getFolderName_of_loadCESM env n s :
  CESM_py.getFolderName env None (CESM_py.ExpName n) CESM_py.FolderNone s =
  CESM.getFolderName env n s.
Proof.
  unfold CESM_py.getFolderName, CESM.getFolderName. rewrite exps_lookup.
  destruct (CESM.exps n) as [e|]; [|reflexivity].
  cbv [key mbind M_bind bind mret M_ret ret raise os_path_exists out final steps app].
  destruct (s !! CESM.exp_avgfolder env e); reflexivity.
Qed.

(** X12: what [getFolderName] hands back can be used.  A call that
    returns has changed nothing, the folder it names exists, and the
    experiment is the one the register files under the name that was
    given; a folder or a name that was passed in is kept, a missing one
    is the default folder or the (long) name of the experiment.  Without
    an experiment the folder has to be given and the name has to be
    registered. *)
Theorem getFolderName_returns_an_existing_folder env name experiment folder s f e n :
  let r := CESM_py.getFolderName env name experiment folder s in
  out r = Ok (f, e, n) ->
  final r = s /\ is_Some (s !! f) /\
  match experiment with
  | CESM_py.ExpNone =>
      folder = CESM_py.FolderStr f /\ name = Some n /\ CESM_py.exps !! n = Some e
  | _ =>
      match experiment with
      | CESM_py.ExpName k => CESM_py.exps !! k = Some e
      | _ => experiment = CESM_py.ExpObj e
      end /\
      match folder with
      | CESM_py.FolderNone => f = CESM.exp_avgfolder env e
      | CESM_py.FolderStr g => f = g
      | CESM_py.FolderOther => False
      end /\
      n = default (CESM.name e) name
  end.
Proof.
  intros r Hr. subst r. revert Hr. unfold CESM_py.getFolderName.
  generalize CESM_py.exps. intros m Hr.
  assert (wp anything
            ('(folder, experiment, name) ←
               match experiment with
               | CESM_py.ExpNone =>
                   match folder with
                   | CESM_py.FolderStr f =>
                       match name ≫= (fun n => (fun e => (n, e)) <$> m !! n) with
                       | Some (n, e) => ret (f, e, n)
                       | None => raise DatasetError
                       end
                   | _ => raise IOError
                   end
               | _ =>
                   e ← match experiment with
                       | CESM_py.ExpName n => key (m !! n)
                       | CESM_py.ExpObj e => ret e
                       | CESM_py.ExpNone => raise TypeError
                       end;
                   folder ← match folder with
                            | CESM_py.FolderNone => ret (CESM.exp_avgfolder env e)
                            | CESM_py.FolderStr f => ret f
                            | CESM_py.FolderOther => raise TypeError
                            end;
                   ret (folder, e, match name with None => CESM.name e | Some n => n end)
               end;
             ex ← os_path_exists folder;
             if negb ex then raise IOError else ret (folder, experiment, name))
            (fun r s' _ => forall f e n, r = Ok (f, e, n) ->
               s' = s /\ is_Some (s !! f) /\
               match experiment with
               | CESM_py.ExpNone =>
                   folder = CESM_py.FolderStr f /\ name = Some n /\
                   m !! n = Some e
               | _ =>
                   match experiment with
                   | CESM_py.ExpName k => m !! k = Some e
                   | _ => experiment = CESM_py.ExpObj e
                   end /\
                   match folder with
                   | CESM_py.FolderNone => f = CESM.exp_avgfolder env e
                   | CESM_py.FolderStr g => f = g
                   | CESM_py.FolderOther => False
                   end /\
                   n = default (CESM.name e) name
               end) tt s) as H.
  { destruct experiment as [|k|e0], folder as [|g|], name as [n0|]; simpl.
    all: wp_all any_solver.
    all: (let H := fresh "Hres" in intros ? ? ? H; try discriminate H; simplify_eq).
    all: try (match goal with
              | E : negb ?b = true, E' : ?b = true |- _ => rewrite E' in E; discriminate
              end).
    all: try (simpl in *; congruence).
    all: split; [done|]; split; [eauto|]; simpl; try done.
    all: match goal with
         | E : (_ <$> ?m) = Some _ |- _ =>
             destruct m eqn:?; simpl in E; simplify_eq; done
         end. }
  destruct H as (g' & _ & _ & H). by apply H.
Qed.

Lemma getFolderName_returns_an_existing_folder_witness :
  let f := "/data/CESM/cesmavg//tb20trcn1x1/" in
  let e := CESM.Entry "Ctrl" "tb20trcn1x1" "1979-01-01" "1995-01-01" "cesm1x1" in
  let r := CESM_py.getFolderName demo_env None (CESM_py.ExpName "Ctrl") CESM_py.FolderNone
             demo_CESM_fs in
  final r = demo_CESM_fs /\ is_Some (demo_CESM_fs !! f) /\
  CESM_py.exps !! "Ctrl" = Some e /\ f = CESM.exp_avgfolder demo_env e /\
  "tb20trcn1x1" = default (CESM.name e) None.
Proof.
  apply (getFolderName_returns_an_existing_folder demo_env None (CESM_py.ExpName "Ctrl")
           CESM_py.FolderNone demo_CESM_fs "/data/CESM/cesmavg//tb20trcn1x1/"
           (CESM.Entry "Ctrl" "tb20trcn1x1" "1979-01-01" "1995-01-01" "cesm1x1")
           "tb20trcn1x1").
  vm_compute. reflexivity.
Defined.

Lemma climfiles_run filetypes g p s :
  Forall known_filetype filetypes ->
  exists fl,
    CESM.climfiles filetypes s = Run (Ok fl) s [] /\
    map (fun f : string -> string -> string => f g p) fl =
    map (fun ft => CESM_py.file_pattern ft g p) (List.filter not_axes filetypes).
Proof.
  induction 1 as [|ft l Hft _ (fl & Hrun & Hfl)]; simpl.
  - by exists [].
  - cbv [mbind M_bind bind]. 
    destruct Hft as [<-|[<-|[<-|[<-|[]]]]]; simpl; rewrite Hrun; simpl;
      eexists; (split; [reflexivity|]); simpl; by rewrite Hfl.
Qed.

Lemma filter_not_axes_app filetypes :
  List.filter not_axes (filetypes ++ ["axes"]) = List.filter not_axes filetypes.
Proof. rewrite List.filter_app. simpl. by rewrite app_nil_r. Qed.

(** X13: which files [loadCESM] reads.  For a registered experiment whose
    folder exists, a period of two years or more and file types of the
    module, the NetCDF reader is asked for one file per file type other
    than ['axes'], in the order of the file types, in the folder of the
    experiment, and each is named by the file pattern of the module with
    no grid and the period [_<begin>-<end>]; listing ['axes'] or not makes
    no difference.  Nothing else is looked at but the folder, and what
    the reader raises is raised. *)
Theorem loadCESM_reads_one_file_per_filetype
    env experiment e b y rest filetypes varlist s :
  CESM.exps experiment = Some e ->
  is_Some (s !! CESM.exp_avgfolder env e) ->
  Forall known_filetype filetypes ->
  let folder := CESM.exp_avgfolder env e in
  let names :=
    map (fun ft => CESM_py.file_pattern ft "" ("_" +:+ fmt_period b y))
        (List.filter not_axes filetypes) in
  CESM.loadCESM env CESM.loadCESM_params experiment (Some (b :: y :: rest)) filetypes
    (Some varlist) s =
  Run (match DatasetNetCDF_r env folder names (Some varlist) s with
       | Ok ds => if Nat.eqb (List.length (src_vars ds)) 0 then Raise DatasetError
                  else addGDALtoDataset env ds
       | Raise x => Raise x
       end)
      s [(EvExists folder, s); (EvLoad "DatasetNetCDF", s)].
Proof.
  intros He [d Hd] Hft folder names.
  assert (Forall known_filetype
            (if existsb (String.eqb "axes") filetypes then filetypes
             else (filetypes ++ ["axes"])%list)) as Hft'.
  { destruct (existsb _ filetypes); [done|].
    apply Forall_app. split; [done|].
    constructor; [|constructor]. unfold known_filetype. simpl. tauto. }
  destruct (climfiles_run _ "" ("_" +:+ fmt_period b y) s Hft') as (fl & Hrun & Hfl).
  assert (map (fun f : string -> string -> string => f "" ("_" +:+ fmt_period b y)) fl = names)
    as Hnames.
  { rewrite Hfl. subst names. destruct (existsb _ filetypes); [done|].
    by rewrite filter_not_axes_app. }
  unfold CESM.loadCESM, CESM.getFolderName, bind_keywords.
  change (accepts CESM.loadCESM_params CESM.loadCESM_params) with true. cbv iota.
  rewrite He. fold folder.
  cbv [mbind M_bind bind mret M_ret ret raise key lift format_period load os_path_exists
       out final steps negb].
  rewrite Hd. cbv [out final steps negb].
  fold folder. rewrite Hrun. cbv [out final steps].
  rewrite Hnames.
  destruct (DatasetNetCDF_r env folder names (Some varlist) s) as [ds|x]; cbv [out final steps].
  - destruct (Nat.eqb (List.length (src_vars ds)) 0); cbv [out final steps];
      [reflexivity|].
    destruct (addGDALtoDataset env ds); reflexivity.
  - reflexivity.
Qed.

Lemma loadCESM_reads_one_file_per_filetype_witness :
  let folder := "/data/CESM/cesmavg//tb20trcn1x1/" in
  CESM.loadCESM demo_env CESM.loadCESM_params "Ctrl" (Some [1979; 1989]) ["atm"; "lnd"]
    (Some ["T2"]) demo_CESM_fs =
  Run (match DatasetNetCDF_r demo_env folder
               ["cesmatm_clim_1979-1989.nc"; "cesmlnd_clim_1979-1989.nc"] (Some ["T2"])
               demo_CESM_fs with
       | Ok ds => if Nat.eqb (List.length (src_vars ds)) 0 then Raise DatasetError
                  else addGDALtoDataset demo_env ds
       | Raise x => Raise x
       end)
      demo_CESM_fs [(EvExists folder, demo_CESM_fs); (EvLoad "DatasetNetCDF", demo_CESM_fs)].
Proof.
  apply (loadCESM_reads_one_file_per_filetype demo_env "Ctrl"
           (CESM.Entry "Ctrl" "tb20trcn1x1" "1979-01-01" "1995-01-01" "cesm1x1")
           1979 1989 [] ["atm"; "lnd"] ["T2"] demo_CESM_fs).
  - reflexivity.
  - vm_compute. eauto.
  - constructor; [|constructor; [|constructor]]; unfold known_filetype; simpl; tauto.
Defined.
